(** * audiorelay: the capture-process-broadcast pipeline

    A shallow embedding of the Go sources of the audio relay
    (audio.go, tcp.go, http.go, config.go, device.go, relay.go) and the
    properties of the capture loop, the signal processor, the two
    broadcasters, the choice of the input device and the relay that
    joins them.

    Conventions of the embedding:
    - Go's [int] and [int64] are 64-bit two's complement integers, [int16]
      is 16-bit; all are carried as [Z] and every arithmetic result is
      wrapped explicitly.
    - Go's [float64] is Rocq's primitive binary64 float; every operation
      rounds on its own (no fused multiply-add), and a conversion of a
      float to an integer behaves as the gc compiler's code does on amd64.
    - A Go map that is ranged over is visited in an order the caller of
      the model chooses; the theorems hold for every order.
    - A goroutine started with [go] is returned as a pending task; real
      time enters only as the delays the model is told about. *)

From Stdlib Require Import ZArith List Bool Lia String Ascii.
From Stdlib Require Import Floats.
From stdpp Require Import base gmap sets list.
Import ListNotations.
Open Scope string_scope.
Open Scope list_scope.
Open Scope Z_scope.

(** ** Machine integers *)

Module GoInt.

(** The value of a [w]-bit two's complement integer holding [z]. *)
Definition wrap (w : Z) (z : Z) : Z :=
  (z + 2 ^ (w - 1)) mod 2 ^ w - 2 ^ (w - 1).

Definition int64 (z : Z) : Z := wrap 64 z.
Definition int32 (z : Z) : Z := wrap 32 z.
Definition int16 (z : Z) : Z := wrap 16 z.
Definition byte (z : Z) : Z := z mod 256.

Definition min_int64 : Z := - 2 ^ 63.
Definition max_int64 : Z := 2 ^ 63 - 1.
Definition min_int32 : Z := - 2 ^ 31.
Definition max_int32 : Z := 2 ^ 31 - 1.
Definition min_int16 : Z := - 32768.
Definition max_int16 : Z := 32767.

Definition is_int64 (z : Z) : Prop := min_int64 <= z <= max_int64.
Definition is_int16 (z : Z) : Prop := min_int16 <= z <= max_int16.

End GoInt.

(** ** Floating point *)

Module GoFloat.
Import GoInt.

(** [float64(x)] for an integer [x] of magnitude below 2^63 (exact for
    every [int16]). *)
Definition of_int (z : Z) : float :=
  if z <? 0 then PrimFloat.opp (PrimFloat.of_uint63 (Uint63.of_Z (- z)))
  else PrimFloat.of_uint63 (Uint63.of_Z z).

(** The integer part (towards zero) of a finite float. *)
Definition trunc_SF (x : spec_float) : option Z :=
  match x with
  | S754_zero _ => Some 0
  | S754_finite s m e =>
      Some (cond_Zopp s (if 0 <=? e then Z.shiftl (Zpos m) e
                         else Z.shiftr (Zpos m) (- e)))
  | S754_infinity _ | S754_nan => None
  end.

Definition trunc (f : float) : option Z := trunc_SF (Prim2SF f).

(** [int(f)]: the fraction is discarded; a value that does not fit (or a
    NaN, or an infinity) gives the "integer indefinite" value of the
    64-bit conversion instruction the gc compiler emits on amd64. *)
Definition to_int (f : float) : Z :=
  match trunc f with
  | Some z => if (min_int64 <=? z) && (z <=? max_int64) then z else min_int64
  | None => min_int64
  end.

(** [int16(f)]: the gc compiler converts to a 32-bit integer and keeps
    the low 16 bits. *)
Definition to_int32 (f : float) : Z :=
  match trunc f with
  | Some z => if (min_int32 <=? z) && (z <=? max_int32) then z else min_int32
  | None => min_int32
  end.

Definition to_int16 (f : float) : Z := int16 (to_int32 f).

(** The sign bit of the float is clear (a NaN has none). *)
Definition unsigned (x : spec_float) : bool :=
  match x with
  | S754_zero s | S754_infinity s | S754_finite s _ _ => negb s
  | S754_nan => true
  end.

(** The float is below zero: an infinity or a finite number with the
    sign bit set. *)
Definition negative (x : spec_float) : bool :=
  match x with
  | S754_infinity s | S754_finite s _ _ => s
  | S754_zero _ | S754_nan => false
  end.

End GoFloat.

(** ** Configuration (config.go) *)

(** The fields of [Config] that the pipeline reads. *)
Record AudioConfig := mkAudioConfig {
  SampleRate : float;   (* float64 *)
  Channels : Z;         (* int *)
  BufferSize : Z        (* int *)
}.

Record ProcessingConfig := mkProcessingConfig {
  SilenceDetection : bool;
  SilenceThreshold : Z;      (* int *)
  VolumeMultiplier : float;  (* float64 *)
  ClipThreshold : Z          (* int16 *)
}.

Record Config := mkConfig {
  Audio : AudioConfig;
  Processing : ProcessingConfig
}.

(** [setDefaults]: the values of a run without a configuration file. *)
Definition defaultConfig : Config :=
  {| Audio := {| SampleRate := 48000%float; Channels := 2; BufferSize := 0 |};
     Processing := {| SilenceDetection := true; SilenceThreshold := 1000;
                      VolumeMultiplier := 1%float; ClipThreshold := 28000 |} |}.

(** ** Audio capture (audio.go) *)

Module AudioCapture.
Import GoInt GoFloat.

(** 20 ms; the literal 0.02 as the nearest binary64 value. *)
Definition targetLatency : float := 0x1.47ae147ae147bp-6%float.

(** The literal 0.3 of the soft clipper, as the nearest binary64 value. *)
Definition softKnee : float := 0x1.3333333333333p-2%float.

(** [for powerOfTwo < targetSamples { powerOfTwo <<= 1 }]; [None] when
    the loop is still running after [fuel] tests of its condition. *)
Fixpoint roundUpLoop (fuel : nat) (powerOfTwo targetSamples : Z) : option Z :=
  match fuel with
  | O => None
  | S fuel' =>
      if powerOfTwo <? targetSamples
      then roundUpLoop fuel' (int64 (Z.shiftl powerOfTwo 1)) targetSamples
      else Some powerOfTwo
  end.

Definition targetSamples (cfg : Config) : Z :=
  to_int (PrimFloat.mul (SampleRate (Audio cfg)) targetLatency).

Definition clampPowerOfTwo (powerOfTwo : Z) : Z :=
  let p := if powerOfTwo <? 256 then 256 else powerOfTwo in
  if 2048 <? p then 2048 else p.

Definition calculateOptimalBufferSize (fuel : nat) (cfg : Config) : option Z :=
  if 0 <? BufferSize (Audio cfg)
  then Some (int64 (BufferSize (Audio cfg) * Channels (Audio cfg)))
  else
    match roundUpLoop fuel 1 (targetSamples cfg) with
    | None => None
    | Some powerOfTwo =>
        Some (int64 (clampPowerOfTwo powerOfTwo * Channels (Audio cfg)))
    end.

(** The loop of [isSilence], from the first sample on. *)
Fixpoint isSilenceLoop (threshold : Z) (buffer : list Z) : bool :=
  match buffer with
  | [] => true
  | s :: rest =>
      if (threshold <? s) || (s <? int16 (- threshold)) then false
      else isSilenceLoop threshold rest
  end.

Definition isSilence (cfg : Config) (buffer : list Z) : bool :=
  let threshold := int16 (SilenceThreshold (Processing cfg)) in
  isSilenceLoop threshold buffer.

(** The body of the loop of [processAudioData] up to the conversion:
    the float that is stored back as a sample. *)
Definition processValue (cfg : Config) (s : Z) : float :=
  let sample := of_int s in
  let sample := PrimFloat.mul sample (VolumeMultiplier (Processing cfg)) in
  let clip := of_int (ClipThreshold (Processing cfg)) in
  if PrimFloat.ltb clip sample then
    let excess := PrimFloat.sub sample clip in
    PrimFloat.add clip (PrimFloat.mul excess softKnee)
  else if PrimFloat.ltb sample (PrimFloat.opp clip) then
    let excess := PrimFloat.add sample clip in
    PrimFloat.add (PrimFloat.opp clip) (PrimFloat.mul excess softKnee)
  else sample.

Definition processSample (cfg : Config) (s : Z) : Z :=
  to_int16 (processValue cfg s).

Definition processAudioData (cfg : Config) (buffer : list Z) : list Z :=
  map (processSample cfg) buffer.

(** Two bytes per sample, low byte first. *)
Definition int16ToBytes (buffer : list Z) : list Z :=
  flat_map (fun sample =>
              [byte (Z.land sample 255); byte (Z.land (Z.shiftr sample 8) 255)])
           buffer.

(** *** The capture object and its processing loop *)

Record t := mk {
  config : Config;
  buffer : list Z;            (* []int16, filled by stream.Read *)
  dataCallback : bool;        (* true when the callback is not nil *)
  actualBufferSize : Z;
  frameCount : Z;             (* int64, under statsMu *)
  bytesSent : Z;              (* int64, under statsMu *)
  silenceCount : Z;           (* int64, under statsMu *)
  isCapturing : bool;
  isRunning : bool
}.

Definition NewAudioCapture (cfg : Config) : t :=
  mk cfg [] false 0 0 0 0 false false.

Definition SetDataCallback (ac : t) : t :=
  mk (config ac) (buffer ac) true (actualBufferSize ac) (frameCount ac)
     (bytesSent ac) (silenceCount ac) (isCapturing ac) (isRunning ac).

(** [Initialize], without the opening of the device stream: the buffer
    size is computed and the sample buffer allocated ([make] panics on a
    negative length: [None]). *)
Definition Initialize (fuel : nat) (ac : t) : option t :=
  match calculateOptimalBufferSize fuel (config ac) with
  | None => None
  | Some n =>
      if n <? 0 then None
      else Some (mk (config ac) (repeat 0 (Z.to_nat n)) (dataCallback ac) n
                    (frameCount ac) (bytesSent ac) (silenceCount ac)
                    (isCapturing ac) (isRunning ac))
  end.

(** [Start], once the device stream has started. *)
Definition Start (ac : t) : t :=
  mk (config ac) (buffer ac) (dataCallback ac) (actualBufferSize ac)
     (frameCount ac) (bytesSent ac) (silenceCount ac) true true.

Definition GetStats (ac : t) : Z * Z * Z :=
  (frameCount ac, bytesSent ac, silenceCount ac).

Definition GetActualBufferSize (ac : t) : Z := actualBufferSize ac.

(** The local variables of [processAudio] that live across iterations. *)
Record locals := mkLocals {
  bytesTransferred : Z;
  silenceFrames : Z;
  consecutiveErrors : Z
}.

Definition initLocals : locals := mkLocals 0 0 0.

(** What the environment decides in one iteration: the outcome of
    [stream.Read] ([None]: an error; [Some frame]: the samples now in
    the buffer) and whether five seconds have passed since the last
    status line. *)
Record cycle := mkCycle {
  read : option (list Z);
  statsDue : bool
}.

(** What one iteration does to the outside. *)
Inductive event :=
| LogReadError
| LogTooManyErrors
| Sleep (ms : Z)
| Callback (audioData : list Z)
| StatusLine (silent : bool) (totalFrames totalBytes totalSilence : Z).

Inductive control := Continue | Break.

Definition withStats (ac : t) (frames bytes silence : Z) (buf : list Z) : t :=
  mk (config ac) buf (dataCallback ac) (actualBufferSize ac)
     frames bytes silence (isCapturing ac) (isRunning ac).

(** The part of the loop body after silence detection: process, encode,
    count the bytes, call back, and print the status when due. *)
Definition processAndSend (due : bool) (ac : t) (l : locals)
  : control * t * locals * list event :=
  let processedBuffer := processAudioData (config ac) (buffer ac) in
  let audioData := int16ToBytes processedBuffer in
  let n := Z.of_nat (length audioData) in
  let ac1 := withStats ac (frameCount ac) (int64 (bytesSent ac + n))
                       (silenceCount ac) (buffer ac) in
  let l1 := mkLocals (int64 (bytesTransferred l + n)) (silenceFrames l)
                     (consecutiveErrors l) in
  let sent := if dataCallback ac then [Callback audioData] else [] in
  if due then
    let status := SilenceDetection (Processing (config ac))
                  && (0 <? silenceFrames l) in
    (Continue, ac1,
     mkLocals 0 (silenceFrames l1) (consecutiveErrors l1),
     sent ++ [StatusLine status (frameCount ac1) (bytesSent ac1)
                         (silenceCount ac1)])
  else (Continue, ac1, l1, sent).

(** One iteration of the [for ac.isRunning] loop of [processAudio]. *)
Definition iteration (c : cycle) (ac : t) (l : locals)
  : control * t * locals * list event :=
  match read c with
  | None =>
      let l1 := mkLocals (bytesTransferred l) (silenceFrames l)
                         (int64 (consecutiveErrors l + 1)) in
      if 10 <? consecutiveErrors l1
      then (Break, ac, l1, [LogReadError; LogTooManyErrors])
      else (Continue, ac, l1, [LogReadError; Sleep 10])
  | Some frame =>
      let l1 := mkLocals (bytesTransferred l) (silenceFrames l) 0 in
      let ac1 := withStats ac (int64 (frameCount ac + 1)) (bytesSent ac)
                           (silenceCount ac) frame in
      if SilenceDetection (Processing (config ac)) then
        if isSilence (config ac) frame then
          let l2 := mkLocals (bytesTransferred l1)
                             (int64 (silenceFrames l1 + 1))
                             (consecutiveErrors l1) in
          let ac2 := withStats ac1 (frameCount ac1) (bytesSent ac1)
                               (int64 (silenceCount ac1 + 1)) (buffer ac1) in
          if 30 <? silenceFrames l2 then (Continue, ac2, l2, [])
          else processAndSend (statsDue c) ac2 l2
        else
          processAndSend (statsDue c) ac1
            (mkLocals (bytesTransferred l1) 0 (consecutiveErrors l1))
      else processAndSend (statsDue c) ac1 l1
  end.

(** The result of running the loop over the iterations the environment
    allows: [exited] says that the loop was left (by [break], or because
    [isRunning] was false at a test of the loop condition), so that
    [processAudio] has returned. *)
Record outcome := mkOutcome {
  capture : t;
  vars : locals;
  trace : list event;
  exited : bool
}.

Fixpoint loop (cycles : list cycle) (ac : t) (l : locals) : outcome :=
  if isRunning ac then
    match cycles with
    | [] => mkOutcome ac l [] false
    | c :: rest =>
        match iteration c ac l with
        | (Break, ac', l', evs) => mkOutcome ac' l' evs true
        | (Continue, ac', l', evs) =>
            let o := loop rest ac' l' in
            mkOutcome (capture o) (vars o) (evs ++ trace o) (exited o)
        end
    end
  else mkOutcome ac l [] true.

Definition processAudio (cycles : list cycle) (ac : t) : outcome :=
  loop cycles ac initLocals.

(** The audio frames handed to the callback, in order. *)
Definition callbacks (evs : list event) : list (list Z) :=
  flat_map (fun e => match e with Callback d => [d] | _ => [] end) evs.

Definition sleeps (evs : list event) : list Z :=
  flat_map (fun e => match e with Sleep ms => [ms] | _ => [] end) evs.

(** The encoded form of a frame, as the callback receives it. *)
Definition encoded (cfg : Config) (frame : list Z) : list Z :=
  int16ToBytes (processAudioData cfg frame).

(** An iteration that took [ac] to [ac'] with the events [evs] has
    processed the frame normally: the encoded frame went to the callback
    (when there is one) and its bytes were counted. *)
Definition processedNormally (ac : t) (frame : list Z) (ac' : t)
           (evs : list event) : Prop :=
  callbacks evs = (if dataCallback ac then [encoded (config ac) frame] else [])
  /\ bytesSent ac'
     = int64 (bytesSent ac + Z.of_nat (length (encoded (config ac) frame))).

(** The iteration skipped processing, encoding, counting and dispatch. *)
Definition skipped (ac ac' : t) (evs : list event) : Prop :=
  evs = [] /\ bytesSent ac' = bytesSent ac.

(** The read of the cycle succeeded with a frame that [isSilence] accepts. *)
Definition silentRead (cfg : Config) (c : cycle) : Prop :=
  exists frame, read c = Some frame /\ isSilence cfg frame = true.

(** The fields an iteration never touches. *)
Definition sameSetup (ac ac' : t) : Prop :=
  config ac' = config ac /\ dataCallback ac' = dataCallback ac
  /\ isRunning ac' = isRunning ac /\ actualBufferSize ac' = actualBufferSize ac.

(** The frames of the cycles whose read succeeded, in order. *)
Definition framesRead (cycles : list cycle) : list (list Z) :=
  flat_map (fun c => match read c with Some frame => [frame] | None => [] end)
           cycles.

(** The read of the cycle succeeded with a frame that silence detection,
    if it is enabled at all, does not classify as silent. *)
Definition audibleRead (cfg : Config) (c : cycle) : Prop :=
  exists frame,
    read c = Some frame
    /\ (SilenceDetection (Processing cfg) && isSilence cfg frame) = false.

(** A burst of failed reads that a successful read ends. *)
Definition recovered (burst : list cycle) : Prop :=
  exists failures c frame,
    burst = failures ++ [c]
    /\ Forall (fun f => read f = None) failures
    /\ (length failures <= 10)%nat
    /\ read c = Some frame.

(** [Stop]: the flags are cleared (the device stream is stopped and
    closed); nothing happens when the capture is not capturing. *)
Definition Stop (ac : t) : t :=
  if isCapturing ac
  then mk (config ac) (buffer ac) (dataCallback ac) (actualBufferSize ac)
          (frameCount ac) (bytesSent ac) (silenceCount ac) false false
  else ac.

End AudioCapture.

(** ** The raw-stream transport (tcp.go) *)

Module TCPServer.

(** How the remote end of a connection behaves: it takes some time (in
    milliseconds) to accept a write, or the connection is broken and
    every write returns an error. *)
Inductive peer := Accepts (delay : Z) | Broken.

(** The state of one [net.Conn]. *)
Record conn := mkConn {
  remote : peer;
  writeDeadline : option Z;     (* absolute, in ms *)
  received : list (list Z);     (* the data of every successful Write *)
  closed : bool
}.

(** Connections are identified by a number; [now] is the clock in ms. *)
Record world := mkWorld {
  now : Z;
  conns : gmap nat conn
}.

Record t := mk {
  clients : gset nat;           (* map[net.Conn]bool *)
  isRunning : bool
}.

Definition NewTCPServer : t := mk ∅ false.

Definition SetWriteDeadline (c : nat) (deadline : Z) (w : world) : world :=
  mkWorld (now w)
          (alter (fun k => mkConn (remote k) (Some deadline) (received k) (closed k))
                 c (conns w)).

(** [client.Write(data)]: [true] when no error is returned. A write that
    cannot finish by the deadline blocks until the deadline and fails. *)
Definition Write (c : nat) (data : list Z) (w : world) : bool * world :=
  match conns w !! c with
  | None => (false, w)
  | Some k =>
      if closed k then (false, w)
      else
        match remote k with
        | Broken => (false, w)
        | Accepts delay =>
            let late := match writeDeadline k with
                        | Some d => d <? now w + delay
                        | None => false
                        end in
            if late then
              (false, mkWorld (match writeDeadline k with
                               | Some d => Z.max (now w) d
                               | None => now w
                               end) (conns w))
            else
              (true,
               mkWorld (now w + delay)
                       (<[c := mkConn (remote k) (writeDeadline k)
                                      (received k ++ [data]) (closed k)]>
                          (conns w)))
        end
  end.

Definition Close (c : nat) (w : world) : world :=
  mkWorld (now w)
          (alter (fun k => mkConn (remote k) (writeDeadline k) (received k) true)
                 c (conns w)).

Definition addClient (c : nat) (ts : t) : t :=
  mk ({[ c ]} ∪ clients ts) (isRunning ts).

(** The loop of [Broadcast] over the clients in the order [order] in
    which this call ranges over the map; the failed clients are
    collected in that order. *)
Fixpoint broadcastLoop (order : list nat) (data : list Z) (w : world)
         (failedClients : list nat) : world * list nat :=
  match order with
  | [] => (w, failedClients)
  | client :: rest =>
      let w1 := SetWriteDeadline client (now w + 2000) w in
      let '(ok, w2) := Write client data w1 in
      broadcastLoop rest data w2
        (if ok then failedClients else failedClients ++ [client])
  end.

(** [Broadcast]: the world after the call, and the argument of the
    [cleanupClients] goroutine it starts, if it starts one. *)
Definition Broadcast (order : list nat) (data : list Z) (ts : t) (w : world)
  : world * option (list nat) :=
  if (size (clients ts) =? 0)%nat then (w, None)
  else
    let '(w', failedClients) := broadcastLoop order data w [] in
    if (0 <? length failedClients)%nat then (w', Some failedClients)
    else (w', None).

Fixpoint cleanupClients (failedClients : list nat) (ts : t) (w : world)
  : t * world :=
  match failedClients with
  | [] => (ts, w)
  | client :: rest =>
      cleanupClients rest (mk (clients ts ∖ {[ client ]}) (isRunning ts))
                     (Close client w)
  end.

Definition GetClientCount (ts : t) : nat := size (clients ts).

(** A write to this connection under a deadline of two seconds succeeds:
    the connection is open and its peer accepts in time. *)
Definition willAccept (k : conn) : bool :=
  negb (closed k)
  && match remote k with
     | Accepts delay => delay <=? 2000
     | Broken => false
     end.

(** The connection after [Broadcast] has been at it. *)
Definition visited (data : list Z) (deadline : Z) (k : conn) : conn :=
  mkConn (remote k) (Some deadline)
         (if willAccept k then received k ++ [data] else received k)
         (closed k).

(** A write to the client [c] of the world [w] would succeed. *)
Definition writable (w : world) (c : nat) : bool :=
  match conns w !! c with
  | Some k => willAccept k
  | None => false
  end.

(** A call of [Broadcast] followed by the goroutine it started. *)
Definition BroadcastAndCleanup (order : list nat) (data : list Z)
           (ts : t) (w : world) : t * world :=
  match Broadcast order data ts w with
  | (w', Some failedClients) => cleanupClients failedClients ts w'
  | (w', None) => (ts, w')
  end.

(** A series of calls of [Broadcast], each followed by its goroutine;
    every call comes with the order in which it ranges over the map. *)
Fixpoint serve (calls : list (list nat * list Z)) (ts : t) (w : world)
  : t * world :=
  match calls with
  | [] => (ts, w)
  | (order, data) :: rest =>
      let '(ts', w') := BroadcastAndCleanup order data ts w in
      serve rest ts' w'
  end.

(** The order of every call is an order of the clients registered when
    the call is made. *)
Fixpoint ordersFit (calls : list (list nat * list Z)) (ts : t) (w : world)
  : Prop :=
  match calls with
  | [] => True
  | (order, data) :: rest =>
      order ≡ₚ elements (clients ts)
      /\ ordersFit rest (BroadcastAndCleanup order data ts w).1
                   (BroadcastAndCleanup order data ts w).2
  end.

(** The loop of [Stop] over the clients, in the order [order]. *)
Definition closeAll (order : list nat) (w : world) : world :=
  fold_left (fun w' client => Close client w') order w.

(** [Stop] (the listener apart): every client connection is closed and
    the set of clients is replaced by an empty one. *)
Definition Stop (order : list nat) (ts : t) (w : world) : t * world :=
  (mk ∅ false, closeAll order w).

End TCPServer.

(** ** The HTTP/WAV transport (http.go) *)

Module HTTPServer.
Import GoInt GoFloat.

(** What a handler does to its [http.ResponseWriter]. *)
Inductive output :=
| HeaderSet (key value : string)
| Wrote (data : list Z)
| Flushed.

(** One response writer: [gone] when the client has disconnected (every
    write then returns an error), [flusher] when the writer implements
    [http.Flusher]. *)
Record writer := mkWriter {
  gone : bool;
  flusher : bool;
  out : list output
}.

Definition wSetHeader (key value : string) (w : writer) : writer :=
  mkWriter (gone w) (flusher w) (out w ++ [HeaderSet key value]).

(** [w.Write(data)]: [true] when no error is returned. *)
Definition wWrite (data : list Z) (w : writer) : bool * writer :=
  if gone w then (false, w)
  else (true, mkWriter (gone w) (flusher w) (out w ++ [Wrote data])).

(** [if flusher, ok := w.(http.Flusher); ok { flusher.Flush() }] *)
Definition wFlush (w : writer) : writer :=
  if flusher w && negb (gone w)
  then mkWriter (gone w) (flusher w) (out w ++ [Flushed])
  else w.

(** The bytes of the response body, in the order written. *)
Definition body (o : list output) : list Z :=
  flat_map (fun e => match e with Wrote d => d | _ => [] end) o.

Record t := mk {
  config : Config;
  streamClients : gset nat;     (* map[http.ResponseWriter]bool *)
  audioBuffer : list (list Z);  (* [][]byte *)
  bufferSize : Z;
  isRunning : bool
}.

Definition NewHTTPServer (cfg : Config) : t := mk cfg ∅ [] 50 false.

Definition bytesOf (s : string) : list Z :=
  map (fun a => Z.of_N (Ascii.N_of_ascii a)) (String.list_ascii_of_string s).

(** The writes of [writeWAVHeader], in order. *)
Definition wavHeaderWrites (cfg : Config) : list (list Z) :=
  let sampleRate := to_int (SampleRate (Audio cfg)) in
  let channels := Channels (Audio cfg) in
  let bitsPerSample := 16 in
  let byteRate := Z.quot (int64 (int64 (sampleRate * channels) * bitsPerSample)) 8 in
  let blockAlign := Z.quot (int64 (channels * bitsPerSample)) 8 in
  [ bytesOf "RIFF";
    [255; 255; 255; 255];
    bytesOf "WAVE";
    bytesOf "fmt ";
    [16; 0; 0; 0];
    [1; 0];
    [byte channels; 0];
    [byte (Z.land sampleRate 255); byte (Z.land (Z.shiftr sampleRate 8) 255);
     byte (Z.land (Z.shiftr sampleRate 16) 255);
     byte (Z.land (Z.shiftr sampleRate 24) 255)];
    [byte (Z.land byteRate 255); byte (Z.land (Z.shiftr byteRate 8) 255);
     byte (Z.land (Z.shiftr byteRate 16) 255);
     byte (Z.land (Z.shiftr byteRate 24) 255)];
    [byte blockAlign; 0];
    [byte bitsPerSample; 0];
    bytesOf "data";
    [255; 255; 255; 255] ].

Definition writeAll (chunks : list (list Z)) (w : writer) : writer :=
  fold_left (fun w' data => snd (wWrite data w')) chunks w.

Definition writeWAVHeader (hs : t) (w : writer) : writer :=
  writeAll (wavHeaderWrites (config hs)) w.

(** [sendBufferedAudio]: every entry of the backlog is written, then the
    writer is flushed. *)
Definition sendBufferedAudio (hs : t) (w : writer) : writer :=
  wFlush (writeAll (audioBuffer hs) w).

Definition addStreamClient (w : nat) (hs : t) : t :=
  mk (config hs) ({[ w ]} ∪ streamClients hs) (audioBuffer hs)
     (bufferSize hs) (isRunning hs).

Definition removeStreamClient (w : nat) (hs : t) : t :=
  mk (config hs) (streamClients hs ∖ {[ w ]}) (audioBuffer hs)
     (bufferSize hs) (isRunning hs).

(** What [handleWavStream] does to its writer before it registers it. *)
Definition greet (hs : t) (w : writer) : writer :=
  let w := wSetHeader "Content-Type" "audio/wav" w in
  let w := wSetHeader "Cache-Control" "no-cache" w in
  let w := wSetHeader "Connection" "keep-alive" w in
  let w := wSetHeader "Access-Control-Allow-Origin" "*" w in
  let w := wSetHeader "Transfer-Encoding" "chunked" w in
  let w := writeWAVHeader hs w in
  let w := wFlush w in
  sendBufferedAudio hs w.

(** The response headers that [handleWavStream] sets. *)
Definition responseHeaders : list output :=
  [HeaderSet "Content-Type" "audio/wav";
   HeaderSet "Cache-Control" "no-cache";
   HeaderSet "Connection" "keep-alive";
   HeaderSet "Access-Control-Allow-Origin" "*";
   HeaderSet "Transfer-Encoding" "chunked"].

(** [handleWavStream] up to the point where it waits for the request to
    end: the writer [w] of the world [ws] is greeted and registered. *)
Definition handleWavStream (w : nat) (hs : t) (ws : gmap nat writer)
  : t * gmap nat writer :=
  (addStreamClient w hs, alter (greet hs) w ws).

(** [handleWavStream] after the request has ended. *)
Definition handleWavStreamDone (w : nat) (hs : t) : t :=
  removeStreamClient w hs.

Definition bufferAudioData (data : list Z) (hs : t) : t :=
  let audioBuffer1 := audioBuffer hs ++ [data] in
  let n := Z.of_nat (length audioBuffer1) in
  mk (config hs) (streamClients hs)
     (if bufferSize hs <? n
      then drop (Z.to_nat (n - bufferSize hs)) audioBuffer1
      else audioBuffer1)
     (bufferSize hs) (isRunning hs).

Fixpoint broadcastLoop (order : list nat) (data : list Z)
         (ws : gmap nat writer) (failedClients : list nat)
  : gmap nat writer * list nat :=
  match order with
  | [] => (ws, failedClients)
  | client :: rest =>
      match ws !! client with
      | None => broadcastLoop rest data ws (failedClients ++ [client])
      | Some w =>
          let '(ok, w1) := wWrite data w in
          if ok
          then broadcastLoop rest data (<[client := wFlush w1]> ws) failedClients
          else broadcastLoop rest data ws (failedClients ++ [client])
      end
  end.

(** [broadcastHTTPStream]: the writers after the call and the argument
    of the [cleanupStreamClients] goroutine it starts, if any. *)
Definition broadcastHTTPStream (order : list nat) (data : list Z) (hs : t)
           (ws : gmap nat writer) : gmap nat writer * option (list nat) :=
  if (size (streamClients hs) =? 0)%nat then (ws, None)
  else
    let '(ws', failedClients) := broadcastLoop order data ws [] in
    if (0 <? length failedClients)%nat then (ws', Some failedClients)
    else (ws', None).

Definition cleanupStreamClients (failedClients : list nat) (hs : t) : t :=
  fold_left (fun hs' client => removeStreamClient client hs') failedClients hs.

(** [Broadcast]: fan out, then keep the frame for later clients. *)
Definition Broadcast (order : list nat) (data : list Z) (hs : t)
           (ws : gmap nat writer)
  : t * gmap nat writer * option (list nat) :=
  let '(ws', spawned) := broadcastHTTPStream order data hs ws in
  (bufferAudioData data hs, ws', spawned).

Definition GetClientCount (hs : t) : nat := size (streamClients hs).

(** Dispatching the frames of a list, one [Broadcast] each, while no
    client is registered (the order of iteration is then empty). *)
Definition dispatchAll (frames : list (list Z)) (hs : t) : t :=
  fold_left (fun hs' data => fst (fst (Broadcast [] data hs' ∅))) frames hs.

(** A call of [Broadcast] followed by the goroutine it started. *)
Definition BroadcastAndCleanup (order : list nat) (data : list Z) (hs : t)
           (ws : gmap nat writer) : t * gmap nat writer :=
  match Broadcast order data hs ws with
  | (hs', ws', Some failedClients) =>
      (cleanupStreamClients failedClients hs', ws')
  | (hs', ws', None) => (hs', ws')
  end.

(** The writer of the client [c] is there and has not gone. *)
Definition alive (ws : gmap nat writer) (c : nat) : bool :=
  match ws !! c with
  | Some w => negb (gone w)
  | None => false
  end.

(** A series of calls of [Broadcast], each followed by its goroutine;
    every call comes with the order in which it ranges over the map. *)
Fixpoint serve (calls : list (list nat * list Z)) (hs : t)
         (ws : gmap nat writer) : t * gmap nat writer :=
  match calls with
  | [] => (hs, ws)
  | (order, data) :: rest =>
      let '(hs', ws') := BroadcastAndCleanup order data hs ws in
      serve rest hs' ws'
  end.

(** The order of every call is an order of the clients registered when
    the call is made. *)
Fixpoint ordersFit (calls : list (list nat * list Z)) (hs : t)
         (ws : gmap nat writer) : Prop :=
  match calls with
  | [] => True
  | (order, data) :: rest =>
      order ≡ₚ elements (streamClients hs)
      /\ ordersFit rest (BroadcastAndCleanup order data hs ws).1
                   (BroadcastAndCleanup order data hs ws).2
  end.

(** The loop of [Stop] over the clients, in the order [order]. *)
Definition flushAll (order : list nat) (ws : gmap nat writer)
  : gmap nat writer :=
  fold_left (fun ws' client => alter wFlush client ws') order ws.

(** [Stop] (the listener apart): every client is flushed and the set of
    clients is replaced by an empty one. *)
Definition Stop (order : list nat) (hs : t) (ws : gmap nat writer)
  : t * gmap nat writer :=
  (mk (config hs) ∅ (audioBuffer hs) (bufferSize hs) false,
   flushAll order ws).

End HTTPServer.

(** ** Validation of the configuration (config.go) *)

Module Validation.

Record ServerConfig := mkServerConfig {
  Port : string;
  HttpPort : string
}.

(** The errors of [Validate], in the order of its tests. *)
Inductive error :=
| PortEmpty
| HttpPortEmpty
| SampleRateNotPositive
| ChannelsNotPositive
| BufferSizeNegative.

(** [Validate]: [None] when the configuration is accepted. *)
Definition Validate (srv : ServerConfig) (cfg : Config) : option error :=
  if String.eqb (Port srv) "" then Some PortEmpty
  else if String.eqb (HttpPort srv) "" then Some HttpPortEmpty
  else if PrimFloat.leb (SampleRate (Audio cfg)) 0%float
       then Some SampleRateNotPositive
  else if Channels (Audio cfg) <=? 0 then Some ChannelsNotPositive
  else if BufferSize (Audio cfg) <? 0 then Some BufferSizeNegative
  else None.

(** The server part of [setDefaults]. *)
Definition defaultServer : ServerConfig := mkServerConfig "12345" "8080".

End Validation.

(** ** Input devices (device.go) *)

Module DeviceManager.

(** The fields of [portaudio.DeviceInfo] that the selection reads. *)
Record DeviceInfo := mkDevice {
  Name : string;
  MaxInputChannels : Z
}.

Record t := mk { devices : list DeviceInfo }.

Definition NewDeviceManager : t := mk [].

Inductive error := DevicesUnavailable | NoInputDevices | DeviceNotFound.

(** [Initialize]; [allDevices] is what [portaudio.Devices] returns
    ([None]: an error). *)
Definition Initialize (allDevices : option (list DeviceInfo)) (dm : t)
  : t * option error :=
  match allDevices with
  | None => (dm, Some DevicesUnavailable)
  | Some all =>
      let inputDevices := List.filter (fun d => 0 <? MaxInputChannels d) all in
      if (length inputDevices =? 0)%nat then (dm, Some NoInputDevices)
      else (mk inputDevices, None)
  end.

Definition GetInputDevices (dm : t) : option (list DeviceInfo) :=
  if (length (devices dm) =? 0)%nat then None else Some (devices dm).

(** [strings.HasPrefix] and [strings.Contains], on the bytes of the
    strings. *)
Fixpoint HasPrefix (s prefix : string) : bool :=
  match prefix, s with
  | EmptyString, _ => true
  | String a prefix', String b s' => Ascii.eqb a b && HasPrefix s' prefix'
  | String _ _, EmptyString => false
  end.

Fixpoint Contains (s substr : string) : bool :=
  HasPrefix s substr
  || match s with
     | EmptyString => false
     | String _ s' => Contains s' substr
     end.

Definition blackHoleNames : list string :=
  ["BlackHole 2ch"; "BlackHole 16ch"; "BlackHole"].

(** [AutoDetectBlackHole]: the first device one of whose lower-cased
    names contains a lower-cased name of the list; [ToLower] stands for
    [strings.ToLower]. *)
Definition AutoDetectBlackHole (ToLower : string -> string) (dm : t)
  : option DeviceInfo :=
  List.find
    (fun device =>
       existsb (fun name => Contains (ToLower (Name device)) (ToLower name))
               blackHoleNames)
    (devices dm).

(** [GetDeviceByName]; [EqualFold] stands for [strings.EqualFold]. *)
Definition GetDeviceByName (EqualFold : string -> string -> bool)
           (name : string) (dm : t) : DeviceInfo + error :=
  match List.find (fun device => EqualFold (Name device) name) (devices dm) with
  | Some device => inl device
  | None => inr DeviceNotFound
  end.

(** Lower case for the letters of ASCII; every other byte is kept. *)
Definition asciiLower (a : ascii) : ascii :=
  let n := Ascii.nat_of_ascii a in
  if ((65 <=? n) && (n <=? 90))%nat then Ascii.ascii_of_nat (n + 32) else a.

Fixpoint lowerASCII (s : string) : string :=
  match s with
  | EmptyString => EmptyString
  | String a s' => String (asciiLower a) (lowerASCII s')
  end.

End DeviceManager.

(** ** Reading the raw stream *)

Module Wire.

(** What a consumer does with two bytes of the stream: the low byte
    first, the 16 bits read as a signed sample. *)
Definition sampleOf (lo hi : Z) : Z := GoInt.int16 (lo + 256 * hi).

Fixpoint decode (bytes : list Z) : list Z :=
  match bytes with
  | lo :: hi :: rest => sampleOf lo hi :: decode rest
  | _ => []
  end.

End Wire.

(** ** The relay (relay.go) *)

Module AudioRelay.

Record t := mk {
  tcpEnabled : bool;                    (* config.Protocols.TCP.Enabled *)
  httpEnabled : bool;                   (* config.Protocols.HTTP.Enabled *)
  tcpServer : option TCPServer.t;       (* nil until it is started *)
  httpServer : option HTTPServer.t
}.

(** The connections of the raw-stream transport and the response
    writers of the buffered one. *)
Record world := mkWorld {
  net : TCPServer.world;
  writers : gmap nat HTTPServer.writer
}.

(** The orders in which the two broadcasts of one call range over their
    clients. *)
Record orders := mkOrders {
  tcpOrder : list nat;
  httpOrder : list nat
}.

(** [startProtocolServers], the listeners apart: a server is created
    for every transport that is enabled. *)
Definition startProtocolServers (cfg : Config) (ar : t) : t :=
  let tcp := if tcpEnabled ar then Some TCPServer.NewTCPServer
             else tcpServer ar in
  let http := if httpEnabled ar then Some (HTTPServer.NewHTTPServer cfg)
              else httpServer ar in
  mk (tcpEnabled ar) (httpEnabled ar) tcp http.

(** [broadcastAudioData], each broadcast followed by the goroutine it
    started. *)
Definition broadcastAudioData (o : orders) (audioData : list Z) (ar : t)
           (w : world) : t * world :=
  let '(tcp1, net1) :=
    match tcpServer ar with
    | Some ts =>
        if tcpEnabled ar
        then let '(ts', n') :=
               TCPServer.BroadcastAndCleanup (tcpOrder o) audioData ts (net w) in
             (Some ts', n')
        else (Some ts, net w)
    | None => (None, net w)
    end in
  let '(http1, writers1) :=
    match httpServer ar with
    | Some hs =>
        if httpEnabled ar
        then let '(hs', ws') :=
               HTTPServer.BroadcastAndCleanup (httpOrder o) audioData hs
                                              (writers w) in
             (Some hs', ws')
        else (Some hs, writers w)
    | None => (None, writers w)
    end in
  (mk (tcpEnabled ar) (httpEnabled ar) tcp1 http1, mkWorld net1 writers1).

(** The callback of the capture loop, called once for every frame of
    [frames]; [schedule] gives the orders of iteration of the calls. *)
Fixpoint relayAll (schedule : list orders) (frames : list (list Z)) (ar : t)
         (w : world) : t * world :=
  match schedule, frames with
  | o :: schedule', audioData :: frames' =>
      let '(ar', w') := broadcastAudioData o audioData ar w in
      relayAll schedule' frames' ar' w'
  | _, _ => (ar, w)
  end.

(** The calls that the raw-stream transport sees. *)
Definition tcpCalls (schedule : list orders) (frames : list (list Z))
  : list (list nat * list Z) :=
  combine (map tcpOrder schedule) frames.

(** The calls that the buffered transport sees. *)
Definition httpCalls (schedule : list orders) (frames : list (list Z))
  : list (list nat * list Z) :=
  combine (map httpOrder schedule) frames.

End AudioRelay.

(** ** The processor of the default configuration, in integers *)

Module Reference.

(** Unit gain up to 28000; beyond it three tenths of the excess, the
    fraction dropped, on either side of zero. *)
Definition defaultSoftClip (s : Z) : Z :=
  if 28000 <? s then 28000 + (3 * (s - 28000)) / 10
  else if s <? -28000 then - (28000 + (3 * (- s - 28000)) / 10)
  else s.

(** The samples [lo], [lo + 1], ..., [lo + n - 1] all satisfy [p]. *)
Definition allFrom (lo : Z) (n : nat) (p : Z -> bool) : bool :=
  forallb (fun i => p (lo + Z.of_nat i)) (seq 0 n).

End Reference.

(** ** The properties, as the design document words them

  These definitions follow the words of the design document, not the
  code; the theorems below compare them with the code. *)

Module Design.
Import GoInt GoFloat.

(** [P] is a power of two. *)
Definition is_pow2 (P : Z) : Prop := exists k, 0 <= k /\ P = 2 ^ k.

(** [P] is the smallest power of two that is at least [x]. *)
Definition smallest_pow2_ge (x P : Z) : Prop :=
  is_pow2 P /\ x <= P /\ forall Q, is_pow2 Q -> x <= Q -> P <= Q.

(** Clamping into the inclusive range from 256 to 2048. *)
Definition clamp (P : Z) : Z := Z.max 256 (Z.min 2048 P).

(** The smallest power of two (as an exponent count from [2^k], trying
    [fuel] exponents) whose float is at least the float [x]. *)
Fixpoint pow2_at_least (fuel : nat) (k : Z) (x : float) : option Z :=
  match fuel with
  | O => None
  | S fuel' =>
      if PrimFloat.leb x (of_int (2 ^ k)) then Some (2 ^ k)
      else pow2_at_least fuel' (k + 1) x
  end.

(** The automatic buffer size in the words of the design: the smallest
    power of two that is at least [sample_rate x 0.02], clamped, times
    the channel count. *)
Definition autoBufferSize (cfg : Config) : option Z :=
  match pow2_at_least 64 0 (PrimFloat.mul (SampleRate (Audio cfg))
                                          AudioCapture.targetLatency) with
  | Some P => Some (clamp P * Channels (Audio cfg))
  | None => None
  end.

(** The sign of a float, as a factor: -1, 0 or 1. *)
Definition sign (out : float) : float :=
  if PrimFloat.ltb out 0%float then (-1)%float
  else if PrimFloat.ltb 0%float out then 1%float
  else 0%float.

(** The soft clipper in the words of the design:
    [sign(out) x (clip_threshold + (|out| - clip_threshold) x 0.3)] when
    [|out| > clip_threshold]. *)
Definition softClip (clip_threshold out : float) : float :=
  if PrimFloat.ltb clip_threshold (PrimFloat.abs out) then
    PrimFloat.mul (sign out)
      (PrimFloat.add clip_threshold
         (PrimFloat.mul (PrimFloat.sub (PrimFloat.abs out) clip_threshold)
                        AudioCapture.softKnee))
  else out.

(** A frame is silent when every sample is at most [T] in absolute value. *)
Definition allWithin (T : Z) (frame : list Z) : Prop :=
  Forall (fun s => Z.abs s <= T) frame.

(** Little-endian fields of a WAV header. *)
Definition le16 (v : Z) : list Z := [v mod 256; (v / 256) mod 256].
Definition le32 (v : Z) : list Z :=
  [v mod 256; (v / 256) mod 256; (v / 65536) mod 256; (v / 16777216) mod 256].

(** The 44 bytes of a streaming WAV header for 16-bit PCM. *)
Definition wavHeader (channels sampleRate : Z) : list Z :=
  HTTPServer.bytesOf "RIFF" ++ le32 (2 ^ 32 - 1) ++ HTTPServer.bytesOf "WAVE"
  ++ HTTPServer.bytesOf "fmt " ++ le32 16 ++ le16 1 ++ le16 channels
  ++ le32 sampleRate ++ le32 (sampleRate * channels * 2)
  ++ le16 (channels * 2) ++ le16 16
  ++ HTTPServer.bytesOf "data" ++ le32 (2 ^ 32 - 1).

(** A replay of the backlog that flushes after each entry. *)
Definition replayFlushingEach (backlog : list (list Z))
  : list HTTPServer.output :=
  flat_map (fun data => [HTTPServer.Wrote data; HTTPServer.Flushed]) backlog.

End Design.

(** ** Inputs used as examples *)

Module Examples.
Import AudioCapture.

Definition withAudio (rate : float) (channels size : Z) : Config :=
  mkConfig (mkAudioConfig rate channels size) (Processing defaultConfig).

Definition withProcessing (detect : bool) (threshold : Z) (volume : float)
           (clip : Z) : Config :=
  mkConfig (Audio defaultConfig) (mkProcessingConfig detect threshold volume clip).

(** A capture that has been started with a callback installed. *)
Definition running (cfg : Config) : AudioCapture.t :=
  Start (SetDataCallback (NewAudioCapture cfg)).

Definition silentFrame : list Z := [0; 0; 0; 0].
Definition loudFrame : list Z := [0; 1200; -3; 0].

Definition readOk (frame : list Z) : cycle := mkCycle (Some frame) false.
Definition readFails : cycle := mkCycle None false.

End Examples.

(** * Properties *)

(** ** Wrap-around arithmetic *)

(** Closes a goal that says a value lies in the range of its integer
    type, by arithmetic on the bounds. *)
Ltac in_range :=
  unfold GoInt.is_int64, GoInt.is_int16, GoInt.min_int64, GoInt.max_int64,
    GoInt.min_int16, GoInt.max_int16 in *;
  lia.

Section WrapFacts.
Import GoInt.

Lemma wrap_small (w z : Z) :
  0 < w -> - 2 ^ (w - 1) <= z < 2 ^ (w - 1) -> wrap w z = z.
Proof.
  intros Hw Hz. unfold wrap.
  assert (Hp : 2 ^ w = 2 * 2 ^ (w - 1)).
  { replace w with (Z.succ (w - 1)) at 1 by lia. apply Z.pow_succ_r. lia. }
  rewrite Z.mod_small; lia.
Qed.

Lemma wrap_range (w z : Z) :
  0 < w -> - 2 ^ (w - 1) <= wrap w z < 2 ^ (w - 1).
Proof.
  intros Hw. unfold wrap.
  assert (Hp : 2 ^ w = 2 * 2 ^ (w - 1)).
  { replace w with (Z.succ (w - 1)) at 1 by lia. apply Z.pow_succ_r. lia. }
  assert (0 < 2 ^ (w - 1)) by (apply Z.pow_pos_nonneg; lia).
  pose proof (Z.mod_pos_bound (z + 2 ^ (w - 1)) (2 ^ w)). lia.
Qed.

Lemma wrap_add_l (w a b : Z) : wrap w (wrap w a + b) = wrap w (a + b).
Proof.
  unfold wrap. f_equal.
  replace ((a + 2 ^ (w - 1)) mod 2 ^ w - 2 ^ (w - 1) + b + 2 ^ (w - 1))
    with ((a + 2 ^ (w - 1)) mod 2 ^ w + b) by lia.
  rewrite Zplus_mod_idemp_l. f_equal. lia.
Qed.

Lemma int64_small (z : Z) : is_int64 z -> int64 z = z.
Proof.
  unfold is_int64, min_int64, max_int64, int64. intros H.
  apply wrap_small; simpl in *; lia.
Qed.

Lemma int16_small (z : Z) : is_int16 z -> int16 z = z.
Proof.
  unfold is_int16, min_int16, max_int16, int16. intros H.
  apply wrap_small; simpl in *; lia.
Qed.

Lemma int16_range (z : Z) : is_int16 (int16 z).
Proof.
  unfold is_int16, min_int16, max_int16, int16.
  pose proof (wrap_range 16 z ltac:(lia)). simpl in *. lia.
Qed.

Lemma int64_add_l (a b : Z) : int64 (int64 a + b) = int64 (a + b).
Proof. apply wrap_add_l. Qed.

End WrapFacts.

(** ** Binary64 arithmetic: the symmetry of rounding under negation *)

Section FloatSymmetry.
Import GoInt GoFloat.

Lemma round_aux_opp (s : bool) (m e : Z) (l : location) :
  binary_round_aux prec emax (negb s) m e l
  = SFopp (binary_round_aux prec emax s m e l).
Proof.
  unfold binary_round_aux.
  destruct (shr_fexp prec emax m e l) as [mrs e'].
  destruct (shr_fexp prec emax _ e' loc_Exact) as [mrs' e''].
  destruct (shr_m mrs'); [reflexivity | | reflexivity].
  destruct (Z.leb e'' (Z.sub emax prec)); reflexivity.
Qed.

Lemma round_aux_unsigned (m e : Z) (l : location) :
  unsigned (binary_round_aux prec emax false m e l) = true.
Proof.
  unfold binary_round_aux.
  destruct (shr_fexp prec emax m e l) as [mrs e'].
  destruct (shr_fexp prec emax _ e' loc_Exact) as [mrs' e''].
  destruct (shr_m mrs'); [reflexivity | | reflexivity].
  destruct (Z.leb e'' (Z.sub emax prec)); reflexivity.
Qed.

Lemma round_opp (s : bool) (m : positive) (e : Z) :
  binary_round prec emax (negb s) m e = SFopp (binary_round prec emax s m e).
Proof.
  unfold binary_round.
  destruct (shl_align m e _) as [mz ez]. apply round_aux_opp.
Qed.

Lemma round_unsigned (m : positive) (e : Z) :
  unsigned (binary_round prec emax false m e) = true.
Proof.
  unfold binary_round.
  destruct (shl_align m e _) as [mz ez]. apply round_aux_unsigned.
Qed.

Lemma normalize_unsigned (z e : Z) :
  0 <= z -> unsigned (binary_normalize prec emax z e false) = true.
Proof.
  intros Hz. destruct z as [| p | p]; [reflexivity | | lia].
  apply round_unsigned.
Qed.

Lemma mul_opp_l (x y : spec_float) :
  SF64mul (SFopp x) y = SFopp (SF64mul x y).
Proof.
  unfold SF64mul.
  destruct x as [sx | sx | | sx mx ex], y as [sy | sy | | sy my ey];
    cbn [SFmul SFopp]; try reflexivity;
    try (destruct sx, sy; reflexivity).
  replace (xorb (negb sx) sy) with (negb (xorb sx sy))
    by (destruct sx, sy; reflexivity).
  apply round_aux_opp.
Qed.

Lemma mul_unsigned (x y : spec_float) :
  unsigned x = true -> unsigned y = true -> unsigned (SF64mul x y) = true.
Proof.
  unfold SF64mul.
  destruct x as [sx | sx | | sx mx ex], y as [sy | sy | | sy my ey];
    cbn [SFmul unsigned]; intros Hx Hy; try reflexivity;
    try (destruct sx, sy; try discriminate; reflexivity).
  destruct sx, sy; try discriminate. apply round_aux_unsigned.
Qed.

Lemma add_opp (a b : spec_float) :
  unsigned a = true -> unsigned b = true ->
  SF64add (SFopp a) (SFopp b) = SFopp (SF64add a b).
Proof.
  unfold SF64add.
  destruct a as [sa | sa | | sa ma ea], b as [sb | sb | | sb mb eb];
    cbn [unsigned]; intros Ha Hb;
    try (destruct sa; [discriminate |]); try (destruct sb; [discriminate |]);
    cbn [SFadd SFopp negb]; try reflexivity.
  cbn [cond_Zopp Z.opp Z.add]. cbn [binary_normalize].
  apply (round_opp false).
Qed.

(** *** Comparisons *)

(** Comparing with the magnitude of a float below zero is comparing its
    mirror image. *)
Lemma ltb_abs_negative (c x : spec_float) :
  negative x = true -> SFltb c (SFabs x) = SFltb x (SFopp c).
Proof.
  unfold SFltb.
  destruct x as [sx | sx | | sx mx ex]; cbn [negative]; intros Hx;
    try discriminate; subst sx;
    destruct c as [sc | sc | | sc mc ec]; cbn [SFabs SFopp SFcompare];
    try reflexivity; try (destruct sc; reflexivity).
  destruct sc; cbn [negb]; [reflexivity |].
  rewrite (Z.compare_antisym ec ex), (Pos.compare_cont_antisym mx mc Eq).
  destruct (Z.compare ec ex); cbn [CompOpp]; reflexivity.
Qed.

(** An unsigned threshold lies below floats above zero only. *)
Lemma ltb_unsigned_positive (c x : spec_float) :
  unsigned c = true -> SFltb c x = true ->
  SFabs x = x
  /\ SFltb x (S754_zero false) = false
  /\ SFltb (S754_zero false) x = true.
Proof.
  unfold SFltb.
  destruct c as [sc | sc | | sc mc ec]; cbn [unsigned]; intros Hc;
    try (destruct sc; [discriminate |]);
    destruct x as [sx | sx | | sx mx ex]; cbn [SFcompare SFabs];
    try discriminate;
    try (destruct sx; try discriminate; repeat split; reflexivity).
Qed.

(** Between the mirrored thresholds nothing is above the threshold in
    magnitude. *)
Lemma ltb_abs_inside (c x : spec_float) :
  SFltb c x = false -> SFltb x (SFopp c) = false -> SFltb c (SFabs x) = false.
Proof.
  intros Hpos Hneg.
  destruct (negative x) eqn:Hx.
  - rewrite ltb_abs_negative by exact Hx. exact Hneg.
  - destruct x as [sx | sx | | sx mx ex]; cbn [negative] in Hx; try subst sx;
      cbn [SFabs]; exact Hpos.
Qed.

Lemma ltb_negative (c x : spec_float) :
  unsigned c = true -> SFltb x (SFopp c) = true ->
  negative x = true /\ SFltb x (S754_zero false) = true.
Proof.
  unfold SFltb.
  destruct c as [sc | sc | | sc mc ec]; cbn [unsigned]; intros Hc;
    try (destruct sc; [discriminate |]);
    destruct x as [sx | sx | | sx mx ex]; cbn [SFcompare SFopp negb negative];
    try discriminate; try (destruct sx; try discriminate; split; reflexivity).
Qed.

(** *** Mantissas and exponents of valid floats *)

Lemma digits2_bounds (m : positive) :
  2 ^ (Zpos (digits2_pos m) - 1) <= Zpos m < 2 ^ Zpos (digits2_pos m).
Proof.
  induction m as [p IH | p IH |]; cbn [digits2_pos].
  - rewrite Pos2Z.inj_succ.
    replace (Z.succ (Zpos (digits2_pos p)) - 1)
      with (Z.succ (Zpos (digits2_pos p) - 1)) by lia.
    rewrite !Z.pow_succ_r by lia. lia.
  - rewrite Pos2Z.inj_succ.
    replace (Z.succ (Zpos (digits2_pos p)) - 1)
      with (Z.succ (Zpos (digits2_pos p) - 1)) by lia.
    rewrite !Z.pow_succ_r by lia. lia.
  - cbn. lia.
Qed.

Lemma iter_xO_value (m d : positive) :
  Zpos (Pos.iter xO m d) = Zpos m * 2 ^ Zpos d.
Proof.
  induction d as [| d IH] using Pos.peano_ind.
  - cbn. lia.
  - rewrite Pos.iter_succ, Pos2Z.inj_succ, Z.pow_succ_r by lia.
    rewrite Pos2Z.inj_xO, IH. lia.
Qed.

(** A valid float has at most 53 digits, and exactly 53 unless its
    exponent is the smallest one. *)
Lemma bounded_digits (m : positive) (e : Z) :
  bounded prec emax m e = true ->
  -1074 <= e
  /\ Zpos (digits2_pos m) <= 53
  /\ (-1074 < e -> Zpos (digits2_pos m) = 53).
Proof.
  unfold bounded, canonical_mantissa, fexp, SpecFloat.emin.
  intros H. apply andb_prop in H. destruct H as [H _].
  apply Z.eqb_eq in H.
  change (Z.sub (Z.sub (Zpos 3) emax) prec) with (-1074) in H.
  change prec with 53 in H. lia.
Qed.

(** The order of two valid floats below zero, read off their mantissas
    once they are aligned to the smaller exponent. *)
Lemma aligned_order (m1 m2 : positive) (e1 e2 : Z) :
  bounded prec emax m1 e1 = true -> bounded prec emax m2 e2 = true ->
  SFltb (S754_finite true m1 e1) (S754_finite true m2 e2) = true ->
  Zpos (shl_align m2 e2 (Z.min e1 e2)).1 < Zpos (shl_align m1 e1 (Z.min e1 e2)).1.
Proof.
  intros Hb1 Hb2. unfold SFltb. cbn [SFcompare].
  destruct (bounded_digits m1 e1 Hb1) as (Hmin1 & Hd1 & Hn1).
  destruct (bounded_digits m2 e2 Hb2) as (Hmin2 & Hd2 & Hn2).
  pose proof (digits2_bounds m1) as Hm1. pose proof (digits2_bounds m2) as Hm2.
  destruct (Z.compare_spec e1 e2) as [Heq | Hlt | Hgt]; try discriminate.
  - subst e2. rewrite Z.min_id. unfold shl_align. rewrite Z.sub_diag. cbn [fst].
    rewrite Pos.compare_cont_spec. cbn [Pos.switch_Eq].
    destruct (Pos.compare_spec m1 m2); cbn [CompOpp]; try discriminate.
    intros _. lia.
  - intros _. rewrite Z.min_r by lia. unfold shl_align.
    rewrite Z.sub_diag. cbn [fst].
    destruct (e2 - e1) as [| d | d] eqn:Hd; try lia. cbn [fst].
    rewrite iter_xO_value.
    rewrite Hn1 in Hm1 by lia.
    assert (2 ^ Zpos (digits2_pos m2) <= 2 ^ 53) by (apply Z.pow_le_mono_r; lia).
    assert (2 ^ 1 <= 2 ^ Zpos d) by (apply Z.pow_le_mono_r; lia).
    change (2 ^ (53 - 1)) with 4503599627370496 in Hm1.
    change (2 ^ 53) with 9007199254740992 in *. change (2 ^ 1) with 2 in *.
    nia.
Qed.

(** *** Multiplying by one and by minus one *)

Lemma digits_iter_xO (m d : positive) :
  digits2_pos (Pos.iter xO m d) = (digits2_pos m + d)%positive.
Proof.
  induction d as [| d IH] using Pos.peano_ind.
  - cbn. lia.
  - rewrite Pos.iter_succ. cbn [digits2_pos]. rewrite IH. lia.
Qed.

Lemma canonical_fexp (m : positive) (e : Z) :
  bounded prec emax m e = true ->
  fexp prec emax (Zpos (digits2_pos m) + e) = e /\ (e <=? emax - prec) = true.
Proof.
  unfold bounded, canonical_mantissa. intros H.
  apply andb_prop in H. destruct H as [H1 H2].
  apply Z.eqb_eq in H1. split; assumption.
Qed.

(** The product of 1 (mantissa [2 ^ 52], exponent -52) and a valid float
    is that float: the 52 bits that rounding shifts out are all zero. *)
Lemma mul_one_l (x : spec_float) :
  valid_binary x = true ->
  SF64mul (S754_finite false 4503599627370496 (-52)) x = x.
Proof.
  destruct x as [s | s | | s m e]; try reflexivity.
  cbn [SpecFloat.valid_binary]. intros Hb.
  destruct (canonical_fexp m e Hb) as [Hfexp Hle].
  unfold SF64mul. cbn [SFmul xorb].
  change (Pos.mul 4503599627370496 m) with (Pos.iter xO m 52).
  unfold binary_round_aux.
  assert (H1 : shr_fexp prec emax (Zpos (Pos.iter xO m 52)) (Z.add (-52) e)
                        loc_Exact
               = (Build_shr_record (Zpos m) false false, e)).
  { unfold shr_fexp. cbn [Zdigits2]. rewrite digits_iter_xO.
    replace (Z.add (Zpos (digits2_pos m + 52)) (Z.add (-52) e))
      with (Zpos (digits2_pos m) + e) by lia.
    rewrite Hfexp.
    replace (Z.sub e (Z.add (-52) e)) with 52 by lia.
    unfold shr. replace (Z.add (Z.add (-52) e) 52) with e by lia.
    reflexivity. }
  rewrite H1. cbn [shr_m loc_of_shr_record round_nearest_even].
  assert (H2 : shr_fexp prec emax (Zpos m) e loc_Exact
               = (Build_shr_record (Zpos m) false false, e)).
  { unfold shr_fexp. cbn [Zdigits2]. rewrite Hfexp, Z.sub_diag. reflexivity. }
  rewrite H2. cbn [shr_m].
  change (Z.leb e (Z.sub emax prec)) with (e <=? emax - prec).
  rewrite Hle. reflexivity.
Qed.

Lemma float_mul_one (v : float) : PrimFloat.mul 1%float v = v.
Proof.
  apply Prim2SF_inj. rewrite FloatAxioms.mul_spec.
  change (Prim2SF 1%float) with (S754_finite false 4503599627370496 (-52)).
  apply mul_one_l, Prim2SF_valid.
Qed.

Lemma float_mul_minus_one (v : float) :
  PrimFloat.mul (-1)%float v = PrimFloat.opp v.
Proof.
  apply Prim2SF_inj. rewrite FloatAxioms.mul_spec, opp_spec.
  change (Prim2SF (-1)%float)
    with (SFopp (S754_finite false 4503599627370496 (-52))).
  rewrite mul_opp_l. f_equal. apply mul_one_l, Prim2SF_valid.
Qed.

(** *** Integers as floats *)

(** The float of a natural number below [2 ^ 53] is exact. *)
Lemma normalize_exact (p : positive) :
  Zpos p < 2 ^ 53 ->
  trunc_SF (binary_normalize prec emax (Zpos p) 0 false) = Some (Zpos p).
Proof.
  intros Hp. cbn [binary_normalize]. unfold binary_round.
  pose proof (digits2_bounds p) as Hd.
  assert (Hd53 : Zpos (digits2_pos p) <= 53).
  { destruct (Z.le_gt_cases (Zpos (digits2_pos p)) 53) as [? | Hbig]; [assumption |].
    assert (2 ^ 53 <= 2 ^ (Zpos (digits2_pos p) - 1))
      by (apply Z.pow_le_mono_r; lia).
    lia. }
  assert (Hfexp : forall d, 1 <= d <= 53 -> fexp prec emax d = d - 53).
  { intros d Hd'. unfold fexp, SpecFloat.emin.
    change (Z.sub (Z.sub (Zpos 3) emax) prec) with (-1074).
    change prec with 53. lia. }
  rewrite Z.add_0_r, Hfexp by lia.
  assert (Haligned : exists mz ez,
             shl_align p 0 (Zpos (digits2_pos p) - 53) = (mz, ez)
             /\ Zpos (digits2_pos mz) + ez = Zpos (digits2_pos p)
             /\ ez = Zpos (digits2_pos p) - 53
             /\ Zpos mz = Zpos p * 2 ^ (- ez)).
  { unfold shl_align. rewrite Z.sub_0_r.
    destruct (Zpos (digits2_pos p) - 53) as [| q | q] eqn:Hq; try lia.
    - exists p, 0. repeat split; try lia; cbn; lia.
    - exists (Pos.iter xO p q), (Zneg q). repeat split; try lia.
      + rewrite digits_iter_xO. lia.
      + rewrite iter_xO_value. reflexivity. }
  destruct Haligned as (mz & ez & -> & Hdig & Hez & Hmz).
  unfold binary_round_aux.
  assert (Hshr : shr_fexp prec emax (Zpos mz) ez loc_Exact
                 = (Build_shr_record (Zpos mz) false false, ez)).
  { unfold shr_fexp. cbn [Zdigits2]. rewrite Hdig, Hfexp by lia.
    rewrite <- Hez, Z.sub_diag. reflexivity. }
  rewrite Hshr. cbn [shr_m loc_of_shr_record round_nearest_even].
  rewrite Hshr. cbn [shr_m].
  assert (Hle : Z.leb ez (Z.sub emax prec) = true)
    by (apply Z.leb_le; change (Z.sub emax prec) with 971; lia).
  rewrite Hle. cbn [trunc_SF cond_Zopp].
  destruct (Z.leb_spec 0 ez) as [Hpos | Hneg].
  - assert (Hz : ez = 0) by lia. rewrite Hz in Hmz |- *.
    rewrite Z.shiftl_0_r. f_equal. cbn in Hmz. lia.
  - rewrite Z.shiftr_div_pow2 by lia. rewrite Hmz.
    rewrite Z.div_mul; [reflexivity |].
    apply Z.pow_nonzero; lia.
Qed.

Lemma trunc_of_int (z : Z) : - 2 ^ 53 < z < 2 ^ 53 -> trunc (of_int z) = Some z.
Proof.
  intros Hz. unfold trunc, of_int.
  assert (Hwb : forall n, 0 <= n < 2 ^ 53 -> Uint63.to_Z (Uint63.of_Z n) = n).
  { intros n Hn. rewrite Uint63.of_Z_spec. apply Z.mod_small.
    change Uint63.wB with (2 ^ 63). lia. }
  destruct (Z.ltb_spec z 0) as [Hneg | Hpos].
  - rewrite opp_spec, of_uint63_spec, Hwb by lia.
    destruct z as [| p | p]; try lia. change (- Z.neg p) with (Z.pos p).
    pose proof (normalize_exact p ltac:(lia)) as Hex.
    destruct (binary_normalize prec emax (Zpos p) 0 false)
      as [s | s | | s m e] eqn:Hn; cbn [trunc_SF SFopp] in *; try discriminate.
    pose proof (round_unsigned p 0) as Hu. cbn [binary_normalize] in Hn.
    rewrite Hn in Hu. cbn in Hu. destruct s; [discriminate |].
    cbn [negb cond_Zopp] in *. injection Hex as Hex. rewrite Hex. reflexivity.
  - rewrite of_uint63_spec, Hwb by lia.
    destruct z as [| p | p]; try lia; [reflexivity |].
    apply normalize_exact. lia.
Qed.

Lemma to_int_of_int (z : Z) : - 2 ^ 53 < z < 2 ^ 53 -> to_int (of_int z) = z.
Proof.
  intros Hz. unfold to_int. rewrite trunc_of_int by exact Hz.
  unfold min_int64, max_int64.
  destruct (Z.leb_spec (- 2 ^ 63) z); [| lia].
  destruct (Z.leb_spec z (2 ^ 63 - 1)); [| lia]. reflexivity.
Qed.
(** *** The two sides of the soft clipper *)

(** Below the mirrored threshold, the excess the code computes is the
    mirror image of the overshoot of the magnitude. *)
Lemma excess_mirrored (x c : spec_float) :
  valid_binary x = true -> valid_binary c = true ->
  unsigned c = true -> SFltb x (SFopp c) = true ->
  SF64add x c = SFopp (SF64sub (SFabs x) c)
  /\ unsigned (SF64sub (SFabs x) c) = true.
Proof.
  intros Hvx Hvc Hc Hlt.
  destruct c as [sc | sc | | sc mc ec]; cbn [unsigned] in Hc;
    try (destruct sc; [discriminate |]);
    destruct x as [sx | sx | | sx mx ex];
    try (destruct sx); try discriminate Hlt;
    try (split; reflexivity).
  pose proof (aligned_order mx mc ex ec Hvx Hvc Hlt) as Horder.
  unfold SF64add, SF64sub. cbn [SFabs SFadd SFsub cond_Zopp].
  set (a := (shl_align mx ex (Z.min ex ec)).1) in *.
  set (b := (shl_align mc ec (Z.min ex ec)).1) in *.
  replace (Z.add (Z.opp (Zpos a)) (Zpos b)) with (- (Zpos a - Zpos b)) by lia.
  change (Z.sub (Zpos a) (Zpos b)) with (Zpos a - Zpos b).
  destruct (Zpos a - Zpos b) as [| p | p] eqn:Hdiff; try lia.
  cbn [Z.opp binary_normalize]. split.
  - apply (round_opp false).
  - apply round_unsigned.
Qed.

Lemma soft_clip_mirrored (x c k : spec_float) :
  valid_binary x = true -> valid_binary c = true ->
  unsigned c = true -> unsigned k = true -> SFltb x (SFopp c) = true ->
  SF64add (SFopp c) (SF64mul (SF64add x c) k)
  = SFopp (SF64add c (SF64mul (SF64sub (SFabs x) c) k)).
Proof.
  intros Hvx Hvc Hc Hk Hlt.
  destruct (excess_mirrored x c Hvx Hvc Hc Hlt) as [-> Hu].
  rewrite mul_opp_l. apply add_opp; [exact Hc |].
  apply mul_unsigned; assumption.
Qed.

Lemma of_int_unsigned (z : Z) : 0 <= z -> unsigned (Prim2SF (of_int z)) = true.
Proof.
  intros Hz. unfold of_int. destruct (Z.ltb_spec z 0); [lia |].
  rewrite of_uint63_spec. apply normalize_unsigned.
  apply Uint63.to_Z_bounded.
Qed.

(** [int16(f)] keeps the integer part of a float whose integer part fits
    sixteen bits. *)
Lemma to_int16_trunc (f : float) (z : Z) :
  trunc f = Some z -> GoInt.is_int16 z -> to_int16 f = z.
Proof.
  intros Htr Hz. unfold to_int16, to_int32. rewrite Htr.
  unfold GoInt.is_int16, GoInt.min_int16, GoInt.max_int16 in Hz.
  unfold GoInt.min_int32, GoInt.max_int32.
  destruct (Z.leb_spec (- 2 ^ 31) z); [| lia].
  destruct (Z.leb_spec z (2 ^ 31 - 1)); [| lia]. cbn [andb].
  apply int16_small. in_range.
Qed.

End FloatSymmetry.

(** ** The signal processor *)

Section SignalProcessor.
Import GoInt GoFloat AudioCapture.

(** The float the code stores for a sample is the soft clip of the
    design, for a clip threshold that is not negative. *)
Lemma processValue_softClip (cfg : Config) (s : Z) :
  0 <= ClipThreshold (Processing cfg) ->
  processValue cfg s
  = Design.softClip (of_int (ClipThreshold (Processing cfg)))
      (PrimFloat.mul (of_int s) (VolumeMultiplier (Processing cfg))).
Proof.
  intros Hclip. unfold processValue, Design.softClip.
  set (c := of_int (ClipThreshold (Processing cfg))).
  set (x := PrimFloat.mul (of_int s) (VolumeMultiplier (Processing cfg))).
  cbv zeta.
  assert (Hc : unsigned (Prim2SF c) = true) by (apply of_int_unsigned, Hclip).
  assert (Hk : unsigned (Prim2SF softKnee) = true) by reflexivity.
  unfold Design.sign.
  rewrite !FloatAxioms.ltb_spec, opp_spec, abs_spec.
  change (Prim2SF 0%float) with (S754_zero false).
  destruct (SFltb (Prim2SF c) (Prim2SF x)) eqn:Habove.
  - destruct (ltb_unsigned_positive _ _ Hc Habove) as (Habs & Hzero & Hpos).
    rewrite Habs, Habove, Hzero, Hpos, float_mul_one.
    assert (Hx : PrimFloat.abs x = x)
      by (apply Prim2SF_inj; rewrite abs_spec; exact Habs).
    rewrite Hx. reflexivity.
  - destruct (SFltb (Prim2SF x) (SFopp (Prim2SF c))) eqn:Hbelow.
    + destruct (ltb_negative _ _ Hc Hbelow) as [Hneg Hzero].
      rewrite (ltb_abs_negative _ _ Hneg), Hbelow, Hzero, float_mul_minus_one.
      apply Prim2SF_inj.
      repeat (rewrite FloatAxioms.add_spec || rewrite opp_spec
              || rewrite FloatAxioms.mul_spec || rewrite FloatAxioms.sub_spec
              || rewrite abs_spec).
      apply soft_clip_mirrored; try assumption; apply Prim2SF_valid.
    + rewrite (ltb_abs_inside _ _ Habove Hbelow). reflexivity.
Qed.

(** C6, for a clip threshold that is not negative: every sample is
    multiplied by the volume and, when the product exceeds the threshold
    in magnitude, replaced by the threshold plus three tenths of the
    overshoot, with the sign of the product; the stored sample is the
    conversion of that float to [int16], which is its integer part when
    this fits sixteen bits. *)
Theorem C6_soft_clip_amended (cfg : Config)
        (Hclip : 0 <= ClipThreshold (Processing cfg)) :
  let clip := of_int (ClipThreshold (Processing cfg)) in
  let gain s := PrimFloat.mul (of_int s) (VolumeMultiplier (Processing cfg)) in
  (forall buffer,
      processAudioData cfg buffer
      = map (fun s => to_int16 (Design.softClip clip (gain s))) buffer)
  /\ (forall s,
         PrimFloat.ltb clip (gain s) = true ->
         processValue cfg s
         = PrimFloat.add clip
             (PrimFloat.mul (PrimFloat.sub (gain s) clip) softKnee))
  /\ (forall s,
         PrimFloat.ltb (gain s) (PrimFloat.opp clip) = true ->
         processValue cfg s
         = PrimFloat.opp
             (PrimFloat.add clip
                (PrimFloat.mul (PrimFloat.sub (PrimFloat.abs (gain s)) clip)
                               softKnee)))
  /\ (forall s,
         PrimFloat.ltb clip (PrimFloat.abs (gain s)) = false ->
         processValue cfg s = gain s)
  /\ (forall s z,
         trunc (processValue cfg s) = Some z -> is_int16 z ->
         processSample cfg s = z).
Proof.
  intros clip gain.
  assert (Hsoft : forall s, processValue cfg s = Design.softClip clip (gain s))
    by (intros s; apply processValue_softClip, Hclip).
  split; [| split; [| split; [| split]]].
  - intros buffer. unfold processAudioData, processSample.
    apply map_ext. intros s. rewrite Hsoft. reflexivity.
  - intros s Habove. unfold processValue. fold clip. fold (gain s).
    cbv zeta. rewrite Habove. reflexivity.
  - intros s Hbelow. rewrite Hsoft. unfold Design.softClip.
    assert (Hc : unsigned (Prim2SF clip) = true) by (apply of_int_unsigned, Hclip).
    rewrite FloatAxioms.ltb_spec, opp_spec in Hbelow.
    destruct (ltb_negative _ _ Hc Hbelow) as [Hneg Hzero].
    unfold Design.sign.
    rewrite !FloatAxioms.ltb_spec, abs_spec.
    change (Prim2SF 0%float) with (S754_zero false).
    rewrite (ltb_abs_negative _ _ Hneg), Hbelow, Hzero.
    apply float_mul_minus_one.
  - intros s Hinside. rewrite Hsoft. unfold Design.softClip.
    rewrite Hinside. reflexivity.
  - intros s z Htr Hz. unfold processSample. apply to_int16_trunc; assumption.
Qed.

Lemma C6_soft_clip_amended_witness :
  processAudioData defaultConfig [28010; -28010; 5]
  = map (fun s => to_int16 (Design.softClip (of_int 28000)
                              (PrimFloat.mul (of_int s) 1%float)))
        [28010; -28010; 5].
Proof.
  assert (Hclip : 0 <= ClipThreshold (Processing defaultConfig)) by (cbn; lia).
  exact (proj1 (C6_soft_clip_amended defaultConfig Hclip) [28010; -28010; 5]).
Defined.

Example soft_clip_run :
  processAudioData defaultConfig [28010; -28010; 32767; -32768; 5]
  = [28003; -28003; 29430; -29430; 5].
Proof. vm_compute. reflexivity. Qed.

(** C6 as it is worded fails for a negative clip threshold: with the
    threshold -100 and unit volume the sample -50 exceeds the threshold
    in magnitude, and the design asks for the sign of -50 times
    (-100 + 150 x 0.3), which is 55; the code takes its first branch and
    stores -100 + 50 x 0.3, which is -85. *)
Lemma C6_negative_clip_threshold :
  let cfg := Examples.withProcessing true 1000 1%float (-100) in
  let out := PrimFloat.mul (of_int (-50)) (VolumeMultiplier (Processing cfg)) in
  let clip := of_int (ClipThreshold (Processing cfg)) in
  PrimFloat.ltb clip (PrimFloat.abs out) = true
  /\ to_int16 (Design.softClip clip out) = 55
  /\ processAudioData cfg [-50] = [-85].
Proof. vm_compute. repeat split; reflexivity. Qed.

End SignalProcessor.

(** ** The capture loop *)

Section CaptureLoop.
Import GoInt AudioCapture.

Lemma callbacks_app (e1 e2 : list event) :
  callbacks (e1 ++ e2) = callbacks e1 ++ callbacks e2.
Proof. unfold callbacks. apply flat_map_app. Qed.

Lemma sleeps_app (e1 e2 : list event) :
  sleeps (e1 ++ e2) = sleeps e1 ++ sleeps e2.
Proof. unfold sleeps. apply flat_map_app. Qed.

(** What the tail of the loop body does. *)
Lemma processAndSend_spec (due : bool) (ac : t) (l : locals) :
  exists ac' l' evs,
    processAndSend due ac l = (Continue, ac', l', evs)
    /\ config ac' = config ac /\ buffer ac' = buffer ac
    /\ dataCallback ac' = dataCallback ac /\ isRunning ac' = isRunning ac
    /\ actualBufferSize ac' = actualBufferSize ac
    /\ frameCount ac' = frameCount ac /\ silenceCount ac' = silenceCount ac
    /\ bytesSent ac'
       = int64 (bytesSent ac
                + Z.of_nat (length (encoded (config ac) (buffer ac))))
    /\ silenceFrames l' = silenceFrames l
    /\ consecutiveErrors l' = consecutiveErrors l
    /\ callbacks evs
       = (if dataCallback ac then [encoded (config ac) (buffer ac)] else [])
    /\ sleeps evs = [].
Proof.
  unfold processAndSend, encoded.
  destruct due; eexists _, _, _; (split; [reflexivity |]);
    repeat split; simpl;
    rewrite ?callbacks_app, ?sleeps_app;
    destruct (dataCallback ac); reflexivity.
Qed.

(** An iteration whose read succeeds with a silent frame. *)
Lemma iteration_silent (c : cycle) (ac : t) (l : locals) (frame : list Z) :
  SilenceDetection (Processing (config ac)) = true ->
  read c = Some frame ->
  isSilence (config ac) frame = true ->
  exists ac' l' evs,
    iteration c ac l = (Continue, ac', l', evs)
    /\ sameSetup ac ac'
    /\ frameCount ac' = int64 (frameCount ac + 1)
    /\ silenceCount ac' = int64 (silenceCount ac + 1)
    /\ silenceFrames l' = int64 (silenceFrames l + 1)
    /\ consecutiveErrors l' = 0
    /\ sleeps evs = []
    /\ (30 < silenceFrames l' -> skipped ac ac' evs)
    /\ (silenceFrames l' <= 30 -> processedNormally ac frame ac' evs).
Proof.
  intros Hdet Hread Hsil. unfold iteration. rewrite Hread, Hdet, Hsil.
  cbv beta zeta. cbn [silenceFrames bytesTransferred consecutiveErrors].
  destruct (Z.ltb_spec 30 (int64 (silenceFrames l + 1))) as [Hlt | Hle].
  - eexists _, _, _. split; [reflexivity |].
    unfold sameSetup, skipped. cbn. repeat split; lia.
  - match goal with |- context [processAndSend ?d ?a ?b] =>
      destruct (processAndSend_spec d a b)
        as (ac' & l' & evs & Heq & Hc & Hb & Hd & Hr & Ha & Hf & Hs & Hbs
            & Hsf & Hce & Hcb & Hsl) end.
    exists ac', l', evs. split; [exact Heq |].
    cbn [config buffer dataCallback isRunning actualBufferSize frameCount
         silenceCount bytesSent withStats silenceFrames consecutiveErrors]
      in Hc, Hb, Hd, Hr, Ha, Hf, Hs, Hbs, Hsf, Hce, Hcb.
    unfold sameSetup, processedNormally.
    repeat split; try assumption; lia.
Qed.

(** An iteration whose read succeeds with a frame that is not silent. *)
Lemma iteration_loud (c : cycle) (ac : t) (l : locals) (frame : list Z) :
  SilenceDetection (Processing (config ac)) = true ->
  read c = Some frame ->
  isSilence (config ac) frame = false ->
  exists ac' l' evs,
    iteration c ac l = (Continue, ac', l', evs)
    /\ sameSetup ac ac'
    /\ frameCount ac' = int64 (frameCount ac + 1)
    /\ silenceCount ac' = silenceCount ac
    /\ silenceFrames l' = 0
    /\ consecutiveErrors l' = 0
    /\ sleeps evs = []
    /\ processedNormally ac frame ac' evs.
Proof.
  intros Hdet Hread Hsil. unfold iteration. rewrite Hread, Hdet, Hsil.
  cbv beta zeta. cbn [silenceFrames bytesTransferred consecutiveErrors].
  match goal with |- context [processAndSend ?d ?a ?b] =>
    destruct (processAndSend_spec d a b)
      as (ac' & l' & evs & Heq & Hc & Hb & Hd & Hr & Ha & Hf & Hs & Hbs
          & Hsf & Hce & Hcb & Hsl) end.
  exists ac', l', evs. split; [exact Heq |].
  cbn [config buffer dataCallback isRunning actualBufferSize frameCount
       silenceCount bytesSent withStats silenceFrames consecutiveErrors]
    in Hc, Hb, Hd, Hr, Ha, Hf, Hs, Hbs, Hsf, Hce, Hcb.
  unfold sameSetup, processedNormally.
  repeat split; assumption.
Qed.

(** Running the loop over two stretches of iterations. *)
Lemma loop_app (cs1 cs2 : list cycle) :
  forall (ac : t) (l : locals),
    loop (cs1 ++ cs2) ac l
    = let o1 := loop cs1 ac l in
      if exited o1 then o1
      else let o2 := loop cs2 (capture o1) (vars o1) in
           mkOutcome (capture o2) (vars o2) (trace o1 ++ trace o2) (exited o2).
Proof.
  induction cs1 as [| c cs1 IH]; intros ac l.
  - cbn [app loop]. destruct (isRunning ac) eqn:Hrun; cbn.
    + destruct (loop cs2 ac l); reflexivity.
    + destruct cs2; cbn; rewrite Hrun; reflexivity.
  - cbn [app loop]. destruct (isRunning ac); [| reflexivity].
    destruct (iteration c ac l) as [[[ctl ac'] l'] evs].
    destruct ctl; [| reflexivity].
    rewrite IH. cbn.
    destruct (exited (loop cs1 ac' l')) eqn:Hex; cbn; rewrite ?Hex;
      [reflexivity |].
    rewrite app_assoc. reflexivity.
Qed.

(** The loop never changes what it was set up with. *)
Lemma sameSetup_trans (a b c : t) : sameSetup a b -> sameSetup b c -> sameSetup a c.
Proof.
  unfold sameSetup. intros (H1 & H2 & H3 & H4) (H5 & H6 & H7 & H8).
  repeat split; congruence.
Qed.

(** A stretch of silent frames, starting from a count of consecutive
    silent frames that is not yet negative: of these frames only the
    first [30 - silenceFrames l] are still dispatched. *)
Lemma loop_silent (cycles : list cycle) :
  forall (c : cycle) (ac : t) (l : locals),
    SilenceDetection (Processing (config ac)) = true ->
    isRunning ac = true ->
    Forall (silentRead (config ac)) (c :: cycles) ->
    0 <= silenceFrames l ->
    silenceFrames l + Z.of_nat (length (c :: cycles)) <= max_int64 ->
    let o := loop (c :: cycles) ac l in
    let n := length (c :: cycles) in
    exited o = false
    /\ sameSetup ac (capture o)
    /\ frameCount (capture o) = int64 (frameCount ac + Z.of_nat n)
    /\ silenceCount (capture o) = int64 (silenceCount ac + Z.of_nat n)
    /\ silenceFrames (vars o) = silenceFrames l + Z.of_nat n
    /\ length (callbacks (trace o))
       = (if dataCallback ac
          then Nat.min n (Z.to_nat (30 - silenceFrames l))
          else 0%nat)
    /\ sleeps (trace o) = [].
Proof.
  induction cycles as [| c2 cycles IH]; intros c ac l Hdet Hrun Hall Hk Hmax.
  - apply Forall_inv in Hall. destruct Hall as (frame & Hread & Hsil).
    destruct (iteration_silent c ac l frame Hdet Hread Hsil)
      as (ac' & l' & evs & Heq & Hset & Hfc & Hsc & Hsf & _ & Hsl & Hskip & Hnorm).
    cbn [loop length]. rewrite Hrun, Heq.
    assert (Hrun' : isRunning ac' = true) by (destruct Hset as (_ & _ & -> & _); exact Hrun).
    rewrite Hrun'. cbn [exited capture vars trace]. rewrite app_nil_r.
    unfold max_int64 in Hmax. cbn [length] in Hmax.
    rewrite int64_small in Hsf
      by in_range.
    pose proof Hset as (Hcfg & Hdc & Hr & Hab).
    repeat split; try assumption.
    + destruct (Z.le_gt_cases (silenceFrames l') 30) as [Hle | Hgt].
      * destruct (Hnorm Hle) as [Hcb _]. rewrite Hcb.
        destruct (dataCallback ac); [| reflexivity]. cbn [length]. lia.
      * destruct (Hskip ltac:(lia)) as [-> _]. cbn [callbacks flat_map length].
        destruct (dataCallback ac); lia.
  - pose proof (Forall_inv Hall) as (frame & Hread & Hsil).
    apply Forall_inv_tail in Hall.
    destruct (iteration_silent c ac l frame Hdet Hread Hsil)
      as (ac' & l' & evs & Heq & Hset & Hfc & Hsc & Hsf & _ & Hsl & Hskip & Hnorm).
    pose proof Hset as (Hcfg & Hdc & Hr & _).
    unfold max_int64 in Hmax. cbn [length] in Hmax.
    rewrite int64_small in Hsf
      by in_range.
    specialize (IH c2 ac' l').
    rewrite Hcfg, Hr in IH.
    specialize (IH Hdet Hrun Hall ltac:(lia)
                   ltac:(unfold max_int64; cbn [length]; lia)).
    cbv zeta in IH.
    destruct IH as (Hex & Hset2 & Hfc2 & Hsc2 & Hsf2 & Hcb2 & Hsl2).
    cbv zeta.
    change (loop (c :: c2 :: cycles) ac l)
      with (if isRunning ac
            then match iteration c ac l with
                 | (Break, ac', l', evs) => mkOutcome ac' l' evs true
                 | (Continue, ac', l', evs) =>
                     let o := loop (c2 :: cycles) ac' l' in
                     mkOutcome (capture o) (vars o) (evs ++ trace o) (exited o)
                 end
            else mkOutcome ac l [] true).
    rewrite Hrun, Heq. cbv zeta. cbn [exited capture vars trace].
    rewrite callbacks_app, sleeps_app, length_app, Hsl, Hsl2, Hcb2, Hdc.
    split; [| split; [| split; [| split; [| split; [| split]]]]].
    + exact Hex.
    + eapply sameSetup_trans; eassumption.
    + rewrite Hfc2, Hfc, int64_add_l. f_equal. cbn [length]. lia.
    + rewrite Hsc2, Hsc, int64_add_l. f_equal. cbn [length]. lia.
    + rewrite Hsf2, Hsf. cbn [length]. lia.
    + cbn [length].
      destruct (Z.le_gt_cases (silenceFrames l') 30) as [Hle | Hgt].
      * destruct (Hnorm Hle) as [Hcb _]. rewrite Hcb.
        destruct (dataCallback ac); [| reflexivity]. cbn [length]. lia.
      * destruct (Hskip ltac:(lia)) as [-> _]. cbn [callbacks flat_map length].
        destruct (dataCallback ac); lia.
    + reflexivity.
Qed.

(** C1: with silence detection enabled, a cycle with a silent frame
    increments the frame counter and the silence counter, and once the
    count of consecutive silent frames exceeds 30 the frame is skipped:
    no processing, no encoding, no byte count, no callback. The 31st
    consecutive silent frame is therefore not dispatched although it is
    counted. A frame that is not silent resets the count of consecutive
    silent frames to zero and is processed normally. *)
Theorem C1_silence_throttling (ac : t)
        (Hdet : SilenceDetection (Processing (config ac)) = true) :
  (forall c l frame,
      read c = Some frame -> isSilence (config ac) frame = true ->
      exists ac' l' evs,
        iteration c ac l = (Continue, ac', l', evs)
        /\ frameCount ac' = int64 (frameCount ac + 1)
        /\ silenceCount ac' = int64 (silenceCount ac + 1)
        /\ silenceFrames l' = int64 (silenceFrames l + 1)
        /\ (30 < silenceFrames l' -> skipped ac ac' evs)
        /\ (silenceFrames l' <= 30 -> processedNormally ac frame ac' evs))
  /\ (forall c l frame,
         read c = Some frame -> isSilence (config ac) frame = false ->
         exists ac' l' evs,
           iteration c ac l = (Continue, ac', l', evs)
           /\ frameCount ac' = int64 (frameCount ac + 1)
           /\ silenceCount ac' = silenceCount ac
           /\ silenceFrames l' = 0
           /\ processedNormally ac frame ac' evs)
  /\ (forall first30 c31 l,
         isRunning ac = true -> dataCallback ac = true ->
         silenceFrames l = 0 -> length first30 = 30%nat ->
         Forall (silentRead (config ac)) (first30 ++ [c31]) ->
         let o30 := loop first30 ac l in
         let o31 := loop (first30 ++ [c31]) ac l in
         length (callbacks (trace o30)) = 30%nat
         /\ callbacks (trace o31) = callbacks (trace o30)
         /\ silenceCount (capture o30) = int64 (silenceCount ac + 30)
         /\ silenceCount (capture o31) = int64 (silenceCount ac + 31)).
Proof.
  split; [| split].
  - intros c l frame Hread Hsil.
    destruct (iteration_silent c ac l frame Hdet Hread Hsil)
      as (ac' & l' & evs & Heq & _ & Hfc & Hsc & Hsf & _ & _ & Hskip & Hnorm).
    exists ac', l', evs. repeat split; assumption || apply Hskip || apply Hnorm;
      assumption.
  - intros c l frame Hread Hsil.
    destruct (iteration_loud c ac l frame Hdet Hread Hsil)
      as (ac' & l' & evs & Heq & _ & Hfc & Hsc & Hsf & _ & _ & Hnorm).
    exists ac', l', evs. destruct Hnorm. repeat split; assumption.
  - intros first30 c31 l Hrun Hcb Hsf Hlen Hall o30 o31.
    apply Forall_app in Hall. destruct Hall as [Hall30 Hall31].
    destruct first30 as [| c first29]; [discriminate Hlen |].
    destruct (loop_silent first29 c ac l Hdet Hrun Hall30 ltac:(lia))
      as (Hex & Hset & _ & Hsc & Hsf30 & Hcb30 & _).
    { rewrite Hsf, Hlen. unfold max_int64. lia. }
    fold o30 in Hex, Hset, Hsc, Hsf30, Hcb30.
    rewrite Hlen, Hcb, Hsf in *. change (Z.of_nat 30) with 30 in *.
    destruct Hset as (Hcfg & Hdc & Hr & _).
    destruct (loop_silent [] c31 (capture o30) (vars o30))
      as (_ & _ & _ & Hsc31 & _ & Hcb31 & _).
    { rewrite Hcfg. exact Hdet. }
    { rewrite Hr. exact Hrun. }
    { rewrite Hcfg. exact Hall31. }
    { lia. }
    { rewrite Hsf30. unfold max_int64. cbn [length]. lia. }
    rewrite Hdc, Hcb, Hsf30 in Hcb31. cbn [length] in Hcb31, Hsc31.
    change (Nat.min 1 (Z.to_nat (30 - (0 + 30)))) with 0%nat in Hcb31.
    apply length_zero_iff_nil in Hcb31.
    subst o31. rewrite loop_app. cbv zeta. fold o30. rewrite Hex.
    cbn [trace capture]. rewrite callbacks_app, Hcb31, app_nil_r.
    repeat split; try assumption.
    rewrite Hsc31, Hsc, int64_add_l. f_equal. lia.
Qed.

Lemma C1_silence_throttling_witness :
  let ac := Examples.running defaultConfig in
  let quiet := Examples.readOk Examples.silentFrame in
  SilenceDetection (Processing (config ac)) = true
  /\ callbacks (trace (loop (repeat quiet 30 ++ [quiet]) ac initLocals))
     = callbacks (trace (loop (repeat quiet 30) ac initLocals)).
Proof.
  intros ac quiet. split; [reflexivity |].
  destruct (C1_silence_throttling ac eq_refl) as (_ & _ & H).
  assert (Hq : silentRead (config ac) quiet)
    by (exists Examples.silentFrame; split; reflexivity).
  apply (H (repeat quiet 30) quiet initLocals); try reflexivity.
  apply Forall_app. split.
  - cbn [repeat]. repeat (constructor; [exact Hq |]). constructor.
  - constructor; [exact Hq | constructor].
Defined.

Example silence_throttling_run :
  let o := processAudio (repeat (Examples.readOk Examples.silentFrame) 31)
                        (Examples.running defaultConfig) in
  length (callbacks (trace o)) = 30%nat /\ GetStats (capture o) = (31, 240, 31).
Proof. vm_compute. split; reflexivity. Qed.

End CaptureLoop.

(** ** Read failures *)

Section ReadFailures.
Import GoInt AudioCapture.

(** An iteration whose read fails. *)
Lemma iteration_read_error (c : cycle) (ac : t) (l : locals) :
  read c = None ->
  0 <= consecutiveErrors l <= 10 ->
  iteration c ac l
  = (if consecutiveErrors l <? 10 then Continue else Break,
     ac,
     mkLocals (bytesTransferred l) (silenceFrames l) (consecutiveErrors l + 1),
     [LogReadError;
      if consecutiveErrors l <? 10 then Sleep 10 else LogTooManyErrors]).
Proof.
  intros Hread Hce. unfold iteration. rewrite Hread. cbv zeta.
  cbn [consecutiveErrors].
  rewrite int64_small by in_range.
  destruct (Z.ltb_spec 10 (consecutiveErrors l + 1));
    destruct (Z.ltb_spec (consecutiveErrors l) 10); try lia; reflexivity.
Qed.

(** An iteration whose read succeeds. *)
Lemma iteration_read_ok (c : cycle) (ac : t) (l : locals) (frame : list Z) :
  read c = Some frame ->
  exists ac' l' evs,
    iteration c ac l = (Continue, ac', l', evs)
    /\ sameSetup ac ac'
    /\ consecutiveErrors l' = 0
    /\ sleeps evs = [].
Proof.
  intros Hread. unfold iteration. rewrite Hread. cbv zeta.
  destruct (SilenceDetection (Processing (config ac)));
    [destruct (isSilence (config ac) frame);
     [destruct (30 <? _) |] |];
    try (eexists _, _, _; split; [reflexivity |];
         unfold sameSetup; cbn; repeat split; reflexivity);
    match goal with |- context [processAndSend ?d ?a ?b] =>
      destruct (processAndSend_spec d a b)
        as (ac' & l' & evs & Heq & Hc & Hb & Hd & Hr & Ha & Hf & Hs & Hbs
            & Hsf & Hce & Hcb & Hsl) end;
    exists ac', l', evs; (split; [exact Heq |]);
    cbn [config buffer dataCallback isRunning actualBufferSize withStats
         consecutiveErrors] in Hc, Hd, Hr, Ha, Hce;
    unfold sameSetup; repeat split; assumption.
Qed.

(** A stretch of failed reads that keeps the count of consecutive errors
    at or below 10: every one of them is followed by a sleep of 10 ms and
    another read. *)
Lemma loop_failures (cycles : list cycle) :
  forall (ac : t) (l : locals),
    isRunning ac = true ->
    Forall (fun c => read c = None) cycles ->
    0 <= consecutiveErrors l ->
    consecutiveErrors l + Z.of_nat (length cycles) <= 10 ->
    loop cycles ac l
    = mkOutcome ac
        (mkLocals (bytesTransferred l) (silenceFrames l)
                  (consecutiveErrors l + Z.of_nat (length cycles)))
        (flat_map (fun _ => [LogReadError; Sleep 10]) cycles)
        false.
Proof.
  induction cycles as [| c cycles IH]; intros ac l Hrun Hall Hk Hmax.
  - cbn [loop length flat_map]. rewrite Hrun, Z.add_0_r.
    destruct l; reflexivity.
  - cbn [length] in Hmax.
    pose proof (Forall_inv Hall) as Hread. apply Forall_inv_tail in Hall.
    cbn [loop]. rewrite Hrun.
    rewrite (iteration_read_error c ac l Hread) by lia.
    destruct (Z.ltb_spec (consecutiveErrors l) 10); [| lia].
    rewrite IH by (cbn [consecutiveErrors]; assumption || lia).
    cbn [capture vars trace exited consecutiveErrors bytesTransferred
         silenceFrames flat_map length app].
    do 2 f_equal. lia.
Qed.

Lemma sleeps_failures (cycles : list cycle) :
  sleeps (flat_map (fun _ => [LogReadError; Sleep 10]) cycles)
  = repeat 10 (length cycles).
Proof.
  induction cycles as [| c cycles IH]; [reflexivity |].
  cbn [flat_map length repeat]. rewrite sleeps_app, IH. reflexivity.
Qed.

Lemma callbacks_failures (cycles : list cycle) :
  callbacks (flat_map (fun _ => [LogReadError; Sleep 10]) cycles) = [].
Proof.
  induction cycles as [| c cycles IH]; [reflexivity |].
  cbn [flat_map]. rewrite callbacks_app, IH. reflexivity.
Qed.

(** C4, as the code has it: a failed read increments the count of
    consecutive errors; while the count is at most 10 the loop sleeps
    10 ms and reads again, so ten consecutive failures do not stop it; the
    eleventh consecutive failure leaves the loop at once, with no sleep
    and no further read, whatever the device would deliver afterwards; a
    successful read sets the count back to zero. *)
Theorem C4_read_failures_amended (ac : t) (Hrun : isRunning ac = true) :
  (forall c l,
      read c = None -> 0 <= consecutiveErrors l <= 10 ->
      iteration c ac l
      = (if consecutiveErrors l <? 10 then Continue else Break,
         ac,
         mkLocals (bytesTransferred l) (silenceFrames l)
                  (consecutiveErrors l + 1),
         [LogReadError;
          if consecutiveErrors l <? 10 then Sleep 10 else LogTooManyErrors]))
  /\ (forall c l frame,
         read c = Some frame ->
         exists ac' l' evs,
           iteration c ac l = (Continue, ac', l', evs)
           /\ consecutiveErrors l' = 0)
  /\ (forall failures l,
         Forall (fun c => read c = None) failures ->
         length failures = 10%nat -> consecutiveErrors l = 0 ->
         (let o := loop failures ac l in
          exited o = false /\ capture o = ac
          /\ consecutiveErrors (vars o) = 10
          /\ sleeps (trace o) = repeat 10 10)
         /\ (forall c11 rest,
                read c11 = None ->
                let o := loop (failures ++ c11 :: rest) ac l in
                exited o = true /\ capture o = ac
                /\ consecutiveErrors (vars o) = 11
                /\ sleeps (trace o) = repeat 10 10
                /\ callbacks (trace o) = []
                /\ o = loop (failures ++ [c11]) ac l)).
Proof.
  split; [| split].
  - intros c l Hread Hce. apply iteration_read_error; assumption.
  - intros c l frame Hread.
    destruct (iteration_read_ok c ac l frame Hread)
      as (ac' & l' & evs & Heq & _ & Hce & _).
    exists ac', l', evs. split; assumption.
  - intros failures l Hall Hlen Hce.
    assert (Hten : loop failures ac l
                   = mkOutcome ac
                       (mkLocals (bytesTransferred l) (silenceFrames l) 10)
                       (flat_map (fun _ => [LogReadError; Sleep 10]) failures)
                       false).
    { rewrite loop_failures by (assumption || rewrite ?Hce, ?Hlen; lia).
      rewrite Hce, Hlen. reflexivity. }
    split.
    + cbv zeta. rewrite Hten. cbn [exited capture vars trace consecutiveErrors].
      rewrite sleeps_failures, Hlen. repeat split; reflexivity.
    + intros c11 rest Hread11.
      assert (Hlast : forall tl,
                 loop (failures ++ c11 :: tl) ac l
                 = mkOutcome ac
                     (mkLocals (bytesTransferred l) (silenceFrames l) 11)
                     (flat_map (fun _ => [LogReadError; Sleep 10]) failures
                      ++ [LogReadError; LogTooManyErrors])
                     true).
      { intros tl. rewrite loop_app. cbv zeta. rewrite Hten.
        cbn [exited capture vars trace loop]. rewrite Hrun.
        rewrite (iteration_read_error c11) by (cbn; assumption || lia).
        reflexivity. }
      cbv zeta. rewrite (Hlast rest), (Hlast []).
      cbn [exited capture vars trace consecutiveErrors].
      rewrite sleeps_app, callbacks_app, sleeps_failures, callbacks_failures, Hlen.
      repeat split; reflexivity.
Qed.

Lemma C4_read_failures_amended_witness :
  let ac := Examples.running defaultConfig in
  isRunning ac = true
  /\ exited (loop (repeat Examples.readFails 10) ac initLocals) = false.
Proof.
  intros ac. split; [reflexivity |].
  destruct (C4_read_failures_amended ac eq_refl) as (_ & _ & H).
  assert (Hall : Forall (fun c => read c = None) (repeat Examples.readFails 10)).
  { cbn [repeat]. repeat (constructor; [reflexivity |]). constructor. }
  exact (proj1 (proj1 (H _ initLocals Hall eq_refl eq_refl))).
Defined.

(** C4 as it is worded fails: after ten consecutive failed reads the loop
    has not halted; it sleeps, reads an eleventh time, and when that read
    succeeds the frame is dispatched and the count is back at zero. *)
Lemma C4_ten_failures_do_not_halt :
  let ac := Examples.running defaultConfig in
  let ten := repeat Examples.readFails 10 in
  exited (processAudio ten ac) = false
  /\ (let o := processAudio (ten ++ [Examples.readOk Examples.loudFrame]) ac in
      exited o = false
      /\ callbacks (trace o) = [encoded defaultConfig Examples.loudFrame]
      /\ consecutiveErrors (vars o) = 0
      /\ frameCount (capture o) = 1).
Proof. vm_compute. repeat split; reflexivity. Qed.

End ReadFailures.

(** ** Silence detection *)

Section Silence.
Import GoInt AudioCapture.

(** The test of one sample against a threshold that negates without
    wrapping. *)
Lemma sample_test (T s : Z) :
  ((T <? s) || (s <? - T)) = false <-> Z.abs s <= T.
Proof.
  rewrite orb_false_iff, !Z.ltb_ge. lia.
Qed.

Lemma isSilenceLoop_within (T : Z) (frame : list Z) :
  int16 (- T) = - T ->
  isSilenceLoop T frame = true <-> Design.allWithin T frame.
Proof.
  intros Hneg. unfold Design.allWithin.
  induction frame as [| s frame IH]; cbn [isSilenceLoop].
  - split; [constructor | reflexivity].
  - rewrite Hneg.
    destruct ((T <? s) || (s <? - T)) eqn:Htest.
    + split; [discriminate |]. intros Hall. apply Forall_inv in Hall.
      apply sample_test in Hall. congruence.
    + apply sample_test in Htest. rewrite IH. split.
      * intros Hall. constructor; assumption.
      * intros Hall. eapply Forall_inv_tail; eassumption.
Qed.

(** C8, for the thresholds that survive the conversion to [int16] and
    its negation: [isSilence] accepts exactly the frames whose samples
    are all at most the threshold in absolute value, so that one sample
    of absolute value [T + 1] makes the frame not silent. *)
Theorem C8_isSilence_amended (cfg : Config)
        (HT : -32767 <= SilenceThreshold (Processing cfg) <= 32767) :
  (forall frame,
      isSilence cfg frame = true
      <-> Design.allWithin (SilenceThreshold (Processing cfg)) frame)
  /\ (forall before s after,
         Z.abs s = SilenceThreshold (Processing cfg) + 1 ->
         isSilence cfg (before ++ s :: after) = false).
Proof.
  assert (Hiff : forall frame,
             isSilence cfg frame = true
             <-> Design.allWithin (SilenceThreshold (Processing cfg)) frame).
  { intros frame. unfold isSilence.
    rewrite int16_small by in_range.
    apply isSilenceLoop_within.
    apply int16_small. in_range. }
  split; [exact Hiff |].
  intros before s after Hs.
  apply not_true_is_false. rewrite Hiff. unfold Design.allWithin.
  rewrite Forall_app, Forall_cons. intros (_ & Hbad & _). lia.
Qed.

Lemma C8_isSilence_amended_witness :
  isSilence defaultConfig [1000; -1000; 0] = true
  /\ isSilence defaultConfig [0; -1001; 0] = false.
Proof.
  assert (HT : -32767 <= SilenceThreshold (Processing defaultConfig) <= 32767)
    by (cbn; lia).
  destruct (C8_isSilence_amended defaultConfig HT) as [Hiff Hone].
  split.
  - apply Hiff. unfold Design.allWithin. cbn.
    repeat (constructor; [lia |]). constructor.
  - apply (Hone [0] (-1001) [0]). reflexivity.
Defined.

(** C8 as it is worded fails for a threshold outside the 16-bit range:
    with the threshold 40000 every sample of a frame of zeros is within
    the threshold, yet the frame is classified as not silent. *)
Lemma C8_threshold_40000 :
  let cfg := Examples.withProcessing true 40000 1%float 28000 in
  Design.allWithin (SilenceThreshold (Processing cfg)) [0; 0]
  /\ isSilence cfg [0; 0] = false.
Proof.
  split.
  - unfold Design.allWithin. cbn. repeat (constructor; [lia |]). constructor.
  - reflexivity.
Qed.

(** With a negative threshold in force, a sample above -32768 fails the
    test. *)
Lemma negative_threshold_sample (t s : Z) :
  is_int16 t -> t < 0 -> -32768 < s ->
  ((t <? s) || (s <? int16 (- t))) = true.
Proof.
  unfold is_int16, min_int16, max_int16. intros Ht Hneg Hs.
  apply orb_true_iff.
  destruct (Z.eq_dec t (-32768)) as [-> | Hne].
  - left. apply Z.ltb_lt. lia.
  - rewrite int16_small by in_range.
    destruct (Z.ltb_spec t s); [left; reflexivity | right].
    apply Z.ltb_lt. lia.
Qed.

Lemma negative_threshold_frame (t : Z) (frame : list Z) :
  is_int16 t -> t < 0 -> Exists (fun s => -32768 < s) frame ->
  isSilenceLoop t frame = false.
Proof.
  intros Ht Hneg Hex.
  induction frame as [| s frame IH]; [inversion Hex |].
  cbn [isSilenceLoop].
  destruct ((t <? s) || (s <? int16 (- t))) eqn:Htest; [reflexivity |].
  apply IH. inversion Hex as [? ? Hs | ? ? Hrest]; subst; [| exact Hrest].
  rewrite negative_threshold_sample in Htest by assumption. discriminate.
Qed.

(** C10, as the code has it: the comparison uses the configured
    threshold converted to [int16] (40000 becomes -25536); when that
    value is negative, every frame with at least one sample other than
    -32768, so every frame of zeros that is not empty, is classified as
    not silent, and an iteration of the capture loop on such a frame
    counts no silence, resets the count of consecutive silent frames and
    dispatches the frame: throttling does not engage. *)
Theorem C10_wrapped_threshold_amended (cfg : Config)
        (Hneg : int16 (SilenceThreshold (Processing cfg)) < 0) :
  (forall frame,
      isSilence cfg frame
      = isSilenceLoop (int16 (SilenceThreshold (Processing cfg))) frame)
  /\ int16 40000 = -25536
  /\ (forall frame,
         Exists (fun s => -32768 < s) frame -> isSilence cfg frame = false)
  /\ (forall n, isSilence cfg (repeat 0 (S n)) = false)
  /\ (forall ac c l frame,
         config ac = cfg ->
         SilenceDetection (Processing cfg) = true ->
         read c = Some frame ->
         Exists (fun s => -32768 < s) frame ->
         exists ac' l' evs,
           iteration c ac l = (Continue, ac', l', evs)
           /\ silenceCount ac' = silenceCount ac
           /\ silenceFrames l' = 0
           /\ processedNormally ac frame ac' evs).
Proof.
  assert (Hloud : forall frame,
             Exists (fun s => -32768 < s) frame -> isSilence cfg frame = false).
  { intros frame Hex. unfold isSilence.
    apply negative_threshold_frame; [apply int16_range | exact Hneg | exact Hex]. }
  split; [reflexivity |]. split; [reflexivity |]. split; [exact Hloud |].
  split.
  - intros n. apply Hloud. cbn [repeat]. constructor. lia.
  - intros ac c l frame Hcfg Hdet Hread Hex. subst cfg.
    destruct (iteration_loud c ac l frame Hdet Hread (Hloud frame Hex))
      as (ac' & l' & evs & Heq & _ & _ & Hsc & Hsf & _ & _ & Hnorm).
    exists ac', l', evs. repeat split; try assumption; apply Hnorm.
Qed.

Lemma C10_wrapped_threshold_amended_witness :
  let cfg := Examples.withProcessing true 40000 1%float 28000 in
  int16 (SilenceThreshold (Processing cfg)) < 0
  /\ isSilence cfg [0; 0; 0; 0] = false.
Proof.
  intros cfg.
  assert (Hneg : int16 (SilenceThreshold (Processing cfg)) < 0)
    by (vm_compute; reflexivity).
  split; [exact Hneg |].
  destruct (C10_wrapped_threshold_amended cfg Hneg) as (_ & _ & _ & Hzero & _).
  exact (Hzero 3%nat).
Defined.

(** C10 as it is worded fails: the threshold 32768 lies outside the
    16-bit range and becomes -32768, which is negative, yet a frame whose
    samples are all -32768 is classified as silent; so is the empty frame
    under any threshold. *)
Lemma C10_negative_threshold_silent_frame :
  let cfg := Examples.withProcessing true 32768 1%float 28000 in
  int16 (SilenceThreshold (Processing cfg)) = -32768
  /\ isSilence cfg [-32768; -32768] = true
  /\ isSilence (Examples.withProcessing true 40000 1%float 28000) [] = true.
Proof. repeat split; reflexivity. Qed.

End Silence.

(** ** The buffer size *)

Section BufferSize.
Import GoInt GoFloat AudioCapture.

Lemma clampPowerOfTwo_clamp (P : Z) : clampPowerOfTwo P = Design.clamp P.
Proof.
  unfold clampPowerOfTwo, Design.clamp.
  destruct (Z.ltb_spec P 256); destruct (Z.ltb_spec 2048 256);
    destruct (Z.ltb_spec 2048 P); lia.
Qed.

Lemma double_pow2 (k : Z) :
  0 <= k < 62 -> int64 (Z.shiftl (2 ^ k) 1) = 2 ^ (k + 1).
Proof.
  intros Hk. rewrite Z.shiftl_mul_pow2 by lia.
  rewrite Z.pow_add_r by lia. change (2 ^ 1) with 2.
  apply int64_small. unfold is_int64, min_int64, max_int64.
  assert (0 < 2 ^ k) by (apply Z.pow_pos_nonneg; lia).
  assert (2 ^ k <= 2 ^ 61) by (apply Z.pow_le_mono_r; lia).
  lia.
Qed.

(** The rounding loop, entered at [2 ^ k] when every smaller power of two
    is below the target: it ends, at the smallest power of two that is
    not below the target. *)
Lemma roundUpLoop_spec (t : Z) (fuel : nat) :
  forall k,
    t <= 2 ^ 62 -> 0 <= k <= 62 -> 62 - k < Z.of_nat fuel ->
    (forall j, 0 <= j < k -> 2 ^ j < t) ->
    exists P, roundUpLoop fuel (2 ^ k) t = Some P /\ Design.smallest_pow2_ge t P.
Proof.
  induction fuel as [| fuel IH]; intros k Ht Hk Hfuel Hbelow; [lia |].
  cbn [roundUpLoop].
  destruct (Z.ltb_spec (2 ^ k) t) as [Hlt | Hge].
  - assert (k < 62).
    { destruct (Z.eq_dec k 62) as [-> | ?]; lia. }
    rewrite double_pow2 by lia.
    apply IH; try lia.
    intros j Hj. destruct (Z.eq_dec j k) as [-> | ?]; [exact Hlt |].
    apply Hbelow. lia.
  - exists (2 ^ k). split; [reflexivity |].
    split; [exists k; split; [lia | reflexivity] |].
    split; [exact Hge |].
    intros Q (j & Hj & ->) HtQ.
    destruct (Z.lt_ge_cases j k) as [Hjk | Hjk].
    + specialize (Hbelow j ltac:(lia)). lia.
    + apply Z.pow_le_mono_r; lia.
Qed.

(** Beyond [2 ^ 62] the loop does not end: the doubling wraps to the
    smallest integer and then to zero, which stays below the target. *)
Lemma roundUpLoop_zero (t : Z) (fuel : nat) :
  0 < t -> roundUpLoop fuel 0 t = None.
Proof.
  intros Ht. induction fuel as [| fuel IH]; [reflexivity |].
  cbn [roundUpLoop]. destruct (Z.ltb_spec 0 t); [| lia]. exact IH.
Qed.

Lemma roundUpLoop_diverges (t : Z) (n : nat) :
  forall (fuel : nat) (k : Z),
    2 ^ 62 < t -> 0 <= k <= 62 -> 62 - k = Z.of_nat n ->
    roundUpLoop fuel (2 ^ k) t = None.
Proof.
  induction n as [| n IH]; intros fuel k Ht Hk Hn.
  - assert (k = 62) by lia. subst k.
    destruct fuel as [| fuel]; [reflexivity |]. cbn [roundUpLoop].
    destruct (Z.ltb_spec (2 ^ 62) t); [| lia].
    change (int64 (Z.shiftl (2 ^ 62) 1)) with (- 2 ^ 63).
    destruct fuel as [| fuel]; [reflexivity |]. cbn [roundUpLoop].
    destruct (Z.ltb_spec (- 2 ^ 63) t); [| lia].
    change (int64 (Z.shiftl (- 2 ^ 63) 1)) with 0.
    apply roundUpLoop_zero. lia.
  - destruct fuel as [| fuel]; [reflexivity |]. cbn [roundUpLoop].
    assert (2 ^ k <= 2 ^ 62) by (apply Z.pow_le_mono_r; lia).
    destruct (Z.ltb_spec (2 ^ k) t); [| lia].
    rewrite double_pow2 by lia. apply IH; lia.
Qed.

(** Nothing in the loop of [processAudio] changes the set-up of the
    capture, the buffer size included. *)
Lemma iteration_sameSetup (c : cycle) (ac : t) (l : locals) :
  sameSetup ac (iteration c ac l).1.1.2.
Proof.
  destruct (read c) as [frame |] eqn:Hread.
  - destruct (iteration_read_ok c ac l frame Hread)
      as (ac' & l' & evs & -> & Hset & _). exact Hset.
  - unfold iteration. rewrite Hread. cbv zeta.
    destruct (10 <? _); unfold sameSetup; cbn; repeat split; reflexivity.
Qed.

Lemma loop_sameSetup (cycles : list cycle) :
  forall (ac : t) (l : locals), sameSetup ac (capture (loop cycles ac l)).
Proof.
  induction cycles as [| c cycles IH]; intros ac l.
  - cbn [loop]. destruct (isRunning ac); unfold sameSetup; cbn; auto.
  - cbn [loop]. destruct (isRunning ac);
      [| unfold sameSetup; cbn; auto].
    pose proof (iteration_sameSetup c ac l) as Hstep.
    destruct (iteration c ac l) as [[[ctl ac'] l'] evs]. cbn [fst snd] in Hstep.
    destruct ctl; cbn [capture]; [| exact Hstep].
    eapply sameSetup_trans; [exact Hstep | apply IH].
Qed.

(** C2, as the code has it. With a positive configured size [B] the
    result is [B x C] whenever that product fits an [int]. Otherwise the
    target is the integer part of [sample_rate x 0.02] (the fraction is
    dropped before rounding up), and when it is at most [2 ^ 62] the
    result is [P x C] with [P] the smallest power of two that is not
    below the target, clamped into the range from 256 to 2048. The size
    is stored by [Initialize] and no iteration of the capture loop changes
    it. *)
Theorem C2_buffer_size_amended (cfg : Config) (fuel : nat)
        (Hfuel : (63 <= fuel)%nat) :
  (0 < BufferSize (Audio cfg) ->
   is_int64 (BufferSize (Audio cfg) * Channels (Audio cfg)) ->
   calculateOptimalBufferSize fuel cfg
   = Some (BufferSize (Audio cfg) * Channels (Audio cfg)))
  /\ (BufferSize (Audio cfg) <= 0 ->
      targetSamples cfg <= 2 ^ 62 ->
      0 <= Channels (Audio cfg) -> 2048 * Channels (Audio cfg) <= max_int64 ->
      exists P,
        Design.smallest_pow2_ge (targetSamples cfg) P
        /\ calculateOptimalBufferSize fuel cfg
           = Some (Design.clamp P * Channels (Audio cfg)))
  /\ (forall ac n,
         config ac = cfg ->
         calculateOptimalBufferSize fuel cfg = Some n -> 0 <= n ->
         exists ac',
           Initialize fuel ac = Some ac'
           /\ GetActualBufferSize ac' = n
           /\ forall cycles,
               GetActualBufferSize (capture (processAudio cycles ac')) = n).
Proof.
  split; [| split].
  - intros HB Hfit. unfold calculateOptimalBufferSize.
    destruct (Z.ltb_spec 0 (BufferSize (Audio cfg))); [| lia].
    rewrite int64_small by exact Hfit. reflexivity.
  - intros HB Ht HC Hfit. unfold calculateOptimalBufferSize.
    destruct (Z.ltb_spec 0 (BufferSize (Audio cfg))); [lia |].
    destruct (roundUpLoop_spec (targetSamples cfg) fuel 0 Ht ltac:(lia)
                ltac:(lia) ltac:(intros; lia)) as (P & Hloop & Hsmall).
    change (2 ^ 0) with 1 in Hloop. rewrite Hloop.
    exists P. split; [exact Hsmall |].
    rewrite clampPowerOfTwo_clamp, int64_small; [reflexivity |].
    unfold is_int64, min_int64, max_int64, Design.clamp in *. nia.
  - intros ac n Hcfg Hcalc Hn. unfold Initialize. rewrite Hcfg, Hcalc.
    destruct (Z.ltb_spec n 0); [lia |].
    eexists. split; [reflexivity |]. split; [reflexivity |].
    intros cycles. unfold GetActualBufferSize, processAudio.
    match goal with |- context [loop cycles ?a ?l] =>
      destruct (loop_sameSetup cycles a l) as (_ & _ & _ & ->) end.
    reflexivity.
Qed.

Lemma C2_buffer_size_amended_witness :
  calculateOptimalBufferSize 64 defaultConfig = Some (1024 * 2)
  /\ calculateOptimalBufferSize 64 (Examples.withAudio 44100%float 2 480)
     = Some (480 * 2).
Proof.
  destruct (C2_buffer_size_amended defaultConfig 64 ltac:(lia)) as (_ & Hauto & _).
  destruct (C2_buffer_size_amended (Examples.withAudio 44100%float 2 480) 64
              ltac:(lia)) as (Hfixed & _).
  split.
  - destruct Hauto as (P & (Hpow & Hge & Hmin) & Hcalc).
    + cbn. lia.
    + vm_compute. discriminate.
    + cbn. lia.
    + vm_compute. discriminate.
    + rewrite Hcalc. do 2 f_equal.
      assert (HP : P = 1024).
      { change (targetSamples defaultConfig) with 960 in Hge, Hmin.
        assert (P <= 1024)
          by (apply Hmin; [exists 10; split; [lia | reflexivity] | lia]).
        destruct Hpow as (k & Hk & ->).
        assert (k < 11).
        { destruct (Z.lt_ge_cases k 11) as [? | Hbig]; [assumption |].
          assert (2 ^ 11 <= 2 ^ k) by (apply Z.pow_le_mono_r; lia).
          change (2 ^ 11) with 2048 in *. lia. }
        assert (Hcases : k = 0 \/ k = 1 \/ k = 2 \/ k = 3 \/ k = 4 \/ k = 5
                         \/ k = 6 \/ k = 7 \/ k = 8 \/ k = 9 \/ k = 10) by lia.
        repeat (destruct Hcases as [-> | Hcases]; [cbn in Hge; try lia |]);
          try reflexivity.
        subst k. reflexivity. }
      subst P. reflexivity.
  - apply Hfixed; [cbn; lia |].
    unfold is_int64, min_int64, max_int64. cbn. lia.
Defined.

(** C2 as it is worded fails. At a sample rate of 25610 Hz the product
    with 0.02 is 512.2; the code drops the fraction and settles on 512,
    which is below 512.2, where the smallest power of two that is at
    least 512.2 is 1024. With a configured size the product [B x C] is
    not exact once it leaves the range of [int]. *)
Lemma C2_fraction_dropped :
  let cfg := Examples.withAudio 25610%float 2 0 in
  targetSamples cfg = 512
  /\ PrimFloat.ltb (of_int 512)
                   (PrimFloat.mul (SampleRate (Audio cfg)) targetLatency) = true
  /\ calculateOptimalBufferSize 64 cfg = Some (512 * 2)
  /\ Design.autoBufferSize cfg = Some (1024 * 2)
  /\ calculateOptimalBufferSize 64 (Examples.withAudio 48000%float 4 (2 ^ 62))
     = Some 0.
Proof. vm_compute. repeat split; reflexivity. Qed.

(** A sample rate whose target exceeds [2 ^ 62] keeps the rounding loop
    running for ever. *)
Lemma buffer_size_never_computed (fuel : nat) :
  calculateOptimalBufferSize fuel (Examples.withAudio 3e20%float 2 0) = None.
Proof.
  unfold calculateOptimalBufferSize. cbn [BufferSize Audio Examples.withAudio].
  change (0 <? 0) with false. cbv iota.
  assert (Ht : targetSamples (Examples.withAudio 3e20%float 2 0)
               = 6000000000000000000) by (vm_compute; reflexivity).
  rewrite Ht.
  pose proof (roundUpLoop_diverges 6000000000000000000 62 fuel 0) as Hloop.
  change (2 ^ 0) with 1 in Hloop.
  rewrite Hloop; [reflexivity | | lia | reflexivity].
  vm_compute. reflexivity.
Qed.

End BufferSize.

(** ** The immediate broadcaster *)

Section ImmediateBroadcaster.
Import TCPServer.

Lemma alter_lookup_Some {A : Type} (f : A -> A) (m : gmap nat A) (i : nat) (x : A) :
  m !! i = Some x -> alter f i m = <[i := f x]> m.
Proof.
  intros Hx. apply map_eq. intros j.
  destruct (decide (i = j)) as [-> | Hne].
  - rewrite lookup_alter_eq, lookup_insert_eq, Hx. reflexivity.
  - rewrite lookup_alter_ne, lookup_insert_ne by assumption. reflexivity.
Qed.

Lemma alter_lookup_None {A : Type} (f : A -> A) (m : gmap nat A) (i : nat) :
  m !! i = None -> alter f i m = m.
Proof.
  intros Hx. apply map_eq. intros j.
  destruct (decide (i = j)) as [-> | Hne].
  - rewrite lookup_alter_eq, Hx. reflexivity.
  - rewrite lookup_alter_ne by assumption. reflexivity.
Qed.

(** One turn of the loop of [Broadcast] at a known connection. *)
Lemma visit_known (c : nat) (data : list Z) (w : world) (k : conn) :
  conns w !! c = Some k ->
  exists t',
    Write c data (SetWriteDeadline c (now w + 2000) w)
    = (willAccept k,
       mkWorld t' (<[c := visited data (now w + 2000) k]> (conns w))).
Proof.
  intros Hk. unfold Write, SetWriteDeadline. cbn [conns now].
  rewrite (alter_lookup_Some _ _ _ _ Hk), lookup_insert_eq.
  cbn [closed remote writeDeadline received].
  unfold visited, willAccept.
  destruct (closed k); cbn [negb andb].
  - eexists. reflexivity.
  - destruct (remote k) as [delay |].
    + destruct (Z.ltb_spec (now w + 2000) (now w + delay));
        destruct (Z.leb_spec delay 2000); try lia.
      * eexists. reflexivity.
      * eexists. rewrite insert_insert_eq. reflexivity.
    + eexists. reflexivity.
Qed.

Lemma visit_unknown (c : nat) (data : list Z) (w : world) :
  conns w !! c = None ->
  Write c data (SetWriteDeadline c (now w + 2000) w) = (false, w).
Proof.
  intros Hk. unfold Write, SetWriteDeadline. cbn [conns now].
  rewrite (alter_lookup_None _ _ _ Hk), Hk. destruct w; reflexivity.
Qed.

Lemma willAccept_visited (data : list Z) (deadline : Z) (k : conn) :
  willAccept (visited data deadline k) = willAccept k.
Proof. reflexivity. Qed.

(** The loop of [Broadcast] over clients that are all different: the
    clients whose write fails are collected in order, every client that
    is visited and accepts receives the data once, and nothing else
    changes. *)
Lemma broadcastLoop_spec (order : list nat) (data : list Z) :
  forall (w : world) (failed0 : list nat),
    NoDup order ->
    exists w',
      broadcastLoop order data w failed0
      = (w', failed0 ++ List.filter (fun c => negb (writable w c)) order)
      /\ forall c k,
          conns w !! c = Some k ->
          exists k',
            conns w' !! c = Some k'
            /\ remote k' = remote k /\ closed k' = closed k
            /\ received k'
               = if decide (c ∈ order)
                 then (if willAccept k then received k ++ [data] else received k)
                 else received k.
Proof.
  induction order as [| c0 rest IH]; intros w failed0 Hnd.
  - exists w. cbn [broadcastLoop List.filter]. rewrite app_nil_r.
    split; [reflexivity |]. intros c k Hk. exists k.
    rewrite decide_False by (apply not_elem_of_nil). auto.
  - apply NoDup_cons in Hnd. destruct Hnd as [Hfresh Hnd].
    cbn [broadcastLoop List.filter].
    destruct (conns w !! c0) as [k0 |] eqn:Hk0.
    + assert (Hw0 : writable w c0 = willAccept k0)
        by (unfold writable; rewrite Hk0; reflexivity).
      rewrite Hw0.
      destruct (visit_known c0 data w k0 Hk0) as (t' & ->).
      set (w2 := mkWorld t' (<[c0 := visited data (now w + 2000) k0]> (conns w))).
      destruct (IH w2 (if willAccept k0 then failed0 else failed0 ++ [c0]) Hnd)
        as (w' & Hloop & Hconns).
      exists w'. split.
      * rewrite Hloop. f_equal.
        assert (Hext : List.filter (fun c => negb (writable w2 c)) rest
                       = List.filter (fun c => negb (writable w c)) rest).
        { apply List.filter_ext_in. intros c Hin. unfold writable, w2.
          cbn [conns].
          destruct (decide (c0 = c)) as [-> | Hne].
          - rewrite lookup_insert_eq, Hk0. reflexivity.
          - rewrite lookup_insert_ne by assumption. reflexivity. }
        rewrite Hext.
        destruct (willAccept k0); cbn [negb]; [reflexivity |].
        rewrite <- app_assoc. reflexivity.
      * intros c k Hk.
        destruct (decide (c = c0)) as [-> | Hne].
        -- assert (k = k0) by congruence. subst k.
           destruct (Hconns c0 (visited data (now w + 2000) k0))
             as (k' & Hk' & Hr & Hc & Hrec).
           { unfold w2. cbn [conns]. apply lookup_insert_eq. }
           exists k'. rewrite decide_False in Hrec by assumption.
           rewrite decide_True by (apply elem_of_cons; left; reflexivity).
           repeat split; assumption.
        -- destruct (Hconns c k) as (k' & Hk' & Hr & Hc & Hrec).
           { unfold w2. cbn [conns]. rewrite lookup_insert_ne by congruence.
             exact Hk. }
           exists k'. repeat split; try assumption.
           rewrite Hrec.
           destruct (decide (c ∈ rest)) as [Hin | Hout].
           ++ rewrite decide_True by (apply elem_of_cons; right; exact Hin).
              reflexivity.
           ++ rewrite decide_False; [reflexivity |].
              rewrite elem_of_cons. intros [? | ?]; contradiction.
    + assert (Hw0 : writable w c0 = false)
        by (unfold writable; rewrite Hk0; reflexivity).
      rewrite Hw0, (visit_unknown c0 data w Hk0).
      destruct (IH w (failed0 ++ [c0]) Hnd) as (w' & Hloop & Hconns).
      exists w'. split.
      * rewrite Hloop. cbn [negb]. rewrite <- app_assoc. reflexivity.
      * intros c k Hk.
        destruct (Hconns c k Hk) as (k' & Hk' & Hr & Hc & Hrec).
        exists k'. repeat split; try assumption.
        rewrite Hrec.
        assert (c <> c0) by congruence.
        destruct (decide (c ∈ rest)) as [Hin | Hout].
        -- rewrite decide_True by (apply elem_of_cons; right; exact Hin).
           reflexivity.
        -- rewrite decide_False; [reflexivity |].
           rewrite elem_of_cons. intros [? | ?]; contradiction.
Qed.

(** The goroutine started by [Broadcast]: the failed clients leave the
    set and their connections are closed; nothing else changes. *)
Lemma cleanupClients_spec (failedClients : list nat) :
  forall (ts : t) (w : world),
    exists ts' w',
      cleanupClients failedClients ts w = (ts', w')
      /\ clients ts' = clients ts ∖ list_to_set failedClients
      /\ forall c k,
          conns w !! c = Some k ->
          exists k',
            conns w' !! c = Some k'
            /\ remote k' = remote k /\ received k' = received k
            /\ closed k' = if decide (c ∈ failedClients) then true else closed k.
Proof.
  induction failedClients as [| c0 rest IH]; intros ts w.
  - exists ts, w. cbn [cleanupClients]. split; [reflexivity |].
    split; [cbn [list_to_set]; rewrite difference_empty_L; reflexivity |].
    intros c k Hk. exists k.
    rewrite decide_False by (apply not_elem_of_nil). auto.
  - cbn [cleanupClients].
    destruct (IH (mk (clients ts ∖ {[ c0 ]}) (isRunning ts)) (Close c0 w))
      as (ts' & w' & Heq & Hcl & Hconns).
    exists ts', w'. split; [exact Heq |]. split.
    + rewrite Hcl. cbn [clients list_to_set].
      apply difference_difference_l_L.
    + intros c k Hk.
      destruct (decide (c = c0)) as [-> | Hne].
      * destruct (Hconns c0 (mkConn (remote k) (writeDeadline k) (received k) true))
          as (k' & Hk' & Hr & Hrec & Hc).
        { unfold Close. cbn [conns].
          rewrite (alter_lookup_Some _ _ _ _ Hk). apply lookup_insert_eq. }
        exists k'. rewrite decide_True by (apply elem_of_cons; left; reflexivity).
        cbn in Hr, Hrec, Hc. repeat split; try assumption.
        destruct (decide (c0 ∈ rest)); assumption.
      * destruct (Hconns c k) as (k' & Hk' & Hr & Hrec & Hc).
        { unfold Close. cbn [conns]. rewrite lookup_alter_ne by congruence.
          exact Hk. }
        exists k'. repeat split; try assumption. rewrite Hc.
        destruct (decide (c ∈ rest)) as [Hin | Hout].
        -- rewrite decide_True by (apply elem_of_cons; right; exact Hin).
           reflexivity.
        -- rewrite decide_False; [reflexivity |].
           rewrite elem_of_cons. intros [? | ?]; contradiction.
Qed.

(** C7: one call of [Broadcast] on a set that contains a client [A]
    whose write succeeds and a client [B] whose write returns an error or
    runs past the deadline of two seconds delivers the frame to [A] and
    marks [B] as failed; the goroutine the call starts then removes [B]
    from the set and closes its connection, and leaves [A] registered and
    open. This holds for every order in which the map of clients is
    ranged over. A call on an empty set does nothing. *)
Theorem C7_failure_isolation (ts : t) (w : world) (order : list nat)
        (data : list Z) (A B : nat) (kA kB : conn)
        (Horder : order ≡ₚ elements (clients ts))
        (HA : A ∈ clients ts) (HB : B ∈ clients ts)
        (HkA : conns w !! A = Some kA) (HkB : conns w !! B = Some kB)
        (HokA : willAccept kA = true) (HbadB : willAccept kB = false) :
  (exists w1 failedClients ts' w2 kA1 kA2 kB2,
      Broadcast order data ts w = (w1, Some failedClients)
      /\ B ∈ failedClients /\ (A ∉ failedClients)
      /\ conns w1 !! A = Some kA1
      /\ received kA1 = received kA ++ [data]
      /\ cleanupClients failedClients ts w1 = (ts', w2)
      /\ (B ∉ clients ts') /\ A ∈ clients ts'
      /\ conns w2 !! B = Some kB2 /\ closed kB2 = true
      /\ received kB2 = received kB
      /\ conns w2 !! A = Some kA2 /\ closed kA2 = false
      /\ received kA2 = received kA ++ [data])
  /\ (forall ts0 order0 data0 w0,
         clients ts0 = ∅ -> Broadcast order0 data0 ts0 w0 = (w0, None)).
Proof.
  split.
  - assert (Hnd : NoDup order) by (rewrite Horder; apply NoDup_elements).
    assert (HinA : A ∈ order) by (rewrite Horder; apply elem_of_elements, HA).
    assert (HinB : B ∈ order) by (rewrite Horder; apply elem_of_elements, HB).
    destruct (broadcastLoop_spec order data w [] Hnd) as (w1 & Hloop & Hconns).
    cbn [app] in Hloop.
    set (failed := List.filter (fun c => negb (writable w c)) order) in *.
    assert (HBf : B ∈ failed).
    { apply list_elem_of_In, List.filter_In. split.
      - apply list_elem_of_In, HinB.
      - unfold writable. rewrite HkB, HbadB. reflexivity. }
    assert (HAf : A ∉ failed).
    { intros Hin. apply list_elem_of_In, List.filter_In in Hin.
      destruct Hin as [_ Hin]. unfold writable in Hin.
      rewrite HkA, HokA in Hin. discriminate. }
    destruct (Hconns A kA HkA) as (kA1 & HkA1 & HrA1 & HcA1 & HrecA1).
    rewrite decide_True, HokA in HrecA1 by exact HinA.
    destruct (Hconns B kB HkB) as (kB1 & HkB1 & HrB1 & HcB1 & HrecB1).
    rewrite decide_True, HbadB in HrecB1 by exact HinB.
    destruct (cleanupClients_spec failed ts w1)
      as (ts' & w2 & Hclean & Hcl & Hconns2).
    destruct (Hconns2 A kA1 HkA1) as (kA2 & HkA2 & _ & HrecA2 & HcA2).
    rewrite decide_False in HcA2 by exact HAf.
    destruct (Hconns2 B kB1 HkB1) as (kB2 & HkB2 & _ & HrecB2 & HcB2).
    rewrite decide_True in HcB2 by exact HBf.
    exists w1, failed, ts', w2, kA1, kA2, kB2.
    unfold Broadcast. rewrite Hloop.
    assert (Hsize : (size (clients ts) =? 0)%nat = false).
    { apply Nat.eqb_neq. intros Hz. apply size_empty_iff in Hz.
      rewrite Hz in HA. apply (not_elem_of_empty (C := gset nat)) in HA. exact HA. }
    rewrite Hsize.
    assert (Hlen : (0 <? length failed)%nat = true).
    { apply Nat.ltb_lt. destruct failed; [| cbn; lia].
      apply not_elem_of_nil in HBf. contradiction. }
    rewrite Hlen.
    assert (HopenA : closed kA = false).
    { unfold willAccept in HokA. destruct (closed kA); [discriminate | reflexivity]. }
    repeat split; try assumption.
    + rewrite Hcl. rewrite elem_of_difference, elem_of_list_to_set.
      intros [_ Hout]. contradiction.
    + rewrite Hcl. rewrite elem_of_difference, elem_of_list_to_set.
      split; assumption.
    + congruence.
    + congruence.
    + congruence.
  - intros ts0 order0 data0 w0 Hempty. unfold Broadcast.
    rewrite Hempty, size_empty. reflexivity.
Qed.

Lemma C7_failure_isolation_witness :
  let w := mkWorld 0 (<[1%nat := mkConn (Accepts 5) None [] false]>
                        (<[2%nat := mkConn Broken None [] false]> ∅)) in
  let ts := addClient 1 (addClient 2 NewTCPServer) in
  exists w1 kA, (Broadcast [2; 1]%nat [7; 7] ts w).1 = w1
                /\ conns w1 !! 1%nat = Some kA /\ received kA = [[7; 7]].
Proof.
  intros w ts.
  assert (Horder : [2; 1]%nat ≡ₚ elements (clients ts)) by (vm_compute; reflexivity).
  assert (HA : 1%nat ∈ clients ts)
    by (apply elem_of_elements; vm_compute; repeat constructor).
  assert (HB : 2%nat ∈ clients ts)
    by (apply elem_of_elements; vm_compute; repeat constructor).
  destruct (C7_failure_isolation ts w [2; 1]%nat [7; 7] 1%nat 2%nat
              (mkConn (Accepts 5) None [] false) (mkConn Broken None [] false)
              Horder HA HB eq_refl eq_refl eq_refl eq_refl)
    as [(w1 & f & ts' & w2 & kA1 & kA2 & kB2 & Hb & _ & _ & HkA & Hrec & _) _].
  exists w1, kA1. rewrite Hb. repeat split; assumption.
Defined.

Example failure_isolation_run :
  let w := mkWorld 0 (<[1%nat := mkConn (Accepts 5) None [] false]>
                        (<[2%nat := mkConn (Accepts 2500) None [] false]> ∅)) in
  let ts := addClient 1 (addClient 2 NewTCPServer) in
  let '(ts', w') := BroadcastAndCleanup [2; 1]%nat [7; 7] ts w in
  elements (clients ts') = [1%nat]
  /\ received <$> (conns w' !! 1%nat) = Some [[7; 7]]
  /\ closed <$> (conns w' !! 2%nat) = Some true
  /\ now w' = 2005.
Proof. vm_compute. repeat split; reflexivity. Qed.

End ImmediateBroadcaster.

(** ** The backlog of the buffered broadcaster *)

Section Backlog.
Import HTTPServer.

Lemma length_bufferAudioData (data : list Z) (hs : t) :
  0 <= bufferSize hs ->
  audioBuffer (bufferAudioData data hs)
  = drop (length (audioBuffer hs) + 1 - Z.to_nat (bufferSize hs))
         (audioBuffer hs ++ [data]).
Proof.
  intros Hb. unfold bufferAudioData; simpl.
  rewrite length_app; simpl.
  destruct (Z.ltb_spec (bufferSize hs)
              (Z.of_nat (length (audioBuffer hs) + 1))) as [Hlt | Hge].
  - f_equal. lia.
  - replace (length (audioBuffer hs) + 1 - Z.to_nat (bufferSize hs))%nat
      with 0%nat by lia.
    reflexivity.
Qed.

Lemma Broadcast_backlog (order : list nat) (data : list Z) (hs : t)
      (ws : gmap nat writer) :
  (Broadcast order data hs ws).1.1 = bufferAudioData data hs.
Proof.
  unfold Broadcast.
  destruct (broadcastHTTPStream order data hs ws); reflexivity.
Qed.

(** The backlog is the tail of everything that was ever dispatched. *)
Lemma dispatchAll_tail (frames : list (list Z)) :
  forall (hs : t) (history : list (list Z)),
    bufferSize hs = 50 ->
    audioBuffer hs = drop (length history - 50) history ->
    audioBuffer (dispatchAll frames hs)
    = drop (length (history ++ frames) - 50) (history ++ frames).
Proof.
  induction frames as [| data frames IH]; intros hs history Hb Hh.
  - rewrite app_nil_r. exact Hh.
  - unfold dispatchAll; simpl. rewrite Broadcast_backlog.
    fold (dispatchAll frames (bufferAudioData data hs)).
    rewrite (IH _ (history ++ [data])).
    + rewrite <- app_assoc. reflexivity.
    + exact Hb.
    + rewrite length_bufferAudioData by lia.
      rewrite Hb, Hh, length_drop, length_app; simpl.
      destruct (Nat.le_gt_cases (length history) 50) as [Hle | Hgt].
      * replace (length history - 50)%nat with 0%nat by lia.
        rewrite drop_0. f_equal. lia.
      * rewrite <- drop_app_le by lia. rewrite drop_drop. f_equal. lia.
Qed.

Lemma dispatchAll_new (cfg : Config) (frames : list (list Z)) :
  audioBuffer (dispatchAll frames (NewHTTPServer cfg))
  = drop (length frames - 50) frames.
Proof.
  apply (dispatchAll_tail frames (NewHTTPServer cfg) []); reflexivity.
Qed.

(** C5: after any dispatch the backlog holds at most 50 entries, the
    newest last and the oldest evicted first, whatever the set of
    clients; after 51 dispatches without clients it holds exactly the
    frames 2 to 51, in order. *)
Theorem C5_backlog_ring_buffer (hs : t) (H50 : bufferSize hs = 50) :
  (forall order data ws,
      let hs' := (Broadcast order data hs ws).1.1 in
      (length (audioBuffer hs') <= 50)%nat
      /\ bufferSize hs' = 50
      /\ audioBuffer hs'
         = drop (length (audioBuffer hs) + 1 - 50) (audioBuffer hs ++ [data])
      /\ last (audioBuffer hs') = Some data)
  /\ (forall cfg frames,
         audioBuffer (dispatchAll frames (NewHTTPServer cfg))
         = drop (length frames - 50) frames)
  /\ (forall cfg first rest,
         length rest = 50%nat ->
         let backlog :=
           audioBuffer (dispatchAll (first :: rest) (NewHTTPServer cfg)) in
         length backlog = 50%nat /\ backlog = rest).
Proof.
  split; [| split].
  - intros order data ws hs'. subst hs'. rewrite Broadcast_backlog.
    assert (Hbuf := length_bufferAudioData data hs ltac:(lia)).
    rewrite H50 in Hbuf. change (Z.to_nat 50) with 50%nat in Hbuf.
    rewrite Hbuf. repeat split.
    + rewrite length_drop, length_app; simpl. lia.
    + exact H50.
    + rewrite drop_app_le by lia. apply last_snoc.
  - apply dispatchAll_new.
  - intros cfg first rest Hlen backlog. subst backlog.
    rewrite dispatchAll_new. simpl length. rewrite Hlen.
    split; [exact Hlen | reflexivity].
Qed.

Lemma C5_backlog_ring_buffer_witness :
  let hs := dispatchAll [[1]; [2]] (NewHTTPServer defaultConfig) in
  bufferSize hs = 50
  /\ audioBuffer (Broadcast [] [3] hs ∅).1.1 = [[1]; [2]; [3]].
Proof.
  split; [reflexivity |].
  destruct (C5_backlog_ring_buffer
              (dispatchAll [[1]; [2]] (NewHTTPServer defaultConfig))
              eq_refl) as [H _].
  destruct (H [] [3] ∅) as (_ & _ & Heq & _).
  exact Heq.
Defined.

End Backlog.

(** ** The buffered broadcaster: greeting a new client *)

Section Greeting.
Import GoInt GoFloat HTTPServer.

Lemma writeAll_alive (chunks : list (list Z)) :
  forall w : writer,
    gone w = false ->
    writeAll chunks w
    = mkWriter false (flusher w) (out w ++ map Wrote chunks).
Proof.
  unfold writeAll.
  induction chunks as [| data chunks IH]; intros w Halive.
  - cbn. rewrite app_nil_r. destruct w; cbn in *; congruence.
  - cbn [fold_left map]. unfold wWrite at 2. rewrite Halive. cbn [snd].
    rewrite IH by reflexivity. cbn [flusher out].
    rewrite <- app_assoc. reflexivity.
Qed.

Lemma wFlush_alive (w : writer) :
  gone w = false -> flusher w = true ->
  wFlush w = mkWriter false true (out w ++ [Flushed]).
Proof.
  intros Halive Hfl. unfold wFlush. rewrite Halive, Hfl. reflexivity.
Qed.

(** Everything [handleWavStream] sends before it registers the client. *)
Lemma greet_alive (hs : t) (w : writer) :
  gone w = false -> flusher w = true ->
  greet hs w
  = mkWriter false true
      (out w ++ responseHeaders
       ++ map Wrote (wavHeaderWrites (config hs)) ++ [Flushed]
       ++ map Wrote (audioBuffer hs) ++ [Flushed]).
Proof.
  intros Halive Hfl. unfold greet, sendBufferedAudio, writeWAVHeader, wSetHeader.
  cbn [flusher out gone].
  rewrite (writeAll_alive (wavHeaderWrites (config hs))) by exact Halive.
  cbn [flusher out gone]. rewrite Hfl.
  rewrite (wFlush_alive (mkWriter false true _)) by reflexivity.
  cbn [flusher out gone].
  rewrite (writeAll_alive (audioBuffer hs)) by reflexivity.
  cbn [flusher out gone].
  rewrite wFlush_alive by reflexivity. cbn [flusher out gone].
  f_equal. unfold responseHeaders. rewrite <- !app_assoc. reflexivity.
Qed.

Lemma body_app (o1 o2 : list output) : body (o1 ++ o2) = body o1 ++ body o2.
Proof. unfold body. apply flat_map_app. Qed.

Lemma body_Wrote (chunks : list (list Z)) : body (map Wrote chunks) = concat chunks.
Proof.
  induction chunks as [| d chunks IH]; [reflexivity |].
  cbn [map concat]. change (body (Wrote d :: map Wrote chunks))
    with (d ++ body (map Wrote chunks)). rewrite IH. reflexivity.
Qed.

(** The loop of [broadcastHTTPStream] over clients that are all
    different, seen from one writer: when it is visited and has not gone
    it gets the data and a flush; otherwise it is left as it was. *)
Lemma streamLoop_spec (order : list nat) (data : list Z) :
  forall (ws : gmap nat writer) (failed0 : list nat),
    NoDup order ->
    exists ws' failed,
      broadcastLoop order data ws failed0 = (ws', failed)
      /\ forall c wr,
          ws !! c = Some wr ->
          ws' !! c
          = Some (if decide (c ∈ order)
                  then (if gone wr then wr else wFlush (wWrite data wr).2)
                  else wr).
Proof.
  induction order as [| c0 rest IH]; intros ws failed0 Hnd.
  - exists ws, failed0. split; [reflexivity |]. intros c wr Hc.
    rewrite decide_False by (apply not_elem_of_nil). exact Hc.
  - apply NoDup_cons in Hnd. destruct Hnd as [Hfresh Hnd].
    cbn [broadcastLoop].
    assert (Hmem : forall c, c <> c0 ->
               forall (X : Type) (a b : X),
                 (if decide (c ∈ c0 :: rest) then a else b)
                 = (if decide (c ∈ rest) then a else b)).
    { intros c Hne X a b.
      destruct (decide (c ∈ rest)) as [Hin | Hout].
      - rewrite decide_True by (apply elem_of_cons; right; exact Hin). reflexivity.
      - rewrite decide_False; [reflexivity |].
        rewrite elem_of_cons. intros [? | ?]; contradiction. }
    destruct (ws !! c0) as [w0 |] eqn:Hw0.
    + unfold wWrite at 1. destruct (gone w0) eqn:Hgone.
      * destruct (IH ws (failed0 ++ [c0]) Hnd) as (ws' & failed & Hloop & Hws).
        exists ws', failed. split; [exact Hloop |]. intros c wr Hc.
        rewrite (Hws c wr Hc).
        destruct (decide (c = c0)) as [-> | Hne].
        -- assert (wr = w0) by congruence. subst wr.
           rewrite decide_False by exact Hfresh.
           rewrite decide_True by (apply elem_of_cons; left; reflexivity).
           rewrite Hgone. reflexivity.
        -- rewrite Hmem by exact Hne. reflexivity.
      * match goal with |- context [broadcastLoop rest data ?m failed0] =>
          destruct (IH m failed0 Hnd) as (ws' & failed & Hloop & Hws) end.
        exists ws', failed. split; [exact Hloop |]. intros c wr Hc.
        destruct (decide (c = c0)) as [-> | Hne].
        -- assert (wr = w0) by congruence. subst wr.
           erewrite Hws by (apply lookup_insert_eq).
           rewrite decide_False by exact Hfresh.
           rewrite decide_True by (apply elem_of_cons; left; reflexivity).
           unfold wWrite. rewrite Hgone. reflexivity.
        -- erewrite Hws by (rewrite lookup_insert_ne by congruence; exact Hc).
           rewrite Hmem by exact Hne. reflexivity.
    + destruct (IH ws (failed0 ++ [c0]) Hnd) as (ws' & failed & Hloop & Hws).
      exists ws', failed. split; [exact Hloop |]. intros c wr Hc.
      rewrite (Hws c wr Hc). rewrite Hmem by congruence. reflexivity.
Qed.

(** A registered client that is still there receives a live frame as one
    write followed by a flush. *)
Lemma Broadcast_live (order : list nat) (data : list Z) (hs : t)
      (ws : gmap nat writer) (w : nat) (wr : writer) :
  order ≡ₚ elements (streamClients hs) ->
  w ∈ streamClients hs ->
  ws !! w = Some wr -> gone wr = false -> flusher wr = true ->
  (Broadcast order data hs ws).1.2 !! w
  = Some (mkWriter false true (out wr ++ [Wrote data; Flushed])).
Proof.
  intros Horder Hin Hw Halive Hfl.
  assert (Hnd : NoDup order) by (rewrite Horder; apply NoDup_elements).
  assert (Hino : w ∈ order) by (rewrite Horder; apply elem_of_elements, Hin).
  unfold Broadcast, broadcastHTTPStream.
  assert (Hsize : (size (streamClients hs) =? 0)%nat = false).
  { apply Nat.eqb_neq. intros Hz. apply size_empty_iff in Hz.
    rewrite Hz in Hin. apply (not_elem_of_empty (C := gset nat)) in Hin.
    exact Hin. }
  rewrite Hsize.
  destruct (streamLoop_spec order data ws [] Hnd) as (ws' & failed & Hloop & Hws).
  rewrite Hloop.
  assert (Hres : ws' !! w
                 = Some (mkWriter false true (out wr ++ [Wrote data; Flushed]))).
  { rewrite (Hws w wr Hw), decide_True, Halive by exact Hino.
    unfold wWrite. rewrite Halive. cbn [snd].
    rewrite wFlush_alive by (cbn; first [assumption | reflexivity]).
    cbn [out]. rewrite <- app_assoc. reflexivity. }
  destruct (0 <? length failed)%nat; exact Hres.
Qed.

(** C3, as the code has it: a client that connects is sent the response
    headers, the WAV header and a flush, then the whole backlog from the
    oldest entry to the newest, and one flush after the last entry (not
    one per entry); only then is it added to the set of live clients. A
    client that connects after [N <= 50] frames were dispatched therefore
    receives exactly these frames, in order, before any live frame, and
    each later live frame as one write and one flush. *)
Theorem C3_late_joiner_replay_amended (hs : t) (ws : gmap nat writer)
        (w : nat) (wr : writer)
        (Hw : ws !! w = Some wr) (Halive : gone wr = false)
        (Hfl : flusher wr = true) :
  let hs' := (handleWavStream w hs ws).1 in
  let ws' := (handleWavStream w hs ws).2 in
  let greeted :=
    mkWriter false true
      (out wr ++ responseHeaders
       ++ map Wrote (wavHeaderWrites (config hs)) ++ [Flushed]
       ++ map Wrote (audioBuffer hs) ++ [Flushed]) in
  ws' !! w = Some greeted
  /\ body (out greeted)
     = body (out wr) ++ concat (wavHeaderWrites (config hs))
       ++ concat (audioBuffer hs)
  /\ streamClients hs' = {[ w ]} ∪ streamClients hs
  /\ audioBuffer hs' = audioBuffer hs
  /\ (forall order data,
         order ≡ₚ elements (streamClients hs') ->
         (Broadcast order data hs' ws').1.2 !! w
         = Some (mkWriter false true (out greeted ++ [Wrote data; Flushed])))
  /\ (forall cfg frames,
         (length frames <= 50)%nat ->
         audioBuffer (dispatchAll frames (NewHTTPServer cfg)) = frames).
Proof.
  intros hs' ws' greeted.
  assert (Hgreeted : ws' !! w = Some greeted).
  { subst ws' greeted. unfold handleWavStream. cbn [snd].
    rewrite lookup_alter_eq, Hw. cbn [fmap option_fmap option_map].
    rewrite greet_alive by assumption. reflexivity. }
  split; [exact Hgreeted |]. split; [| split; [| split; [| split]]].
  - subst greeted. cbn [out].
    rewrite !body_app, !body_Wrote. cbn [body flat_map responseHeaders app].
    rewrite app_nil_r. reflexivity.
  - reflexivity.
  - reflexivity.
  - intros order data Horder.
    apply (Broadcast_live order data hs' ws' w greeted Horder);
      [| exact Hgreeted | reflexivity | reflexivity].
    subst hs'. unfold handleWavStream, addStreamClient. cbn [fst streamClients].
    apply elem_of_union_l, elem_of_singleton. reflexivity.
  - intros cfg frames Hlen. rewrite dispatchAll_new.
    replace (length frames - 50)%nat with 0%nat by lia. reflexivity.
Qed.

Lemma C3_late_joiner_replay_amended_witness :
  let hs := dispatchAll [[1; 0]; [2; 0]] (NewHTTPServer defaultConfig) in
  let ws : gmap nat writer := {[ 7%nat := mkWriter false true [] ]} in
  exists wr,
    (handleWavStream 7 hs ws).2 !! 7%nat = Some wr
    /\ body (out wr) = concat (wavHeaderWrites defaultConfig) ++ [1; 0; 2; 0].
Proof.
  intros hs ws.
  destruct (C3_late_joiner_replay_amended hs ws 7%nat (mkWriter false true [])
              eq_refl eq_refl eq_refl) as (Hgreeted & Hbody & _).
  eexists. split; [exact Hgreeted | exact Hbody].
Defined.

(** C3 as it is worded fails: the backlog is not flushed entry by entry.
    With two frames in the backlog the replay is two writes and one
    flush. *)
Lemma C3_replay_flushes_once :
  let hs := dispatchAll [[1; 0]; [2; 0]] (NewHTTPServer defaultConfig) in
  let replay := out (sendBufferedAudio hs (mkWriter false true [])) in
  replay = [Wrote [1; 0]; Wrote [2; 0]; Flushed]
  /\ Design.replayFlushingEach (audioBuffer hs)
     = [Wrote [1; 0]; Flushed; Wrote [2; 0]; Flushed]
  /\ replay <> Design.replayFlushingEach (audioBuffer hs).
Proof.
  cbv zeta. split; [reflexivity |]. split; [reflexivity |]. discriminate.
Qed.

End Greeting.

(** ** The streaming WAV header *)

Section WavHeader.
Import GoInt GoFloat HTTPServer.

(** The byte that the code extracts with a shift and a mask. *)
Lemma byte_mask_shift (x n : Z) :
  0 <= n -> byte (Z.land (Z.shiftr x n) 255) = (x / 2 ^ n) mod 256.
Proof.
  intros Hn. unfold byte.
  change 255 with (Z.ones 8).
  rewrite Z.land_ones by lia. rewrite Z.shiftr_div_pow2 by lia.
  change (2 ^ 8) with 256. apply Z.mod_mod. lia.
Qed.

Lemma byte_mask (x : Z) : byte (Z.land x 255) = x mod 256.
Proof.
  rewrite <- (Z.shiftr_0_r x) at 1. rewrite byte_mask_shift by lia.
  rewrite Z.pow_0_r, Z.div_1_r. reflexivity.
Qed.

(** The four bytes written for a 32-bit field. *)
Lemma four_bytes (v : Z) :
  [byte (Z.land v 255); byte (Z.land (Z.shiftr v 8) 255);
   byte (Z.land (Z.shiftr v 16) 255); byte (Z.land (Z.shiftr v 24) 255)]
  = Design.le32 v.
Proof.
  rewrite byte_mask, !byte_mask_shift by lia. reflexivity.
Qed.

(** The two bytes written for a 16-bit field: the low byte and a zero. *)
Lemma two_bytes (v : Z) : 0 <= v < 256 -> [byte v; 0] = Design.le16 v.
Proof.
  intros Hv. unfold Design.le16, byte.
  rewrite (Z.div_small v 256) by lia. reflexivity.
Qed.

(** C9, for the configurations whose fields fit: a channel count of at
    most 127 (so that the block alignment fits the one byte the code
    writes for it), and an integer part of the sample rate and a byte
    rate below 2^32. The header written on connect is the 44-byte
    streaming WAV header: RIFF and WAVE markers, a 16-byte PCM format
    chunk (format 1, the channel count, the integer part of the sample
    rate, byte rate = rate x channels x 2, block alignment = channels x 2,
    16 bits), the data marker, and both sizes at 2^32 - 1. It is written
    once, before any audio byte. A sample rate configured as a whole
    number is its own integer part. *)
Theorem C9_wav_header_amended (cfg : Config)
        (Hch : 0 <= Channels (Audio cfg) <= 127)
        (Hsr : 0 <= to_int (SampleRate (Audio cfg)) < 2 ^ 32)
        (Hbr : to_int (SampleRate (Audio cfg)) * Channels (Audio cfg) * 2 < 2 ^ 32) :
  let header := Design.wavHeader (Channels (Audio cfg))
                                 (to_int (SampleRate (Audio cfg))) in
  concat (wavHeaderWrites cfg) = header
  /\ length header = 44%nat
  /\ (forall hs w,
         config hs = cfg -> gone w = false -> flusher w = true ->
         body (out (greet hs w))
         = body (out w) ++ header ++ concat (audioBuffer hs))
  /\ (forall R,
         SampleRate (Audio cfg) = of_int R -> 0 <= R < 2 ^ 32 ->
         header = Design.wavHeader (Channels (Audio cfg)) R).
Proof.
  intros header.
  assert (Hwhole : forall R,
             SampleRate (Audio cfg) = of_int R -> 0 <= R < 2 ^ 32 ->
             header = Design.wavHeader (Channels (Audio cfg)) R).
  { intros R HR Hrange. subst header. rewrite HR.
    rewrite to_int_of_int; [reflexivity |].
    assert (2 ^ 32 < 2 ^ 53) by (apply Z.pow_lt_mono_r; lia). lia. }
  assert (Hheader : concat (wavHeaderWrites cfg) = header).
  { subst header. unfold wavHeaderWrites, Design.wavHeader.
    set (sr := to_int (SampleRate (Audio cfg))) in *.
    set (ch := Channels (Audio cfg)) in *.
    assert (Hsrch : 0 <= sr * ch) by nia.
    rewrite (int64_small (sr * ch))
      by in_range.
    rewrite (int64_small (sr * ch * 16))
      by in_range.
    rewrite (int64_small (ch * 16))
      by in_range.
    rewrite !Z.quot_div_nonneg by lia.
    replace (sr * ch * 16 / 8) with (sr * ch * 2)
      by (replace (sr * ch * 16) with (sr * ch * 2 * 8) by lia;
          rewrite Z.div_mul by lia; reflexivity).
    replace (ch * 16 / 8) with (ch * 2)
      by (replace (ch * 16) with (ch * 2 * 8) by lia;
          rewrite Z.div_mul by lia; reflexivity).
    rewrite !four_bytes, !two_bytes by lia.
    reflexivity. }
  split; [exact Hheader |]. split; [reflexivity |]. split; [| exact Hwhole].
  intros hs w Hcfg Halive Hfl.
  rewrite greet_alive by assumption. cbn [out].
  rewrite !body_app, !body_Wrote, Hcfg, Hheader.
  cbn [body flat_map responseHeaders app]. rewrite app_nil_r. reflexivity.
Qed.

Lemma C9_wav_header_amended_witness :
  concat (wavHeaderWrites defaultConfig) = Design.wavHeader 2 48000.
Proof.
  assert (Hch : 0 <= Channels (Audio defaultConfig) <= 127) by (cbn; lia).
  assert (Hsr : 0 <= to_int (SampleRate (Audio defaultConfig)) < 2 ^ 32)
    by (vm_compute; split; [discriminate | reflexivity]).
  assert (Hbr : to_int (SampleRate (Audio defaultConfig))
                * Channels (Audio defaultConfig) * 2 < 2 ^ 32)
    by (vm_compute; reflexivity).
  exact (proj1 (C9_wav_header_amended defaultConfig Hch Hsr Hbr)).
Defined.

(** C9 as it is worded fails for a large channel count: with 200
    channels the block alignment is 400, but the code writes its low byte
    and a zero, so the field reads 144. *)
Lemma C9_block_align_200_channels :
  let cfg := Examples.withAudio 48000%float 200 0 in
  take 2 (drop 32 (concat (wavHeaderWrites cfg))) = [144; 0]
  /\ Design.le16 (200 * 2) = [144; 1]
  /\ concat (wavHeaderWrites cfg) <> Design.wavHeader 200 48000.
Proof.
  cbv zeta. split; [vm_compute; reflexivity |]. split; [reflexivity |].
  vm_compute. discriminate.
Qed.

End WavHeader.

(** ** The bytes of the stream decode to the processed samples *)

Section WireFormat.
Import GoInt GoFloat AudioCapture.

(** The two bytes of a sample, read back. *)
Lemma sampleOf_bytes (s : Z) :
  Wire.sampleOf (byte (Z.land s 255)) (byte (Z.land (Z.shiftr s 8) 255))
  = int16 s.
Proof.
  unfold Wire.sampleOf. rewrite byte_mask, byte_mask_shift by lia.
  change (2 ^ 8) with 256.
  rewrite <- (Z.rem_mul_r s 256 256) by lia.
  unfold int16, wrap. change (2 ^ 16) with (256 * 256).
  rewrite Zplus_mod_idemp_l. reflexivity.
Qed.

Lemma decode_int16ToBytes (buffer : list Z) :
  Wire.decode (int16ToBytes buffer) = map int16 buffer.
Proof.
  induction buffer as [| s buffer IH]; [reflexivity |].
  cbn [int16ToBytes flat_map app Wire.decode map].
  rewrite sampleOf_bytes. f_equal. exact IH.
Qed.

Lemma length_int16ToBytes (buffer : list Z) :
  length (int16ToBytes buffer) = (2 * length buffer)%nat.
Proof.
  induction buffer as [| s buffer IH]; [reflexivity |].
  cbn [int16ToBytes flat_map app length]. fold (int16ToBytes buffer).
  rewrite IH. lia.
Qed.

Lemma bytes_int16ToBytes (buffer : list Z) :
  Forall (fun b => 0 <= b < 256) (int16ToBytes buffer).
Proof.
  induction buffer as [| s buffer IH]; [constructor |].
  cbn [int16ToBytes flat_map app].
  constructor; [apply Z.mod_pos_bound; lia |].
  constructor; [apply Z.mod_pos_bound; lia |]. exact IH.
Qed.

Lemma decode_encoded (cfg : Config) (frame : list Z) :
  Wire.decode (encoded cfg frame) = processAudioData cfg frame.
Proof.
  unfold encoded. rewrite decode_int16ToBytes. unfold processAudioData.
  rewrite map_map. apply map_ext. intros s.
  unfold processSample, to_int16.
  apply int16_small, int16_range.
Qed.

(** X1. What the callback receives for a frame is two bytes per sample,
    each of them a byte, and reading the bytes back two by two, low byte
    first, as signed 16-bit numbers gives exactly the samples that
    [processAudioData] computed, in order. *)
Theorem stream_decodes_to_processed_samples (cfg : Config) (frame : list Z) :
  Wire.decode (encoded cfg frame) = processAudioData cfg frame
  /\ length (encoded cfg frame) = (2 * length frame)%nat
  /\ Forall (fun b => 0 <= b < 256) (encoded cfg frame).
Proof.
  split; [apply decode_encoded |]. unfold encoded. split.
  - rewrite length_int16ToBytes. unfold processAudioData.
    rewrite length_map. reflexivity.
  - apply bytes_int16ToBytes.
Qed.

End WireFormat.

(** ** The statistics and the dispatch of the capture loop *)

Section CaptureStatistics.
Import GoInt AudioCapture.

(** What one iteration does to the two frame counters. *)
Lemma iteration_counts (c : cycle) (ac : t) (l : locals) :
  exists ctl ac' l' evs,
    iteration c ac l = (ctl, ac', l', evs)
    /\ sameSetup ac ac'
    /\ match read c with
       | None =>
           frameCount ac' = frameCount ac /\ silenceCount ac' = silenceCount ac
       | Some _ =>
           ctl = Continue
           /\ frameCount ac' = int64 (frameCount ac + 1)
           /\ (silenceCount ac' = silenceCount ac
               \/ (SilenceDetection (Processing (config ac)) = true
                   /\ silenceCount ac' = int64 (silenceCount ac + 1)))
       end.
Proof.
  destruct (read c) as [frame |] eqn:Hread.
  - destruct (SilenceDetection (Processing (config ac))) eqn:Hdet.
    + destruct (isSilence (config ac) frame) eqn:Hsil.
      * destruct (iteration_silent c ac l frame Hdet Hread Hsil)
          as (ac' & l' & evs & Hit & Hset & Hf & Hs & _).
        exists Continue, ac', l', evs.
        split; [exact Hit |]. split; [exact Hset |].
        split; [reflexivity |]. split; [exact Hf |].
        right. split; [reflexivity | exact Hs].
      * destruct (iteration_loud c ac l frame Hdet Hread Hsil)
          as (ac' & l' & evs & Hit & Hset & Hf & Hs & _).
        exists Continue, ac', l', evs.
        split; [exact Hit |]. split; [exact Hset |].
        split; [reflexivity |]. split; [exact Hf |].
        left. exact Hs.
    + unfold iteration. rewrite Hread, Hdet. cbv zeta.
      match goal with |- context [processAndSend ?d ?a ?b] =>
        destruct (processAndSend_spec d a b)
          as (ac' & l' & evs & -> & Hc & _ & Hd & Hr & Ha & Hf & Hs & _) end.
      exists Continue, ac', l', evs.
      split; [reflexivity |]. split; [| split; [reflexivity | split]].
      * unfold sameSetup. rewrite Hc, Hd, Hr, Ha. cbn. repeat split.
      * rewrite Hf. reflexivity.
      * left. rewrite Hs. reflexivity.
  - pose proof (iteration_sameSetup c ac l) as Hset.
    unfold iteration in *. rewrite Hread in *. cbv zeta in *.
    destruct (10 <? _); eexists _, _, _, _;
      (split; [reflexivity |]); (split; [exact Hset |]);
      split; reflexivity.
Qed.

(** The counters over a run of the loop. *)
Lemma loop_counts (cycles : list cycle) :
  forall (ac : t) (l : locals),
    min_int64 <= frameCount ac ->
    frameCount ac + Z.of_nat (length cycles) <= max_int64 ->
    min_int64 <= silenceCount ac ->
    silenceCount ac + Z.of_nat (length cycles) <= max_int64 ->
    let o := loop cycles ac l in
    frameCount ac <= frameCount (capture o)
      <= frameCount ac + Z.of_nat (length (framesRead cycles))
    /\ (exited o = false ->
        frameCount (capture o)
        = frameCount ac + Z.of_nat (length (framesRead cycles)))
    /\ 0 <= silenceCount (capture o) - silenceCount ac
         <= frameCount (capture o) - frameCount ac
    /\ (SilenceDetection (Processing (config ac)) = false ->
        silenceCount (capture o) = silenceCount ac).
Proof.
  induction cycles as [| c cycles IH]; intros ac l Hf0 Hf1 Hs0 Hs1.
  - cbn [loop framesRead flat_map length].
    destruct (isRunning ac); cbn [capture exited]; repeat split; lia.
  - cbn [loop]. destruct (isRunning ac).
    2:{ cbn [capture exited]. repeat split; try lia; discriminate. }
    destruct (iteration_counts c ac l) as (ctl & ac' & l' & evs & -> & Hset & Hc).
    cbn [length] in Hf1, Hs1.
    cbn [framesRead flat_map]. fold (framesRead cycles).
    destruct (read c) as [frame |].
    + destruct Hc as (-> & Hf & Hs).
      rewrite int64_small in Hf by in_range.
      assert (Hs' : silenceCount ac' = silenceCount ac
                    \/ (SilenceDetection (Processing (config ac)) = true
                        /\ silenceCount ac' = silenceCount ac + 1)).
      { destruct Hs as [Hs | (Hd & Hs)]; [left; exact Hs |].
        right. split; [exact Hd |].
        rewrite int64_small in Hs by in_range. exact Hs. }
      cbn [capture exited app length].
      specialize (IH ac' l' ltac:(lia) ltac:(lia) ltac:(lia) ltac:(lia)).
      cbv zeta in IH. destruct IH as (IH1 & IH2 & IH3 & IH4).
      destruct Hset as (Hcfg & _). rewrite Hcfg in IH4.
      split; [lia |]. split; [intros He; specialize (IH2 He); lia |].
      split; [lia |].
      intros Hd. rewrite (IH4 Hd).
      destruct Hs' as [Hs' | (Hd' & _)]; [exact Hs' | congruence].
    + destruct Hc as (Hf & Hs). cbn [app].
      destruct ctl; cbn [capture exited].
      * specialize (IH ac' l' ltac:(lia) ltac:(lia) ltac:(lia) ltac:(lia)).
        cbv zeta in IH. destruct IH as (IH1 & IH2 & IH3 & IH4).
        destruct Hset as (Hcfg & _). rewrite Hcfg in IH4.
        split; [lia |]. split; [intros He; specialize (IH2 He); lia |].
        split; [lia |]. intros Hd. rewrite (IH4 Hd). exact Hs.
      * split; [lia |]. split; [discriminate |]. split; [lia |].
        intros _. exact Hs.
Qed.

(** X2. The statistics that [GetStats] reports after any run of the
    capture loop, for counters that stay in the range of [int64]: the
    frame count has grown by at most the number of successful reads, and
    by exactly that number unless the loop was left; the silence count
    never decreases and never grows by more than the frame count; with
    silence detection disabled it does not move at all. *)
Theorem statistics_of_a_run (cycles : list cycle) (ac : t)
        (Hframes : 0 <= frameCount ac
                   /\ frameCount ac + Z.of_nat (length cycles) <= max_int64)
        (Hsilence : 0 <= silenceCount ac
                    /\ silenceCount ac + Z.of_nat (length cycles) <= max_int64) :
  let '(frames, _, silence) := GetStats (capture (processAudio cycles ac)) in
  frameCount ac <= frames <= frameCount ac + Z.of_nat (length (framesRead cycles))
  /\ (exited (processAudio cycles ac) = false ->
      frames = frameCount ac + Z.of_nat (length (framesRead cycles)))
  /\ 0 <= silence - silenceCount ac <= frames - frameCount ac
  /\ (SilenceDetection (Processing (config ac)) = false ->
      silence = silenceCount ac).
Proof.
  unfold GetStats, processAudio.
  apply loop_counts; unfold min_int64; lia.
Qed.

Lemma statistics_of_a_run_witness :
  let ac := Examples.running defaultConfig in
  let cycles := [Examples.readOk Examples.silentFrame; Examples.readFails;
                 Examples.readOk Examples.loudFrame] in
  let '(frames, _, silence) := GetStats (capture (processAudio cycles ac)) in
  0 <= frames <= 2 /\ 0 <= silence <= frames.
Proof.
  intros ac cycles.
  pose proof (statistics_of_a_run cycles ac
                ltac:(cbn; unfold max_int64; lia)
                ltac:(cbn; unfold max_int64; lia)) as H.
  destruct (GetStats (capture (processAudio cycles ac))) as [[frames bytes] silence].
  change (frameCount ac) with 0 in H. change (silenceCount ac) with 0 in H.
  change (Z.of_nat (length (framesRead cycles))) with 2 in H.
  destruct H as (H1 & _ & H3 & _). split; lia.
Defined.

(** An iteration whose frame is not held back as silent. *)
Lemma iteration_audible (c : cycle) (ac : t) (l : locals) (frame : list Z) :
  read c = Some frame ->
  (SilenceDetection (Processing (config ac)) && isSilence (config ac) frame)
  = false ->
  exists ac' l' evs,
    iteration c ac l = (Continue, ac', l', evs)
    /\ sameSetup ac ac'
    /\ callbacks evs
       = (if dataCallback ac then [encoded (config ac) frame] else [])
    /\ sleeps evs = []
    /\ bytesSent ac'
       = int64 (bytesSent ac + Z.of_nat (length (encoded (config ac) frame))).
Proof.
  intros Hread Haud.
  destruct (SilenceDetection (Processing (config ac))) eqn:Hdet.
  - cbn [andb] in Haud.
    destruct (iteration_loud c ac l frame Hdet Hread Haud)
      as (ac' & l' & evs & Hit & Hset & _ & _ & _ & _ & Hsl & Hcb & Hb).
    exists ac', l', evs. repeat split; try assumption; apply Hset.
  - unfold iteration. rewrite Hread, Hdet. cbv zeta.
    match goal with |- context [processAndSend ?d ?a ?b] =>
      destruct (processAndSend_spec d a b)
        as (ac' & l' & evs & -> & Hc & _ & Hd & Hr & Ha & _ & _ & Hb & _ & _
            & Hcb & Hsl) end.
    exists ac', l', evs. split; [reflexivity |].
    split; [unfold sameSetup; rewrite Hc, Hd, Hr, Ha; cbn; repeat split |].
    split; [exact Hcb |]. split; [exact Hsl |]. exact Hb.
Qed.

(** A run of the loop over frames none of which is held back. *)
Lemma loop_audible (cycles : list cycle) (ac : t) (l : locals)
        (Hrun : isRunning ac = true) (Hcb : dataCallback ac = true)
        (Haudible : Forall (audibleRead (config ac)) cycles) :
  let o := loop cycles ac l in
  exited o = false
  /\ callbacks (trace o) = map (encoded (config ac)) (framesRead cycles)
  /\ sleeps (trace o) = [].
Proof.
  revert ac l Hrun Hcb Haudible.
  induction cycles as [| c cycles IH]; intros ac l Hrun Hcb Haud.
  - cbn [loop]. rewrite Hrun. cbn. auto.
  - inversion Haud as [| ? ? (frame & Hread & Hfr) Hrest]; subst.
    cbn [loop]. rewrite Hrun.
    destruct (iteration_audible c ac l frame Hread Hfr)
      as (ac' & l' & evs & -> & Hset & Hcbs & Hsl & _).
    destruct Hset as (Hcfg & Hdc & Hr & _).
    rewrite <- Hcfg in Hrest.
    specialize (IH ac' l' ltac:(congruence) ltac:(congruence) Hrest).
    cbv zeta in IH. destruct IH as (IH1 & IH2 & IH3).
    cbn [exited trace]. split; [exact IH1 |].
    rewrite callbacks_app, sleeps_app, Hcbs, Hsl, IH2, IH3, Hcb, Hcfg.
    cbn [framesRead flat_map]. rewrite Hread. split; reflexivity.
Qed.

(** X3. While no frame is held back as silent (silence detection is
    disabled, or no frame is silent) and no read fails, the loop runs on
    and hands every frame that was read to the callback, encoded, once
    and in the order of the reads. *)
Theorem audible_frames_all_dispatched (cycles : list cycle) (ac : t) (l : locals)
        (Hrun : isRunning ac = true) (Hcb : dataCallback ac = true)
        (Haudible : Forall (audibleRead (config ac)) cycles) :
  let o := loop cycles ac l in
  exited o = false
  /\ callbacks (trace o) = map (encoded (config ac)) (framesRead cycles)
  /\ sleeps (trace o) = [].
Proof. exact (loop_audible cycles ac l Hrun Hcb Haudible). Qed.

Lemma audible_frames_all_dispatched_witness :
  let cfg := Examples.withProcessing false 1000 1%float 28000 in
  let quiet := Examples.readOk Examples.silentFrame in
  callbacks (trace (processAudio (repeat quiet 40) (Examples.running cfg)))
  = repeat (encoded cfg Examples.silentFrame) 40.
Proof.
  intros cfg quiet.
  assert (Hq : audibleRead cfg quiet)
    by (exists Examples.silentFrame; split; reflexivity).
  assert (Hall : Forall (audibleRead cfg) (repeat quiet 40)).
  { cbn [repeat]. repeat (constructor; [exact Hq |]). constructor. }
  exact (proj1 (proj2 (audible_frames_all_dispatched (repeat quiet 40)
                         (Examples.running cfg) initLocals
                         eq_refl eq_refl Hall))).
Defined.

(** A burst of at most ten failed reads, then a successful one. *)
Lemma loop_recovered (burst : list cycle) (ac : t) (l : locals) :
  isRunning ac = true ->
  consecutiveErrors l = 0 ->
  recovered burst ->
  let o := loop burst ac l in
  exited o = false
  /\ sameSetup ac (capture o)
  /\ consecutiveErrors (vars o) = 0
  /\ sleeps (trace o) = repeat 10 (length burst - 1).
Proof.
  intros Hrun Hce (failures & c & frame & -> & Hfail & Hlen & Hread).
  cbv zeta. rewrite loop_app.
  rewrite (loop_failures failures ac l Hrun Hfail) by lia.
  cbn [exited capture vars trace].
  cbn [loop]. rewrite Hrun.
  destruct (iteration_read_ok c ac
              (mkLocals (bytesTransferred l) (silenceFrames l)
                        (consecutiveErrors l + Z.of_nat (length failures)))
              frame Hread)
    as (ac' & l' & evs & -> & Hset & Hzero & Hsl).
  assert (Hrun' : isRunning ac' = true).
  { destruct Hset as (_ & _ & Hr & _). congruence. }
  rewrite Hrun'. cbn [exited capture vars trace].
  split; [reflexivity |]. split; [exact Hset |]. split; [exact Hzero |].
  rewrite sleeps_app, sleeps_failures, sleeps_app, Hsl.
  rewrite length_app. cbn [length sleeps flat_map app].
  rewrite app_nil_r. f_equal. lia.
Qed.

(** X4. Only consecutive failures count: however many reads fail in
    all, the loop is not left as long as every burst of failures has at
    most ten of them and a successful read follows it; the loop sleeps
    10 ms once for each failed read. *)
Theorem transient_failures_recover (bursts : list (list cycle)) (ac : t)
        (l : locals)
        (Hrun : isRunning ac = true) (Hce : consecutiveErrors l = 0)
        (Hbursts : Forall recovered bursts) :
  let o := loop (concat bursts) ac l in
  exited o = false
  /\ consecutiveErrors (vars o) = 0
  /\ sleeps (trace o)
     = repeat 10 (length (concat bursts) - length bursts).
Proof.
  revert ac l Hrun Hce Hbursts.
  induction bursts as [| burst bursts IH]; intros ac l Hrun Hce Hall.
  - cbn [concat loop]. rewrite Hrun. cbn. auto.
  - inversion Hall as [| ? ? Hb Hrest]; subst.
    cbn [concat]. cbv zeta. rewrite loop_app. cbv zeta.
    destruct (loop_recovered burst ac l Hrun Hce Hb) as (He & Hset & Hz & Hsl).
    rewrite He.
    assert (Hrun' : isRunning (capture (loop burst ac l)) = true).
    { destruct Hset as (_ & _ & Hr & _). congruence. }
    specialize (IH _ _ Hrun' Hz Hrest). cbv zeta in IH.
    destruct IH as (IH1 & IH2 & IH3).
    cbn [exited vars trace]. split; [exact IH1 |]. split; [exact IH2 |].
    rewrite sleeps_app, Hsl, IH3, <- repeat_app. f_equal.
    rewrite length_app. cbn [length].
    assert (1 <= length burst)%nat.
    { destruct Hb as (f & c & fr & -> & _). rewrite length_app. cbn. lia. }
    assert (length bursts <= length (concat bursts))%nat.
    { clear -Hrest. induction Hrest as [| b bs Hb _ IHr]; [cbn; lia |].
      cbn [concat length]. rewrite length_app.
      destruct Hb as (f & c & fr & -> & _). rewrite length_app. cbn. lia. }
    lia.
Qed.

Lemma transient_failures_recover_witness :
  let burst := repeat Examples.readFails 10
               ++ [Examples.readOk Examples.loudFrame] in
  exited (processAudio (concat [burst; burst; burst])
                       (Examples.running defaultConfig)) = false.
Proof.
  intros burst.
  assert (Hb : recovered burst).
  { exists (repeat Examples.readFails 10), (Examples.readOk Examples.loudFrame),
      Examples.loudFrame.
    split; [reflexivity |]. split; [| split; [cbn; lia | reflexivity]].
    cbn [repeat]. repeat (constructor; [reflexivity |]). constructor. }
  exact (proj1 (transient_failures_recover [burst; burst; burst]
                  (Examples.running defaultConfig) initLocals eq_refl eq_refl
                  ltac:(repeat (constructor; [exact Hb |]); constructor))).
Defined.

End CaptureStatistics.

(** ** Stretches of silence *)

Section SilentStretches.
Import GoInt AudioCapture.

(** Which frames of a silent stretch reach the callback. *)
Lemma loop_silent_frames (cycles : list cycle) :
  forall (ac : t) (l : locals),
    SilenceDetection (Processing (config ac)) = true ->
    isRunning ac = true ->
    dataCallback ac = true ->
    Forall (silentRead (config ac)) cycles ->
    0 <= silenceFrames l ->
    silenceFrames l + Z.of_nat (length cycles) <= max_int64 ->
    let o := loop cycles ac l in
    exited o = false
    /\ sameSetup ac (capture o)
    /\ silenceFrames (vars o) = silenceFrames l + Z.of_nat (length cycles)
    /\ callbacks (trace o)
       = map (encoded (config ac))
             (take (Z.to_nat (30 - silenceFrames l)) (framesRead cycles)).
Proof.
  induction cycles as [| c cycles IH]; intros ac l Hdet Hrun Hcb Hall Hk Hmax.
  - cbn [loop length framesRead flat_map]. rewrite Hrun.
    cbn [exited capture vars trace callbacks flat_map].
    rewrite take_nil. unfold sameSetup. cbn [map].
    repeat split; try reflexivity. lia.
  - inversion Hall as [| ? ? (frame & Hread & Hsil) Hrest]; subst.
    destruct (iteration_silent c ac l frame Hdet Hread Hsil)
      as (ac' & l' & evs & Heq & Hset & _ & _ & Hsf & _ & _ & Hskip & Hnorm).
    pose proof Hset as (Hcfg & Hdc & Hr & _).
    cbn [length] in Hmax.
    rewrite int64_small in Hsf by in_range.
    specialize (IH ac' l').
    rewrite Hcfg, Hr, Hdc in IH.
    specialize (IH Hdet Hrun Hcb Hrest ltac:(lia) ltac:(lia)).
    cbv zeta in IH. destruct IH as (Hex & Hset2 & Hsf2 & Hcb2).
    cbn [loop]. rewrite Hrun, Heq. cbn [exited capture vars trace].
    split; [exact Hex |].
    split; [eapply sameSetup_trans; eassumption |].
    split; [rewrite Hsf2, Hsf; cbn [length]; lia |].
    rewrite callbacks_app, Hcb2.
    cbn [framesRead flat_map]. rewrite Hread. fold (framesRead cycles).
    cbn [app].
    destruct (Z.le_gt_cases (silenceFrames l') 30) as [Hle | Hgt].
    + destruct (Hnorm Hle) as [-> _]. rewrite Hcb.
      replace (Z.to_nat (30 - silenceFrames l))
        with (S (Z.to_nat (30 - silenceFrames l'))) by lia.
      reflexivity.
    + destruct (Hskip ltac:(lia)) as [-> _].
      replace (Z.to_nat (30 - silenceFrames l)) with 0%nat by lia.
      replace (Z.to_nat (30 - silenceFrames l')) with 0%nat by lia.
      reflexivity.
Qed.

(** X5. Silence, a frame that is not silent, silence again: of each
    silent stretch exactly the first 30 frames reach the callback, the
    frame between them does, and nothing else; the throttle starts anew
    after every frame with sound. *)
Theorem throttle_restarts_after_sound (before after : list cycle) (c : cycle)
        (frame : list Z) (ac : t)
        (Hdet : SilenceDetection (Processing (config ac)) = true)
        (Hrun : isRunning ac = true) (Hcb : dataCallback ac = true)
        (Hbefore : Forall (silentRead (config ac)) before)
        (Hread : read c = Some frame)
        (Hsound : isSilence (config ac) frame = false)
        (Hafter : Forall (silentRead (config ac)) after)
        (Hlen : Z.of_nat (length before) <= max_int64
                /\ Z.of_nat (length after) <= max_int64) :
  callbacks (trace (processAudio (before ++ c :: after) ac))
  = map (encoded (config ac))
        (take 30 (framesRead before) ++ frame :: take 30 (framesRead after)).
Proof.
  unfold processAudio. rewrite loop_app. cbv zeta.
  destruct (loop_silent_frames before ac initLocals Hdet Hrun Hcb Hbefore
              ltac:(cbn; lia) ltac:(cbn; lia))
    as (He & Hset & _ & Hcb1).
  rewrite He. cbn [trace]. rewrite callbacks_app, Hcb1.
  change (Z.to_nat (30 - silenceFrames initLocals)) with 30%nat.
  rewrite map_app. f_equal.
  destruct Hset as (Hcfg & Hdc & Hr & _).
  set (ac1 := capture (loop before ac initLocals)) in *.
  set (l1 := vars (loop before ac initLocals)).
  rewrite <- Hcfg in Hdet, Hsound, Hafter |- *.
  cbn [loop]. rewrite Hr, Hrun.
  destruct (iteration_loud c ac1 l1 frame Hdet Hread Hsound)
    as (ac' & l' & evs & -> & Hset' & _ & _ & Hsf & _ & _ & Hcbs & _).
  destruct Hset' as (Hcfg' & Hdc' & Hr' & _).
  cbn [trace]. rewrite callbacks_app, Hcbs, Hdc, Hcb.
  cbn [app map]. f_equal.
  rewrite <- Hcfg' in Hdet, Hafter |- *.
  destruct (loop_silent_frames after ac' l' Hdet ltac:(congruence)
              ltac:(congruence) Hafter ltac:(lia) ltac:(lia))
    as (_ & _ & _ & ->).
  rewrite Hsf. reflexivity.
Qed.

Lemma throttle_restarts_after_sound_witness :
  let quiet := Examples.readOk Examples.silentFrame in
  let sound := Examples.readOk Examples.loudFrame in
  length (callbacks (trace (processAudio
                              (repeat quiet 35 ++ sound :: repeat quiet 33)
                              (Examples.running defaultConfig))))
  = 61%nat.
Proof.
  intros quiet sound.
  assert (Hq : silentRead defaultConfig quiet)
    by (exists Examples.silentFrame; split; reflexivity).
  assert (H35 : Forall (silentRead defaultConfig) (repeat quiet 35)).
  { cbn [repeat]. repeat (constructor; [exact Hq |]). constructor. }
  assert (H33 : Forall (silentRead defaultConfig) (repeat quiet 33)).
  { cbn [repeat]. repeat (constructor; [exact Hq |]). constructor. }
  rewrite (throttle_restarts_after_sound (repeat quiet 35) (repeat quiet 33)
             sound Examples.loudFrame (Examples.running defaultConfig)
             eq_refl eq_refl eq_refl H35 eq_refl eq_refl H33
             ltac:(cbn; unfold max_int64; lia)).
  reflexivity.
Defined.

End SilentStretches.

(** ** The buffer size of every configuration *)

Section BufferSizes.
Import GoInt GoFloat AudioCapture.

(** Whatever the rounding loop returns is a power of two. *)
Lemma roundUpLoop_pow2 (t : Z) (fuel : nat) :
  forall k p,
    0 <= k <= 62 ->
    roundUpLoop fuel (2 ^ k) t = Some p ->
    exists j, k <= j <= 62 /\ p = 2 ^ j.
Proof.
  induction fuel as [| fuel IH]; intros k p Hk Hloop; [discriminate |].
  destruct (Z.le_gt_cases t (2 ^ 62)) as [Hsmall | Hbig].
  - cbn [roundUpLoop] in Hloop.
    destruct (Z.ltb_spec (2 ^ k) t) as [Hlt | Hge].
    + assert (k < 62).
      { destruct (Z.eq_dec k 62) as [-> | ?]; lia. }
      rewrite double_pow2 in Hloop by lia.
      destruct (IH (k + 1) p ltac:(lia) Hloop) as (j & Hj & ->).
      exists j. split; [lia | reflexivity].
    + injection Hloop as <-. exists k. split; [lia | reflexivity].
  - assert (Hn : 62 - k = Z.of_nat (Z.to_nat (62 - k))).
    { rewrite Z2Nat.id; [reflexivity |]. clear -Hk. lia. }
    rewrite (roundUpLoop_diverges t (Z.to_nat (62 - k)) (S fuel) k Hbig Hk Hn)
      in Hloop.
    discriminate.
Qed.

Lemma clampPowerOfTwo_pow2 (j : Z) :
  0 <= j -> In (clampPowerOfTwo (2 ^ j)) [256; 512; 1024; 2048].
Proof.
  intros Hj. unfold clampPowerOfTwo.
  assert (Hcases : j <= 8 \/ j = 9 \/ j = 10 \/ 11 <= j) by lia.
  destruct Hcases as [Hle | [-> | [-> | Hge]]].
  - assert (2 ^ j <= 2 ^ 8) by (apply Z.pow_le_mono_r; lia).
    change (2 ^ 8) with 256 in *.
    destruct (Z.ltb_spec (2 ^ j) 256); [left; reflexivity |].
    replace (2 ^ j) with 256 by lia. left. reflexivity.
  - right. left. reflexivity.
  - right. right. left. reflexivity.
  - assert (2 ^ 11 <= 2 ^ j) by (apply Z.pow_le_mono_r; lia).
    change (2 ^ 11) with 2048 in *.
    destruct (Z.ltb_spec (2 ^ j) 256); [lia |].
    destruct (Z.ltb_spec 2048 (2 ^ j)).
    + right. right. right. left. reflexivity.
    + replace (2 ^ j) with 2048 by lia. right. right. right. left. reflexivity.
Qed.

(** X6. Without a configured size, whatever the sample rate is (not a
    number and infinite included), a size that
    [calculateOptimalBufferSize] returns is 256, 512, 1024 or 2048
    frames times the channel count, as an [int]. *)
Theorem auto_size_one_of_four (fuel : nat) (cfg : Config) (n : Z)
        (Hauto : BufferSize (Audio cfg) <= 0)
        (Hcalc : calculateOptimalBufferSize fuel cfg = Some n) :
  exists P,
    In P [256; 512; 1024; 2048] /\ n = int64 (P * Channels (Audio cfg)).
Proof.
  unfold calculateOptimalBufferSize in Hcalc.
  destruct (Z.ltb_spec 0 (BufferSize (Audio cfg))); [lia |].
  destruct (roundUpLoop fuel 1 (targetSamples cfg)) as [p |] eqn:Hloop;
    [| discriminate].
  injection Hcalc as <-.
  destruct (roundUpLoop_pow2 (targetSamples cfg) fuel 0 p ltac:(lia) Hloop)
    as (j & Hj & ->).
  exists (clampPowerOfTwo (2 ^ j)).
  split; [apply clampPowerOfTwo_pow2; lia | reflexivity].
Qed.

Lemma auto_size_one_of_four_witness :
  exists P,
    In P [256; 512; 1024; 2048]
    /\ 512 = int64 (P * Channels (Audio (Examples.withAudio nan 2 (-5)))).
Proof.
  apply (auto_size_one_of_four 64 (Examples.withAudio nan 2 (-5)) 512).
  - cbn. lia.
  - vm_compute. reflexivity.
Defined.

(** X7. A configuration that [Validate] accepts has a positive channel
    count and no negative size. When the size it asks for fits an [int],
    [Initialize] returns with a positive buffer size and a zeroed sample
    buffer of exactly that length, provided the 20 ms target is at most
    [2 ^ 62] samples; when a validated configuration without a
    configured size has a larger target, the size computation never
    ends: validation does not bound the sample rate. *)
Theorem validated_config_initializes (srv : Validation.ServerConfig) (ac : t)
        (fuel : nat)
        (Hvalid : Validation.Validate srv (config ac) = None) :
  let cfg := config ac in
  0 < Channels (Audio cfg) /\ 0 <= BufferSize (Audio cfg)
  /\ (Z.max 2048 (BufferSize (Audio cfg)) * Channels (Audio cfg) <= max_int64 ->
      (BufferSize (Audio cfg) = 0 -> targetSamples cfg <= 2 ^ 62) ->
      (63 <= fuel)%nat ->
      exists ac',
        Initialize fuel ac = Some ac'
        /\ 0 < GetActualBufferSize ac'
        /\ buffer ac' = repeat 0 (Z.to_nat (GetActualBufferSize ac')))
  /\ (BufferSize (Audio cfg) = 0 -> 2 ^ 62 < targetSamples cfg ->
      Initialize fuel ac = None).
Proof.
  cbv zeta. unfold Validation.Validate in Hvalid.
  destruct (String.eqb _ _); [discriminate |].
  destruct (String.eqb _ _); [discriminate |].
  destruct (PrimFloat.leb _ _); [discriminate |].
  destruct (Z.leb_spec (Channels (Audio (config ac))) 0) as [| HC];
    [discriminate |].
  destruct (Z.ltb_spec (BufferSize (Audio (config ac))) 0) as [| HB];
    [discriminate |].
  clear Hvalid.
  split; [exact HC |]. split; [exact HB |]. split.
  - intros Hfit Htarget Hfuel. unfold Initialize, calculateOptimalBufferSize.
    destruct (Z.ltb_spec 0 (BufferSize (Audio (config ac)))) as [Hpos | Hzero].
    + rewrite int64_small by (unfold is_int64, min_int64; nia).
      destruct (Z.ltb_spec (BufferSize (Audio (config ac))
                            * Channels (Audio (config ac))) 0); [nia |].
      eexists. split; [reflexivity |].
      unfold GetActualBufferSize. cbn [actualBufferSize buffer].
      split; [nia | reflexivity].
    + destruct (roundUpLoop_spec (targetSamples (config ac)) fuel 0
                  (Htarget ltac:(lia)) ltac:(lia) ltac:(lia)
                  ltac:(intros; lia)) as (P & Hloop & _).
      change (2 ^ 0) with 1 in Hloop. rewrite Hloop.
      assert (256 <= clampPowerOfTwo P <= 2048).
      { unfold clampPowerOfTwo.
        destruct (Z.ltb_spec P 256); destruct (Z.ltb_spec 2048 256);
          destruct (Z.ltb_spec 2048 P); lia. }
      rewrite int64_small by (unfold is_int64, min_int64; nia).
      destruct (Z.ltb_spec (clampPowerOfTwo P * Channels (Audio (config ac))) 0);
        [nia |].
      eexists. split; [reflexivity |].
      unfold GetActualBufferSize. cbn [actualBufferSize buffer].
      split; [nia | reflexivity].
  - intros Hzero Hbig. unfold Initialize, calculateOptimalBufferSize.
    destruct (Z.ltb_spec 0 (BufferSize (Audio (config ac)))); [lia |].
    change 1 with (2 ^ 0).
    rewrite (roundUpLoop_diverges _ 62 fuel 0) by lia.
    reflexivity.
Qed.

Lemma validated_config_initializes_witness :
  let ac := NewAudioCapture defaultConfig in
  (exists ac',
      Initialize 64 ac = Some ac'
      /\ 0 < GetActualBufferSize ac'
      /\ buffer ac' = repeat 0 (Z.to_nat (GetActualBufferSize ac')))
  /\ Initialize 64 (NewAudioCapture (Examples.withAudio 3e20%float 2 0)) = None.
Proof.
  intros ac. split.
  - apply (validated_config_initializes Validation.defaultServer ac 64 eq_refl).
    + cbn. unfold max_int64. lia.
    + intros _. vm_compute. discriminate.
    + lia.
  - apply (validated_config_initializes Validation.defaultServer
             (NewAudioCapture (Examples.withAudio 3e20%float 2 0)) 64 eq_refl).
    + reflexivity.
    + vm_compute. reflexivity.
Defined.

End BufferSizes.

(** ** Unit gain inside the clip threshold *)

Section UnitGain.
Import GoInt GoFloat AudioCapture.

Lemma mul_comm_SF (x y : spec_float) : SF64mul x y = SF64mul y x.
Proof.
  unfold SF64mul.
  destruct x as [sx | sx | | sx mx ex], y as [sy | sy | | sy my ey];
    cbn [SFmul]; try reflexivity; try (rewrite xorb_comm; reflexivity).
  rewrite xorb_comm, Pos.mul_comm, Z.add_comm. reflexivity.
Qed.

Lemma float_mul_one_r (v : float) : PrimFloat.mul v 1%float = v.
Proof.
  rewrite <- (float_mul_one v) at 2.
  apply Prim2SF_inj. rewrite !FloatAxioms.mul_spec. apply mul_comm_SF.
Qed.

(** The float of a natural number below [2 ^ 53]: the number, shifted to
    53 digits. *)
Lemma normalize_shape (p : positive) :
  Zpos p < 2 ^ 53 ->
  exists mz,
    binary_normalize prec emax (Zpos p) 0 false
    = S754_finite false mz (Zpos (digits2_pos p) - 53)
    /\ Zpos mz = Zpos p * 2 ^ (53 - Zpos (digits2_pos p)).
Proof.
  intros Hp. cbn [binary_normalize]. unfold binary_round.
  pose proof (digits2_bounds p) as Hd.
  assert (Hd53 : Zpos (digits2_pos p) <= 53).
  { destruct (Z.le_gt_cases (Zpos (digits2_pos p)) 53) as [? | Hbig]; [assumption |].
    assert (2 ^ 53 <= 2 ^ (Zpos (digits2_pos p) - 1))
      by (apply Z.pow_le_mono_r; lia).
    lia. }
  assert (Hfexp : forall d, 1 <= d <= 53 -> fexp prec emax d = d - 53).
  { intros d Hd'. unfold fexp, SpecFloat.emin.
    change (Z.sub (Z.sub (Zpos 3) emax) prec) with (-1074).
    change prec with 53. lia. }
  rewrite Z.add_0_r, Hfexp by lia.
  assert (Haligned : exists mz ez,
             shl_align p 0 (Zpos (digits2_pos p) - 53) = (mz, ez)
             /\ Zpos (digits2_pos mz) + ez = Zpos (digits2_pos p)
             /\ ez = Zpos (digits2_pos p) - 53
             /\ Zpos mz = Zpos p * 2 ^ (- ez)).
  { unfold shl_align. rewrite Z.sub_0_r.
    destruct (Zpos (digits2_pos p) - 53) as [| q | q] eqn:Hq; try lia.
    - exists p, 0. repeat split; try lia; cbn; lia.
    - exists (Pos.iter xO p q), (Zneg q). repeat split; try lia.
      + rewrite digits_iter_xO. lia.
      + rewrite iter_xO_value. reflexivity. }
  destruct Haligned as (mz & ez & -> & Hdig & Hez & Hmz).
  unfold binary_round_aux.
  assert (Hshr : shr_fexp prec emax (Zpos mz) ez loc_Exact
                 = (Build_shr_record (Zpos mz) false false, ez)).
  { unfold shr_fexp. cbn [Zdigits2]. rewrite Hdig, Hfexp by lia.
    rewrite <- Hez, Z.sub_diag. reflexivity. }
  rewrite Hshr. cbn [shr_m loc_of_shr_record round_nearest_even].
  rewrite Hshr. cbn [shr_m].
  assert (Hle : Z.leb ez (Z.sub emax prec) = true)
    by (apply Z.leb_le; change (Z.sub emax prec) with 971; lia).
  rewrite Hle. exists mz. split; [rewrite Hez; reflexivity |].
  rewrite Hmz. f_equal. f_equal. lia.
Qed.

Lemma digits2_monotone (p q : positive) :
  Zpos p <= Zpos q -> Zpos (digits2_pos p) <= Zpos (digits2_pos q).
Proof.
  intros Hpq.
  pose proof (digits2_bounds p) as Hp. pose proof (digits2_bounds q) as Hq.
  destruct (Z.le_gt_cases (Zpos (digits2_pos p)) (Zpos (digits2_pos q)))
    as [? | Hgt]; [assumption |].
  assert (2 ^ Zpos (digits2_pos q) <= 2 ^ (Zpos (digits2_pos p) - 1))
    by (apply Z.pow_le_mono_r; lia).
  lia.
Qed.

(** The floats of two naturals below [2 ^ 53] are ordered as the
    naturals are, and so are their negations. *)
Lemma normalize_order (p q : positive) :
  Zpos p <= Zpos q -> Zpos q < 2 ^ 53 ->
  let x := binary_normalize prec emax (Zpos p) 0 false in
  let y := binary_normalize prec emax (Zpos q) 0 false in
  SFltb y x = false /\ SFltb (SFopp x) (SFopp y) = false.
Proof.
  intros Hpq Hq. cbv zeta.
  destruct (normalize_shape p ltac:(lia)) as (mp & -> & Hmp).
  destruct (normalize_shape q Hq) as (mq & -> & Hmq).
  pose proof (digits2_monotone p q Hpq) as Hd.
  unfold SFltb. cbn [SFopp negb SFcompare].
  assert (Hm : Zpos (digits2_pos p) = Zpos (digits2_pos q) -> (mp <= mq)%positive).
  { intros Heq. rewrite Heq in Hmp.
    pose proof (digits2_bounds q) as Hbq.
    assert (Zpos (digits2_pos q) <= 53).
    { destruct (Z.le_gt_cases (Zpos (digits2_pos q)) 53) as [? | Hbig];
        [assumption |].
      assert (2 ^ 53 <= 2 ^ (Zpos (digits2_pos q) - 1))
        by (apply Z.pow_le_mono_r; lia).
      lia. }
    assert (0 < 2 ^ (53 - Zpos (digits2_pos q)))
      by (apply Z.pow_pos_nonneg; lia).
    nia. }
  split.
  - destruct (Z.compare_spec (Zpos (digits2_pos q) - 53)
                             (Zpos (digits2_pos p) - 53)) as [Heq | Hlt | Hgt];
      [| lia | reflexivity].
    rewrite Pos.compare_cont_spec. cbn [Pos.switch_Eq].
    destruct (Pos.compare_spec mq mp); try reflexivity.
    specialize (Hm ltac:(lia)). lia.
  - destruct (Z.compare_spec (Zpos (digits2_pos p) - 53)
                             (Zpos (digits2_pos q) - 53)) as [Heq | Hlt | Hgt];
      [| reflexivity | lia].
    rewrite Pos.compare_cont_spec. cbn [Pos.switch_Eq].
    destruct (Pos.compare_spec mp mq); cbn [CompOpp]; try reflexivity.
    specialize (Hm ltac:(lia)). lia.
Qed.

Lemma of_nat_spec (z : Z) :
  0 <= z < 2 ^ 53 ->
  Prim2SF (of_int z) = binary_normalize prec emax z 0 false.
Proof.
  intros Hz. unfold of_int. destruct (Z.ltb_spec z 0); [lia |].
  rewrite of_uint63_spec, Uint63.of_Z_spec, Z.mod_small; [reflexivity |].
  change Uint63.wB with (2 ^ 63). lia.
Qed.

Lemma of_int_opp (z : Z) :
  0 < z -> Prim2SF (of_int (- z)) = SFopp (Prim2SF (of_int z)).
Proof.
  intros Hz. unfold of_int.
  destruct (Z.ltb_spec (- z) 0); [| lia]. destruct (Z.ltb_spec z 0); [lia |].
  rewrite opp_spec, Z.opp_involutive. reflexivity.
Qed.

(** Conversion to a float keeps the order of integers of magnitude
    below [2 ^ 53]. *)
Lemma of_int_monotone (a b : Z) :
  - 2 ^ 53 < a -> a <= b -> b < 2 ^ 53 ->
  SFltb (Prim2SF (of_int b)) (Prim2SF (of_int a)) = false.
Proof.
  intros Ha Hab Hb.
  destruct a as [| p | p], b as [| q | q]; try lia.
  - reflexivity.
  - rewrite (of_nat_spec (Zpos q)) by lia.
    destruct (normalize_shape q Hb) as (mq & -> & _). reflexivity.
  - rewrite (of_nat_spec (Zpos q)), (of_nat_spec (Zpos p)) by lia.
    apply (normalize_order p q); lia.
  - change (Z.neg p) with (- Zpos p). rewrite of_int_opp by lia.
    rewrite (of_nat_spec (Zpos p)) by lia.
    destruct (normalize_shape p ltac:(lia)) as (mp & -> & _). reflexivity.
  - change (Z.neg p) with (- Zpos p). rewrite of_int_opp by lia.
    rewrite (of_nat_spec (Zpos q)), (of_nat_spec (Zpos p)) by lia.
    destruct (normalize_shape p ltac:(lia)) as (mp & -> & _).
    destruct (normalize_shape q Hb) as (mq & -> & _). reflexivity.
  - change (Z.neg p) with (- Zpos p). change (Z.neg q) with (- Zpos q).
    rewrite !of_int_opp by lia.
    rewrite (of_nat_spec (Zpos q)), (of_nat_spec (Zpos p)) by lia.
    apply (normalize_order q p); lia.
Qed.

(** One sample at unit gain, inside the threshold. *)
Lemma processSample_unit_gain (cfg : Config) (s : Z) :
  VolumeMultiplier (Processing cfg) = 1%float ->
  is_int16 s -> is_int16 (ClipThreshold (Processing cfg)) ->
  Z.abs s <= ClipThreshold (Processing cfg) ->
  processSample cfg s = s.
Proof.
  intros Hvol Hs Hclip Habs.
  unfold is_int16, min_int16, max_int16 in Hs, Hclip.
  unfold processSample, processValue. cbv zeta.
  rewrite Hvol, float_mul_one_r, !FloatAxioms.ltb_spec.
  rewrite of_int_monotone by lia.
  assert (Hlow : SFltb (Prim2SF (of_int s))
                       (Prim2SF (PrimFloat.opp
                                   (of_int (ClipThreshold (Processing cfg)))))
                 = false).
  { rewrite opp_spec.
    destruct (Z.eq_dec (ClipThreshold (Processing cfg)) 0) as [Hz | Hnz].
    - rewrite Hz in *. replace s with 0 by lia. reflexivity.
    - rewrite <- of_int_opp by lia. apply of_int_monotone; lia. }
  rewrite Hlow.
  apply to_int16_trunc; [apply trunc_of_int; lia |].
  unfold is_int16, min_int16, max_int16. lia.
Qed.

(** X8. At a volume multiplier of exactly 1, a frame of 16-bit samples
    none of which exceeds the clip threshold in magnitude leaves
    [processAudioData] unchanged, sample for sample. *)
Theorem unit_gain_passes_frames_unchanged (cfg : Config) (frame : list Z)
        (Hvol : VolumeMultiplier (Processing cfg) = 1%float)
        (Hclip : is_int16 (ClipThreshold (Processing cfg)))
        (Hframe : Forall (fun s => is_int16 s
                                   /\ Z.abs s <= ClipThreshold (Processing cfg))
                         frame) :
  processAudioData cfg frame = frame.
Proof.
  unfold processAudioData.
  induction Hframe as [| s frame (Hs & Habs) _ IH]; [reflexivity |].
  cbn [map]. rewrite processSample_unit_gain by assumption.
  f_equal. exact IH.
Qed.

Lemma unit_gain_passes_frames_unchanged_witness :
  processAudioData defaultConfig [-28000; -1; 0; 7; 28000]
  = [-28000; -1; 0; 7; 28000].
Proof.
  apply (unit_gain_passes_frames_unchanged defaultConfig).
  - reflexivity.
  - unfold is_int16, min_int16, max_int16. cbn. lia.
  - repeat (constructor;
            [unfold is_int16, min_int16, max_int16; cbn; lia |]).
    constructor.
Defined.

End UnitGain.

(** ** The raw-stream transport over a series of broadcasts *)

Section ImmediateStream.
Import TCPServer.

Lemma elem_of_failed (w : world) (order : list nat) (c : nat) :
  c ∈ List.filter (fun c => negb (writable w c)) order
  <-> c ∈ order /\ writable w c = false.
Proof.
  rewrite list_elem_of_In, List.filter_In, <- list_elem_of_In.
  rewrite negb_true_iff. reflexivity.
Qed.

(** A call of [Broadcast] and its clean-up, as a whole. *)
Lemma BroadcastAndCleanup_spec (order : list nat) (data : list Z) (ts : t)
      (w : world) :
  order ≡ₚ elements (clients ts) ->
  exists ts' w',
    BroadcastAndCleanup order data ts w = (ts', w')
    /\ (forall c, c ∈ clients ts' <-> c ∈ clients ts /\ writable w c = true)
    /\ forall c k,
        conns w !! c = Some k ->
        exists k',
          conns w' !! c = Some k'
          /\ remote k' = remote k
          /\ received k'
             = (if decide (c ∈ clients ts)
                then (if willAccept k then received k ++ [data] else received k)
                else received k)
          /\ closed k'
             = (if decide (c ∈ clients ts)
                then (if willAccept k then closed k else true)
                else closed k).
Proof.
  intros Horder. unfold BroadcastAndCleanup, Broadcast.
  destruct (size (clients ts) =? 0)%nat eqn:Hsize.
  - apply Nat.eqb_eq, size_empty_iff in Hsize.
    assert (Hnone : forall c, c ∉ clients ts).
    { intros c Hc. rewrite Hsize in Hc.
      apply (not_elem_of_empty (C := gset nat)) in Hc. exact Hc. }
    exists ts, w. split; [reflexivity |]. split.
    + intros c. split; [intros Hc; destruct (Hnone c Hc) | intros [Hc _]; exact Hc].
    + intros c k Hk. exists k. rewrite !decide_False by apply Hnone. auto.
  - assert (Hnd : NoDup order) by (rewrite Horder; apply NoDup_elements).
    assert (Hin : forall c, c ∈ order <-> c ∈ clients ts).
    { intros c. rewrite Horder. apply elem_of_elements. }
    destruct (broadcastLoop_spec order data w [] Hnd) as (w1 & -> & Hconns).
    cbn [app].
    set (failed := List.filter (fun c => negb (writable w c)) order).
    assert (Hfailed : forall c, c ∈ failed
                                <-> c ∈ clients ts /\ writable w c = false).
    { intros c. unfold failed. rewrite elem_of_failed, Hin. reflexivity. }
    destruct (0 <? length failed)%nat eqn:Hlen.
    + destruct (cleanupClients_spec failed ts w1)
        as (ts' & w2 & -> & Hcl & Hconns2).
      exists ts', w2. split; [reflexivity |]. split.
      * intros c. rewrite Hcl, elem_of_difference, elem_of_list_to_set, Hfailed.
        destruct (writable w c); intuition congruence.
      * intros c k Hk.
        destruct (Hconns c k Hk) as (k1 & Hk1 & Hr1 & Hc1 & Hrec1).
        destruct (Hconns2 c k1 Hk1) as (k2 & Hk2 & Hr2 & Hrec2 & Hc2).
        exists k2. split; [exact Hk2 |]. split; [congruence |].
        assert (Hw : writable w c = willAccept k)
          by (unfold writable; rewrite Hk; reflexivity).
        split.
        -- rewrite Hrec2, Hrec1.
           destruct (decide (c ∈ clients ts)) as [Hc | Hc].
           ++ rewrite decide_True by (apply Hin, Hc). reflexivity.
           ++ rewrite decide_False by (rewrite Hin; exact Hc). reflexivity.
        -- rewrite Hc2, Hc1.
           destruct (decide (c ∈ clients ts)) as [Hc | Hc].
           ++ destruct (willAccept k) eqn:Hacc.
              ** rewrite decide_False; [reflexivity |].
                 rewrite Hfailed, Hw. intros [_ ?]. discriminate.
              ** rewrite decide_True; [reflexivity |].
                 rewrite Hfailed, Hw. split; [exact Hc | reflexivity].
           ++ rewrite decide_False; [reflexivity |].
              rewrite Hfailed. intros [? _]. contradiction.
    + assert (Hnil : failed = []).
      { apply Nat.ltb_ge in Hlen. destruct failed; [reflexivity | cbn in Hlen; lia]. }
      exists ts, w1. split; [reflexivity |]. split.
      * intros c. split; [| intros [Hc _]; exact Hc].
        intros Hc. split; [exact Hc |].
        destruct (writable w c) eqn:Hw; [reflexivity |].
        assert (Hf : c ∈ failed) by (apply Hfailed; split; assumption).
        rewrite Hnil in Hf. apply not_elem_of_nil in Hf. contradiction.
      * intros c k Hk.
        destruct (Hconns c k Hk) as (k1 & Hk1 & Hr1 & Hc1 & Hrec1).
        exists k1. split; [exact Hk1 |]. split; [exact Hr1 |].
        assert (Hw : writable w c = willAccept k)
          by (unfold writable; rewrite Hk; reflexivity).
        split.
        -- rewrite Hrec1.
           destruct (decide (c ∈ clients ts)) as [Hc | Hc].
           ++ rewrite decide_True by (apply Hin, Hc). reflexivity.
           ++ rewrite decide_False by (rewrite Hin; exact Hc). reflexivity.
        -- rewrite Hc1.
           destruct (decide (c ∈ clients ts)) as [Hc | Hc]; [| reflexivity].
           destruct (willAccept k) eqn:Hacc; [reflexivity |].
           assert (Hf : c ∈ failed).
           { apply Hfailed. split; [exact Hc | congruence]. }
           rewrite Hnil in Hf. apply not_elem_of_nil in Hf. contradiction.
Qed.

(** An accepting client over a series of broadcasts. *)
Lemma serve_accepting
        (calls : list (list nat * list Z)) (ts : t) (w : world) (A : nat)
        (kA : conn)
        (HA : A ∈ clients ts) (HkA : conns w !! A = Some kA)
        (Hok : willAccept kA = true) (Hfit : ordersFit calls ts w) :
  let '(ts', w') := serve calls ts w in
  A ∈ clients ts'
  /\ exists kA',
      conns w' !! A = Some kA'
      /\ received kA' = received kA ++ map snd calls
      /\ closed kA' = false.
Proof.
  revert ts w kA HA HkA Hok Hfit.
  induction calls as [| [order data] calls IH]; intros ts w kA HA HkA Hok Hfit.
  - cbn [serve map]. split; [exact HA |]. exists kA.
    rewrite app_nil_r. split; [exact HkA |]. split; [reflexivity |].
    unfold willAccept in Hok. destruct (closed kA); [discriminate | reflexivity].
  - cbn [serve]. destruct Hfit as [Horder Hfit].
    destruct (BroadcastAndCleanup_spec order data ts w Horder)
      as (ts1 & w1 & Heq & Hcl & Hconns).
    rewrite Heq in Hfit |- *. cbn [fst snd] in Hfit.
    destruct (Hconns A kA HkA) as (k1 & Hk1 & Hr1 & Hrec1 & Hc1).
    rewrite decide_True, Hok in Hrec1 by exact HA.
    rewrite decide_True, Hok in Hc1 by exact HA.
    assert (HA1 : A ∈ clients ts1).
    { apply Hcl. split; [exact HA |]. unfold writable. rewrite HkA. exact Hok. }
    assert (Hok1 : willAccept k1 = true).
    { unfold willAccept in *. rewrite Hr1, Hc1. exact Hok. }
    specialize (IH ts1 w1 k1 HA1 Hk1 Hok1 Hfit).
    destruct (serve calls ts1 w1) as [ts' w'].
    destruct IH as (HA' & kA' & HkA' & Hrec' & Hc').
    split; [exact HA' |]. exists kA'. split; [exact HkA' |].
    split; [| exact Hc'].
    rewrite Hrec', Hrec1. cbn [map snd]. rewrite <- app_assoc. reflexivity.
Qed.

(** X9. Over any series of broadcasts, each ranging over the clients
    in an order of its own, a registered client whose connection accepts
    writes in time stays registered and open and receives every frame
    exactly once, in the order of the calls, whatever happens to the
    other clients. *)
Theorem accepting_client_receives_all_in_order
        (calls : list (list nat * list Z)) (ts : t) (w : world) (A : nat)
        (kA : conn)
        (HA : A ∈ clients ts) (HkA : conns w !! A = Some kA)
        (Hok : willAccept kA = true) (Hfit : ordersFit calls ts w) :
  let '(ts', w') := serve calls ts w in
  A ∈ clients ts'
  /\ exists kA',
      conns w' !! A = Some kA'
      /\ received kA' = received kA ++ map snd calls
      /\ closed kA' = false.
Proof. exact (serve_accepting calls ts w A kA HA HkA Hok Hfit). Qed.

Lemma accepting_client_receives_all_in_order_witness :
  let w := mkWorld 0 (<[1%nat := mkConn (Accepts 5) None [] false]>
                        (<[2%nat := mkConn Broken None [] false]> ∅)) in
  let ts := addClient 1 (addClient 2 NewTCPServer) in
  let '(ts', w') := serve [([2; 1]%nat, [7; 7]); ([1]%nat, [8]); ([1]%nat, [9])]
                          ts w in
  1%nat ∈ clients ts'
  /\ exists kA',
      conns w' !! 1%nat = Some kA'
      /\ received kA' = [] ++ [[7; 7]; [8]; [9]]
      /\ closed kA' = false.
Proof.
  intros w ts.
  apply (accepting_client_receives_all_in_order
           [([2; 1]%nat, [7; 7]); ([1]%nat, [8]); ([1]%nat, [9])] ts w 1%nat
           (mkConn (Accepts 5) None [] false)).
  - apply elem_of_elements. vm_compute. repeat constructor.
  - reflexivity.
  - reflexivity.
  - vm_compute. repeat split; reflexivity.
Defined.

(** A client that is not registered is left alone by every later
    broadcast. *)
Lemma serve_unregistered (calls : list (list nat * list Z)) :
  forall (ts : t) (w : world) (B : nat) (kB : conn),
    B ∉ clients ts -> conns w !! B = Some kB -> ordersFit calls ts w ->
    (B ∉ (serve calls ts w).1.(clients))
    /\ exists kB',
        conns (serve calls ts w).2 !! B = Some kB'
        /\ received kB' = received kB /\ closed kB' = closed kB.
Proof.
  induction calls as [| [order data] calls IH]; intros ts w B kB HB HkB Hfit.
  - cbn [serve fst snd]. split; [exact HB |]. exists kB. auto.
  - cbn [serve]. destruct Hfit as [Horder Hfit].
    destruct (BroadcastAndCleanup_spec order data ts w Horder)
      as (ts1 & w1 & Heq & Hcl & Hconns).
    rewrite Heq in Hfit |- *. cbn [fst snd] in Hfit.
    destruct (Hconns B kB HkB) as (k1 & Hk1 & _ & Hrec1 & Hc1).
    rewrite decide_False in Hrec1 by exact HB.
    rewrite decide_False in Hc1 by exact HB.
    assert (HB1 : B ∉ clients ts1).
    { intros Hin. apply Hcl in Hin. destruct Hin as [Hin _]. contradiction. }
    destruct (IH ts1 w1 B k1 HB1 Hk1 Hfit) as (Hout & kB' & HkB' & Hrec' & Hc').
    split; [exact Hout |]. exists kB'. split; [exact HkB' |].
    split; congruence.
Qed.

(** X10. A registered client whose write fails at a broadcast (the
    connection is broken, closed, or too slow for the deadline of two
    seconds) is closed and unregistered by the clean-up of that
    broadcast, and no later broadcast of the series writes to it or
    registers it again: it has received nothing new. *)
Theorem failing_client_is_dropped_for_good
        (order : list nat) (data : list Z)
        (calls : list (list nat * list Z)) (ts : t) (w : world) (B : nat)
        (kB : conn)
        (HB : B ∈ clients ts) (HkB : conns w !! B = Some kB)
        (Hbad : willAccept kB = false)
        (Hfit : ordersFit ((order, data) :: calls) ts w) :
  let '(ts', w') := serve ((order, data) :: calls) ts w in
  (B ∉ clients ts')
  /\ exists kB',
      conns w' !! B = Some kB'
      /\ received kB' = received kB
      /\ closed kB' = true.
Proof.
  cbn [serve]. destruct Hfit as [Horder Hfit].
  destruct (BroadcastAndCleanup_spec order data ts w Horder)
    as (ts1 & w1 & Heq & Hcl & Hconns).
  rewrite Heq in Hfit |- *. cbn [fst snd] in Hfit.
  destruct (Hconns B kB HkB) as (k1 & Hk1 & _ & Hrec1 & Hc1).
  rewrite decide_True, Hbad in Hrec1 by exact HB.
  rewrite decide_True, Hbad in Hc1 by exact HB.
  assert (HB1 : B ∉ clients ts1).
  { intros Hin. apply Hcl in Hin. destruct Hin as [_ Hw].
    unfold writable in Hw. rewrite HkB in Hw. congruence. }
  destruct (serve_unregistered calls ts1 w1 B k1 HB1 Hk1 Hfit)
    as (Hout & kB' & HkB' & Hrec' & Hc').
  destruct (serve calls ts1 w1) as [ts' w']. cbn [fst snd] in *.
  split; [exact Hout |]. exists kB'. split; [exact HkB' |].
  split; congruence.
Qed.

Lemma failing_client_is_dropped_for_good_witness :
  let w := mkWorld 0 (<[1%nat := mkConn (Accepts 5) None [] false]>
                        (<[2%nat := mkConn (Accepts 2001) None [] false]> ∅)) in
  let ts := addClient 1 (addClient 2 NewTCPServer) in
  let '(ts', w') := serve [([2; 1]%nat, [7; 7]); ([1]%nat, [8])] ts w in
  (2%nat ∉ clients ts')
  /\ exists kB',
      conns w' !! 2%nat = Some kB' /\ received kB' = [] /\ closed kB' = true.
Proof.
  intros w ts.
  apply (failing_client_is_dropped_for_good [2; 1]%nat [7; 7] [([1]%nat, [8])]
           ts w 2%nat (mkConn (Accepts 2001) None [] false)).
  - apply elem_of_elements. vm_compute. repeat constructor.
  - reflexivity.
  - reflexivity.
  - vm_compute. repeat split; reflexivity.
Defined.

(** The loop of [Stop] closes the connections it ranges over. *)
Lemma closeAll_spec (order : list nat) :
  forall (w : world) (c : nat) (k : conn),
    conns w !! c = Some k ->
    exists k',
      conns (closeAll order w) !! c = Some k'
      /\ remote k' = remote k /\ received k' = received k
      /\ closed k' = if decide (c ∈ order) then true else closed k.
Proof.
  unfold closeAll.
  induction order as [| c0 rest IH]; intros w c k Hk.
  - cbn [fold_left]. exists k. rewrite decide_False by apply not_elem_of_nil.
    auto.
  - cbn [fold_left].
    destruct (decide (c = c0)) as [-> | Hne].
    + destruct (IH (Close c0 w) c0
                  (mkConn (remote k) (writeDeadline k) (received k) true))
        as (k' & Hk' & Hr & Hrec & Hc).
      { unfold Close. cbn [conns]. rewrite lookup_alter_eq, Hk. reflexivity. }
      exists k'. split; [exact Hk' |]. split; [exact Hr |]. split; [exact Hrec |].
      rewrite decide_True by (apply elem_of_cons; left; reflexivity).
      rewrite Hc. cbn [closed]. destruct (decide _); reflexivity.
    + destruct (IH (Close c0 w) c k) as (k' & Hk' & Hr & Hrec & Hc).
      { unfold Close. cbn [conns]. rewrite lookup_alter_ne by congruence.
        exact Hk. }
      exists k'. split; [exact Hk' |]. split; [exact Hr |]. split; [exact Hrec |].
      rewrite Hc.
      destruct (decide (c ∈ rest)) as [Hin | Hout].
      * rewrite decide_True by (apply elem_of_cons; right; exact Hin).
        reflexivity.
      * rewrite decide_False; [reflexivity |].
        intros Hin. apply elem_of_cons in Hin. destruct Hin; contradiction.
Qed.

(** X11. [Stop] leaves no client registered and closes the connection
    of every client that was; what a connection has received stays as it
    was, the connections of others are not touched, and a broadcast
    after [Stop] writes nothing. *)
Theorem Stop_closes_every_client (order : list nat) (ts : t) (w : world)
        (Horder : order ≡ₚ elements (clients ts)) :
  let '(ts', w') := Stop order ts w in
  GetClientCount ts' = 0%nat
  /\ (forall c k,
         conns w !! c = Some k ->
         exists k',
           conns w' !! c = Some k'
           /\ received k' = received k
           /\ closed k' = if decide (c ∈ clients ts) then true else closed k)
  /\ forall order' data, Broadcast order' data ts' w' = (w', None).
Proof.
  unfold Stop. split; [reflexivity |]. split.
  - intros c k Hk.
    destruct (closeAll_spec order w c k Hk) as (k' & Hk' & _ & Hrec & Hc).
    exists k'. split; [exact Hk' |]. split; [exact Hrec |].
    rewrite Hc.
    destruct (decide (c ∈ clients ts)) as [Hin | Hout].
    + rewrite decide_True; [reflexivity |].
      rewrite Horder. apply elem_of_elements, Hin.
    + rewrite decide_False; [reflexivity |].
      rewrite Horder, elem_of_elements. exact Hout.
  - intros order' data. reflexivity.
Qed.

Lemma Stop_closes_every_client_witness :
  let w := mkWorld 0 (<[1%nat := mkConn (Accepts 5) None [[3]] false]>
                        (<[2%nat := mkConn Broken None [] false]> ∅)) in
  let ts := addClient 1 (addClient 2 NewTCPServer) in
  GetClientCount (Stop [2; 1]%nat ts w).1 = 0%nat.
Proof.
  intros w ts.
  assert (Horder : [2; 1]%nat ≡ₚ elements (clients ts))
    by (vm_compute; reflexivity).
  pose proof (Stop_closes_every_client [2; 1]%nat ts w Horder) as H.
  destruct (Stop [2; 1]%nat ts w) as [ts' w']. exact (proj1 H).
Defined.

End ImmediateStream.

(** ** The buffered broadcaster: failed and departed clients *)

Section BufferedStream.
Import GoInt GoFloat HTTPServer.

(** The loop of [broadcastHTTPStream] leaves alone what it does not
    range over. *)
Lemma streamLoop_untouched (order : list nat) (data : list Z) :
  forall (ws : gmap nat writer) (failed0 : list nat) (c : nat),
    c ∉ order -> (broadcastLoop order data ws failed0).1 !! c = ws !! c.
Proof.
  induction order as [| c0 rest IH]; intros ws failed0 c Hc; [reflexivity |].
  apply not_elem_of_cons in Hc. destruct Hc as [Hne Hc].
  cbn [broadcastLoop].
  destruct (ws !! c0) as [w |] eqn:Hw0; [| apply IH, Hc].
  unfold wWrite. destruct (gone w); [apply IH, Hc |].
  rewrite IH by exact Hc. apply lookup_insert_ne. congruence.
Qed.

(** The clients that the loop reports as failed: those whose writer has
    gone, in the order of the iteration. *)
Lemma streamLoop_failed (order : list nat) (data : list Z) :
  forall (ws : gmap nat writer) (failed0 : list nat),
    NoDup order ->
    (broadcastLoop order data ws failed0).2
    = failed0 ++ List.filter (fun c => negb (alive ws c)) order.
Proof.
  induction order as [| c0 rest IH]; intros ws failed0 Hnd.
  - cbn [broadcastLoop List.filter snd]. rewrite app_nil_r. reflexivity.
  - apply NoDup_cons in Hnd. destruct Hnd as [Hfresh Hnd].
    cbn [broadcastLoop List.filter]. unfold alive at 1.
    destruct (ws !! c0) as [w |] eqn:Hw0.
    + unfold wWrite. destruct (gone w) eqn:Hgone; cbn [negb].
      * rewrite IH by exact Hnd. rewrite <- app_assoc. reflexivity.
      * rewrite IH by exact Hnd. f_equal.
        apply List.filter_ext_in. intros c Hc. unfold alive.
        rewrite lookup_insert_ne; [reflexivity |].
        intros ->. apply Hfresh, list_elem_of_In, Hc.
    + cbn [negb]. rewrite IH by exact Hnd. rewrite <- app_assoc. reflexivity.
Qed.

Lemma cleanupStreamClients_spec (failedClients : list nat) :
  forall hs : t,
    streamClients (cleanupStreamClients failedClients hs)
    = streamClients hs ∖ list_to_set failedClients
    /\ audioBuffer (cleanupStreamClients failedClients hs) = audioBuffer hs
    /\ bufferSize (cleanupStreamClients failedClients hs) = bufferSize hs.
Proof.
  unfold cleanupStreamClients.
  induction failedClients as [| c rest IH]; intros hs.
  - cbn [fold_left list_to_set]. rewrite difference_empty_L. auto.
  - cbn [fold_left list_to_set].
    destruct (IH (removeStreamClient c hs)) as (-> & -> & ->).
    cbn [removeStreamClient streamClients audioBuffer bufferSize].
    split; [apply difference_difference_l_L | auto].
Qed.

(** A call of [Broadcast] and its clean-up, as a whole. *)
Lemma streamStep_spec (order : list nat)
        (data : list Z) (hs : t) (ws : gmap nat writer)
        (Horder : order ≡ₚ elements (streamClients hs)) :
  let '(hs', ws') := BroadcastAndCleanup order data hs ws in
  audioBuffer hs' = audioBuffer (bufferAudioData data hs)
  /\ (forall c, c ∈ streamClients hs'
                <-> c ∈ streamClients hs /\ alive ws c = true)
  /\ (forall c wr,
         ws !! c = Some wr ->
         ws' !! c
         = Some (if decide (c ∈ streamClients hs)
                 then (if gone wr then wr
                       else mkWriter false (flusher wr)
                              (out wr ++ Wrote data
                                 :: (if flusher wr then [Flushed] else [])))
                 else wr)).
Proof.
  assert (Hnd : NoDup order) by (rewrite Horder; apply NoDup_elements).
  assert (Hin : forall c, c ∈ order <-> c ∈ streamClients hs).
  { intros c. rewrite Horder. apply elem_of_elements. }
  unfold BroadcastAndCleanup, Broadcast, broadcastHTTPStream.
  destruct (size (streamClients hs) =? 0)%nat eqn:Hsize.
  - apply Nat.eqb_eq, size_empty_iff in Hsize.
    assert (Hnone : forall c, c ∉ streamClients hs).
    { intros c Hc. rewrite Hsize in Hc.
      apply (not_elem_of_empty (C := gset nat)) in Hc. exact Hc. }
    split; [reflexivity |]. split.
    + intros c. cbn [bufferAudioData streamClients].
      split; [intros Hc; destruct (Hnone c Hc) | intros [Hc _]; exact Hc].
    + intros c wr Hc. rewrite decide_False by apply Hnone. exact Hc.
  - pose proof (streamLoop_failed order data ws [] Hnd) as Hfailed.
    destruct (streamLoop_spec order data ws [] Hnd)
      as (ws1 & failed & Hloop & Hws).
    rewrite Hloop in Hfailed |- *. cbn [snd app] in Hfailed.
    assert (Hmem : forall c, c ∈ failed
                             <-> c ∈ streamClients hs /\ alive ws c = false).
    { intros c. rewrite Hfailed, list_elem_of_In, List.filter_In,
        <- list_elem_of_In, Hin, negb_true_iff. reflexivity. }
    assert (Hwriters : forall c wr,
               ws !! c = Some wr ->
               ws1 !! c
               = Some (if decide (c ∈ streamClients hs)
                       then (if gone wr then wr
                             else mkWriter false (flusher wr)
                                    (out wr ++ Wrote data
                                       :: (if flusher wr then [Flushed]
                                           else [])))
                       else wr)).
    { intros c wr Hc. rewrite (Hws c wr Hc).
      destruct (decide (c ∈ streamClients hs)) as [Hreg | Hreg].
      - rewrite decide_True by (apply Hin, Hreg).
        destruct (gone wr) eqn:Hgone; [reflexivity |].
        unfold wWrite, wFlush. rewrite Hgone. cbn [snd flusher gone negb out].
        rewrite andb_true_r.
        destruct (flusher wr); [rewrite <- app_assoc |]; reflexivity.
      - rewrite decide_False by (rewrite Hin; exact Hreg). reflexivity. }
    destruct (0 <? length failed)%nat eqn:Hlen.
    + destruct (cleanupStreamClients_spec failed (bufferAudioData data hs))
        as (Hcl & Hbuf & _).
      split; [exact Hbuf |]. split; [| exact Hwriters].
      intros c. rewrite Hcl. cbn [bufferAudioData streamClients].
      rewrite elem_of_difference, elem_of_list_to_set, Hmem.
      destruct (alive ws c); intuition congruence.
    + assert (Hnil : failed = []).
      { apply Nat.ltb_ge in Hlen. destruct failed; [reflexivity | cbn in Hlen; lia]. }
      split; [reflexivity |]. split; [| exact Hwriters].
      intros c. cbn [bufferAudioData streamClients].
      split; [| intros [Hc _]; exact Hc].
      intros Hc. split; [exact Hc |].
      destruct (alive ws c) eqn:Ha; [reflexivity |].
      assert (Hf : c ∈ failed) by (apply Hmem; split; assumption).
      rewrite Hnil in Hf. apply not_elem_of_nil in Hf. contradiction.
Qed.

(** X12. One broadcast of the buffered transport with its clean-up,
    ranging over the registered clients in any order: the frame enters
    the backlog whatever the clients do; a registered client whose
    writer has not gone gets the frame, and a flush if it can flush; a
    registered client whose writer has gone (or is unknown) is
    unregistered and gets nothing; the others stay registered; writers
    that are not registered are left as they were. *)
Theorem buffered_broadcast_isolates_failures (order : list nat)
        (data : list Z) (hs : t) (ws : gmap nat writer)
        (Horder : order ≡ₚ elements (streamClients hs)) :
  let '(hs', ws') := BroadcastAndCleanup order data hs ws in
  audioBuffer hs' = audioBuffer (bufferAudioData data hs)
  /\ (forall c, c ∈ streamClients hs'
                <-> c ∈ streamClients hs /\ alive ws c = true)
  /\ (forall c wr,
         ws !! c = Some wr ->
         ws' !! c
         = Some (if decide (c ∈ streamClients hs)
                 then (if gone wr then wr
                       else mkWriter false (flusher wr)
                              (out wr ++ Wrote data
                                 :: (if flusher wr then [Flushed] else [])))
                 else wr)).
Proof. exact (streamStep_spec order data hs ws Horder). Qed.

Lemma buffered_broadcast_isolates_failures_witness :
  let ws : gmap nat writer :=
    <[1%nat := mkWriter false true []]> (<[2%nat := mkWriter true true []]> ∅) in
  let hs := addStreamClient 1 (addStreamClient 2 (NewHTTPServer defaultConfig)) in
  let '(hs', ws') := BroadcastAndCleanup [2; 1]%nat [7; 7] hs ws in
  elements (streamClients hs') = [1%nat]
  /\ audioBuffer hs' = [[7; 7]].
Proof.
  intros ws hs.
  assert (Horder : [2; 1]%nat ≡ₚ elements (streamClients hs))
    by (vm_compute; reflexivity).
  pose proof (buffered_broadcast_isolates_failures [2; 1]%nat [7; 7] hs ws
                Horder) as H.
  destruct (BroadcastAndCleanup [2; 1]%nat [7; 7] hs ws) as [hs' ws'] eqn:Heq.
  destruct H as (Hbuf & _). split; [| exact Hbuf].
  injection Heq as <- _. vm_compute. reflexivity.
Defined.

(** X13. A client whose request has ended is unregistered by
    [handleWavStream]; no later broadcast writes to its writer or
    flushes it, whoever else is registered. *)
Theorem departed_client_gets_nothing (w : nat) (hs : t) (ws : gmap nat writer)
        (order : list nat) (data : list Z) :
  let hs1 := handleWavStreamDone w (handleWavStream w hs ws).1 in
  let ws1 := (handleWavStream w hs ws).2 in
  order ≡ₚ elements (streamClients hs1) ->
  streamClients hs1 = streamClients hs ∖ {[ w ]}
  /\ (BroadcastAndCleanup order data hs1 ws1).2 !! w = ws1 !! w.
Proof.
  intros hs1 ws1 Horder.
  assert (Hcl : streamClients hs1 = streamClients hs ∖ {[ w ]}).
  { subst hs1. unfold handleWavStreamDone, handleWavStream, removeStreamClient,
      addStreamClient. cbn [fst streamClients].
    apply set_eq. intros c.
    rewrite !elem_of_difference, elem_of_union, elem_of_singleton. tauto. }
  split; [exact Hcl |].
  assert (Hout : w ∉ order).
  { rewrite Horder, elem_of_elements, Hcl, elem_of_difference,
      elem_of_singleton. tauto. }
  unfold BroadcastAndCleanup, Broadcast, broadcastHTTPStream.
  destruct (size (streamClients hs1) =? 0)%nat; [reflexivity |].
  pose proof (streamLoop_untouched order data ws1 [] w Hout) as Hsame.
  destruct (broadcastLoop order data ws1 []) as [ws2 failed].
  cbn [fst] in Hsame.
  destruct (0 <? length failed)%nat; exact Hsame.
Qed.

Lemma departed_client_gets_nothing_witness :
  let ws : gmap nat writer :=
    <[1%nat := mkWriter false true []]> (<[2%nat := mkWriter false true []]> ∅) in
  let hs := addStreamClient 1 (NewHTTPServer defaultConfig) in
  let hs1 := handleWavStreamDone 2 (handleWavStream 2 hs ws).1 in
  let ws1 := (handleWavStream 2 hs ws).2 in
  (BroadcastAndCleanup [1]%nat [7; 7] hs1 ws1).2 !! 2%nat = ws1 !! 2%nat.
Proof.
  intros ws hs hs1 ws1.
  assert (Horder : [1]%nat ≡ₚ elements (streamClients hs1))
    by (vm_compute; reflexivity).
  exact (proj2 (departed_client_gets_nothing 2 hs ws [1]%nat [7; 7] Horder)).
Defined.

Lemma writeAll_gone (chunks : list (list Z)) (w : writer) :
  gone w = true -> writeAll chunks w = w.
Proof.
  intros Hgone. unfold writeAll.
  induction chunks as [| d chunks IH]; [reflexivity |].
  cbn [fold_left]. unfold wWrite at 2. rewrite Hgone. exact IH.
Qed.




End BufferedStream.

(** ** What a listener of the buffered transport hears *)

Section Listener.
Import GoInt GoFloat HTTPServer.




End Listener.

(** ** The WAV header of any configuration *)

Section WavHeaderShape.
Import GoInt GoFloat HTTPServer.

(** X16. Whatever the configuration, also one whose values the header
    cannot hold, [writeWAVHeader] writes 44 bytes, each of them a byte,
    with the markers RIFF, WAVE, "fmt " and data at the offsets 0, 8, 12
    and 36, the chunk size 16, the format tag 1 (PCM) and 16 bits per
    sample; a writer that has gone gets nothing. *)
Theorem wav_header_shape (hs : t) (w : writer) :
  let header := concat (wavHeaderWrites (config hs)) in
  length header = 44%nat
  /\ Forall (fun b => 0 <= b < 256) header
  /\ take 4 header = bytesOf "RIFF"
  /\ take 8 (drop 8 header) = bytesOf "WAVEfmt "
  /\ take 6 (drop 16 header) = [16; 0; 0; 0; 1; 0]
  /\ take 2 (drop 34 header) = [16; 0]
  /\ take 4 (drop 36 header) = bytesOf "data"
  /\ writeWAVHeader hs w
     = if gone w then w
       else mkWriter false (flusher w)
                     (out w ++ map Wrote (wavHeaderWrites (config hs))).
Proof.
  cbv zeta. unfold writeWAVHeader.
  assert (Hwrite : writeAll (wavHeaderWrites (config hs)) w
                   = if gone w then w
                     else mkWriter false (flusher w)
                            (out w ++ map Wrote (wavHeaderWrites (config hs)))).
  { destruct (gone w) eqn:Hgone.
    - apply writeAll_gone, Hgone.
    - apply writeAll_alive, Hgone. }
  rewrite Hwrite. clear Hwrite.
  generalize (config hs). intros cfg.
  unfold wavHeaderWrites. cbv zeta.
  change (bytesOf "RIFF") with [82; 73; 70; 70].
  change (bytesOf "WAVE") with [87; 65; 86; 69].
  change (bytesOf "fmt ") with [102; 109; 116; 32].
  change (bytesOf "data") with [100; 97; 116; 97].
  change (bytesOf "WAVEfmt ") with [87; 65; 86; 69; 102; 109; 116; 32].
  cbn [concat app length take drop].
  split; [reflexivity |]. split.
  - unfold byte.
    repeat (constructor; [first [lia | apply Z.mod_pos_bound; lia] |]).
    constructor.
  - repeat (split; [reflexivity |]). reflexivity.
Qed.

End WavHeaderShape.

(** ** The choice of the input device *)

Section Devices.
Import DeviceManager.

Lemma HasPrefix_trans (short : string) :
  forall long s : string,
    HasPrefix long short = true -> HasPrefix s long = true ->
    HasPrefix s short = true.
Proof.
  induction short as [| a short IH]; intros long s Hls Hsl;
    [destruct s; reflexivity |].
  destruct long as [| b long]; [discriminate |].
  destruct s as [| c s]; [discriminate |].
  cbn [HasPrefix] in *.
  apply andb_prop in Hls. destruct Hls as [Hab Hls].
  apply andb_prop in Hsl. destruct Hsl as [Hbc Hsl].
  apply Ascii.eqb_eq in Hab. apply Ascii.eqb_eq in Hbc. subst.
  rewrite Ascii.eqb_refl. cbn [andb]. exact (IH long s Hls Hsl).
Qed.

(** A string that contains a name contains every prefix of the name. *)
Lemma Contains_prefix (short long : string) :
  HasPrefix long short = true ->
  forall s, Contains s long = true -> Contains s short = true.
Proof.
  intros Hpre. induction s as [| c s IH]; intros Hc.
  - cbn [Contains] in *. rewrite orb_false_r in *.
    exact (HasPrefix_trans short long _ Hpre Hc).
  - cbn [Contains] in *. apply orb_prop in Hc. apply orb_true_iff.
    destruct Hc as [Hc | Hc].
    + left. exact (HasPrefix_trans short long _ Hpre Hc).
    + right. exact (IH Hc).
Qed.

(** X17. [AutoDetectBlackHole] does not prefer one BlackHole device to
    another: as lower-casing keeps "BlackHole" a prefix of the two longer
    names of its list, the device it returns is the first device, in the
    order of the device list, whose lower-cased name contains the
    lower-cased word "BlackHole"; there is none exactly when it returns
    nothing. *)
Theorem AutoDetectBlackHole_first_in_device_order
        (ToLower : string -> string) (dm : t)
        (H2ch : HasPrefix (ToLower "BlackHole 2ch") (ToLower "BlackHole") = true)
        (H16ch : HasPrefix (ToLower "BlackHole 16ch") (ToLower "BlackHole")
                 = true) :
  AutoDetectBlackHole ToLower dm
  = List.find (fun device =>
                 Contains (ToLower (Name device)) (ToLower "BlackHole"))
              (devices dm).
Proof.
  unfold AutoDetectBlackHole.
  induction (devices dm) as [| d ds IH]; [reflexivity |].
  cbn [List.find]. rewrite IH.
  replace (existsb (fun name => Contains (ToLower (Name d)) (ToLower name))
                   blackHoleNames)
    with (Contains (ToLower (Name d)) (ToLower "BlackHole")); [reflexivity |].
  unfold blackHoleNames. cbn [existsb]. rewrite orb_false_r.
  destruct (Contains (ToLower (Name d)) (ToLower "BlackHole")) eqn:Hshort.
  - rewrite !orb_true_r. reflexivity.
  - rewrite !orb_false_r.
    destruct (Contains (ToLower (Name d)) (ToLower "BlackHole 2ch")) eqn:H2.
    + rewrite (Contains_prefix _ _ H2ch _ H2) in Hshort. discriminate.
    + destruct (Contains (ToLower (Name d)) (ToLower "BlackHole 16ch")) eqn:H16;
        [| reflexivity].
      rewrite (Contains_prefix _ _ H16ch _ H16) in Hshort. discriminate.
Qed.

Lemma AutoDetectBlackHole_first_in_device_order_witness :
  let dm := mk [mkDevice "MacBook Microphone" 1; mkDevice "BLACKHOLE 16ch" 16;
                mkDevice "BlackHole 2ch" 2] in
  AutoDetectBlackHole lowerASCII dm = Some (mkDevice "BLACKHOLE 16ch" 16).
Proof.
  intros dm.
  rewrite (AutoDetectBlackHole_first_in_device_order lowerASCII dm
             eq_refl eq_refl).
  reflexivity.
Defined.

(** X18. [Initialize] keeps exactly the devices that have input
    channels, in the order of the system; with at least one of them
    [GetInputDevices] then succeeds and returns them; when the system
    reports an error or no device has input channels, [Initialize]
    fails and the manager is as it was. *)
Theorem Initialize_keeps_input_devices (allDevices : option (list DeviceInfo))
        (dm : t) :
  let '(dm', err) := Initialize allDevices dm in
  match err with
  | None =>
      exists all,
        allDevices = Some all
        /\ devices dm' = List.filter (fun d => 0 <? MaxInputChannels d) all
        /\ GetInputDevices dm' = Some (devices dm')
        /\ Forall (fun d => 0 < MaxInputChannels d) (devices dm')
        /\ devices dm' <> []
  | Some e =>
      dm' = dm
      /\ match allDevices with
         | None => e = DevicesUnavailable
         | Some all =>
             e = NoInputDevices
             /\ Forall (fun d => MaxInputChannels d <= 0) all
         end
  end.
Proof.
  unfold Initialize. destruct allDevices as [all |]; [| split; reflexivity].
  destruct (List.filter (fun d => 0 <? MaxInputChannels d) all)
    as [| d ds] eqn:Hf.
  - cbn [length Nat.eqb]. split; [reflexivity |]. split; [reflexivity |].
    apply List.Forall_forall. intros d Hd.
    destruct (Z.ltb_spec 0 (MaxInputChannels d)) as [Hpos | Hle]; [| exact Hle].
    assert (Hin : In d (List.filter (fun d => 0 <? MaxInputChannels d) all)).
    { apply List.filter_In. split; [exact Hd |]. apply Z.ltb_lt, Hpos. }
    rewrite Hf in Hin. destruct Hin.
  - cbn [length Nat.eqb]. exists all. split; [reflexivity |].
    cbn [devices]. split; [symmetry; exact Hf |]. split; [reflexivity |].
    split; [| discriminate].
    rewrite <- Hf. apply List.Forall_forall. intros x Hx.
    apply List.filter_In in Hx. destruct Hx as [_ Hx]. apply Z.ltb_lt, Hx.
Qed.

End Devices.

(** ** From the capture loop to the clients *)

Section Relay.
Import GoInt AudioCapture AudioRelay.

(** What one call of the callback does to each transport. *)
Lemma broadcastAudioData_tcp (o : orders) (audioData : list Z) (ar : t)
      (w : world) (ts : TCPServer.t) :
  tcpServer ar = Some ts -> tcpEnabled ar = true ->
  let step := TCPServer.BroadcastAndCleanup (tcpOrder o) audioData ts (net w) in
  tcpServer (broadcastAudioData o audioData ar w).1 = Some step.1
  /\ tcpEnabled (broadcastAudioData o audioData ar w).1 = true
  /\ net (broadcastAudioData o audioData ar w).2 = step.2.
Proof.
  intros Hts Hen. unfold broadcastAudioData. rewrite Hts, Hen.
  destruct (TCPServer.BroadcastAndCleanup (tcpOrder o) audioData ts (net w))
    as [ts1 n1].
  destruct (httpServer ar) as [hs |]; [destruct (httpEnabled ar) |];
    try (destruct (HTTPServer.BroadcastAndCleanup _ _ _ _));
    cbn; auto.
Qed.

Lemma broadcastAudioData_http (o : orders) (audioData : list Z) (ar : t)
      (w : world) (hs : HTTPServer.t) :
  httpServer ar = Some hs -> httpEnabled ar = true ->
  let step := HTTPServer.BroadcastAndCleanup (httpOrder o) audioData hs
                                             (writers w) in
  httpServer (broadcastAudioData o audioData ar w).1 = Some step.1
  /\ httpEnabled (broadcastAudioData o audioData ar w).1 = true
  /\ writers (broadcastAudioData o audioData ar w).2 = step.2.
Proof.
  intros Hhs Hen. unfold broadcastAudioData. rewrite Hhs, Hen.
  destruct (HTTPServer.BroadcastAndCleanup (httpOrder o) audioData hs
              (writers w)) as [hs1 ws1].
  destruct (tcpServer ar) as [ts |]; [destruct (tcpEnabled ar) |];
    try (destruct (TCPServer.BroadcastAndCleanup _ _ _ _));
    cbn; auto.
Qed.

(** What a run of the callback does to the raw-stream transport. *)
Lemma relayAll_tcp (schedule : list orders) :
  forall (frames : list (list Z)) (ar : t) (w : world) (ts : TCPServer.t),
    tcpServer ar = Some ts -> tcpEnabled ar = true ->
    tcpServer (relayAll schedule frames ar w).1
    = Some (TCPServer.serve (tcpCalls schedule frames) ts (net w)).1
    /\ net (relayAll schedule frames ar w).2
       = (TCPServer.serve (tcpCalls schedule frames) ts (net w)).2.
Proof.
  unfold tcpCalls.
  induction schedule as [| o schedule IH]; intros frames ar w ts Hts Hen.
  - cbn [relayAll map combine TCPServer.serve fst snd]. auto.
  - destruct frames as [| audioData frames].
    + cbn [relayAll map combine TCPServer.serve fst snd]. auto.
    + cbn [relayAll map combine TCPServer.serve].
      destruct (broadcastAudioData_tcp o audioData ar w ts Hts Hen)
        as (Hts1 & Hen1 & Hnet1).
      destruct (broadcastAudioData o audioData ar w) as [ar1 w1].
      destruct (TCPServer.BroadcastAndCleanup (tcpOrder o) audioData ts (net w))
        as [ts1 n1].
      cbn [fst snd] in Hts1, Hen1, Hnet1. subst n1.
      apply IH; assumption.
Qed.

(** What a run of the callback does to the buffered transport. *)
Lemma relayAll_http (schedule : list orders) :
  forall (frames : list (list Z)) (ar : t) (w : world) (hs : HTTPServer.t),
    httpServer ar = Some hs -> httpEnabled ar = true ->
    httpServer (relayAll schedule frames ar w).1
    = Some (HTTPServer.serve (httpCalls schedule frames) hs (writers w)).1
    /\ writers (relayAll schedule frames ar w).2
       = (HTTPServer.serve (httpCalls schedule frames) hs (writers w)).2.
Proof.
  unfold httpCalls.
  induction schedule as [| o schedule IH]; intros frames ar w hs Hhs Hen.
  - cbn [relayAll map combine HTTPServer.serve fst snd]. auto.
  - destruct frames as [| audioData frames].
    + cbn [relayAll map combine HTTPServer.serve fst snd]. auto.
    + cbn [relayAll map combine HTTPServer.serve].
      destruct (broadcastAudioData_http o audioData ar w hs Hhs Hen)
        as (Hhs1 & Hen1 & Hws1).
      destruct (broadcastAudioData o audioData ar w) as [ar1 w1].
      destruct (HTTPServer.BroadcastAndCleanup (httpOrder o) audioData hs
                  (writers w)) as [hs1 ws1].
      cbn [fst snd] in Hhs1, Hen1, Hws1. subst ws1.
      apply IH; assumption.
Qed.

Lemma snd_combine {A B : Type} (xs : list A) (ys : list B) :
  length xs = length ys -> map snd (combine xs ys) = ys.
Proof.
  revert ys. induction xs as [| x xs IH]; intros [| y ys] Hlen;
    try discriminate; [reflexivity |].
  cbn [combine map snd]. f_equal. apply IH. cbn in Hlen. lia.
Qed.

(** X19. From the device to a client of the raw stream: while no read
    fails and no frame is held back as silent, a client whose connection
    accepts writes in time has received, after the run, the encoded form
    of every frame that was read, once and in order; read back two bytes
    at a time these are the processed samples of the frames. *)
Theorem raw_stream_client_receives_the_capture
        (cycles : list cycle) (ac : AudioCapture.t) (ar : t) (w : world)
        (schedule : list orders) (ts : TCPServer.t) (A : nat)
        (kA : TCPServer.conn)
        (Hrun : isRunning ac = true) (Hcb : dataCallback ac = true)
        (Haudible : Forall (audibleRead (config ac)) cycles)
        (Hts : tcpServer ar = Some ts) (Hen : tcpEnabled ar = true)
        (HA : A ∈ TCPServer.clients ts)
        (HkA : TCPServer.conns (net w) !! A = Some kA)
        (Hok : TCPServer.willAccept kA = true) :
  let frames := callbacks (trace (processAudio cycles ac)) in
  length schedule = length frames ->
  TCPServer.ordersFit (tcpCalls schedule frames) ts (net w) ->
  exists kA',
    TCPServer.conns (net (relayAll schedule frames ar w).2) !! A = Some kA'
    /\ TCPServer.received kA'
       = TCPServer.received kA
         ++ map (encoded (config ac)) (framesRead cycles)
    /\ map Wire.decode (map (encoded (config ac)) (framesRead cycles))
       = map (processAudioData (config ac)) (framesRead cycles).
Proof.
  intros frames Hlen Hfit.
  destruct (relayAll_tcp schedule frames ar w ts Hts Hen) as [_ ->].
  pose proof (loop_audible cycles ac initLocals Hrun Hcb Haudible)
    as (_ & Hframes & _).
  fold (processAudio cycles ac) in Hframes. fold frames in Hframes.
  pose proof (serve_accepting (tcpCalls schedule frames) ts (net w) A kA
                HA HkA Hok Hfit) as Hserve.
  destruct (TCPServer.serve (tcpCalls schedule frames) ts (net w))
    as [ts' n'].
  destruct Hserve as (_ & kA' & HkA' & Hrec & _).
  exists kA'. split; [exact HkA' |]. split.
  - rewrite Hrec. f_equal. unfold tcpCalls.
    rewrite snd_combine by (rewrite length_map; exact Hlen).
    exact Hframes.
  - rewrite map_map. apply map_ext. intros frame.
    apply decode_encoded.
Qed.

Lemma raw_stream_client_receives_the_capture_witness :
  let ac := Examples.running defaultConfig in
  let cycles := [Examples.readOk Examples.loudFrame;
                 Examples.readOk [0; -1200; 3; 0]] in
  let ar := mk true false (Some (TCPServer.addClient 1 TCPServer.NewTCPServer))
               None in
  let w := mkWorld (TCPServer.mkWorld 0
                      {[ 1%nat := TCPServer.mkConn (TCPServer.Accepts 5) None
                                                   [] false ]}) ∅ in
  let schedule := [mkOrders [1%nat] []; mkOrders [1%nat] []] in
  let frames := callbacks (trace (processAudio cycles ac)) in
  exists kA',
    TCPServer.conns (net (relayAll schedule frames ar w).2) !! 1%nat = Some kA'
    /\ TCPServer.received kA'
       = [] ++ map (encoded defaultConfig) (framesRead cycles)
    /\ map Wire.decode (map (encoded defaultConfig) (framesRead cycles))
       = map (processAudioData defaultConfig) (framesRead cycles).
Proof.
  intros ac cycles ar w schedule frames.
  assert (Haud : Forall (audibleRead (config ac)) cycles).
  { repeat (constructor; [eexists; split; reflexivity |]). constructor. }
  apply (raw_stream_client_receives_the_capture cycles ac ar w schedule
           (TCPServer.addClient 1 TCPServer.NewTCPServer) 1%nat
           (TCPServer.mkConn (TCPServer.Accepts 5) None [] false)
           eq_refl eq_refl Haud eq_refl eq_refl).
  - apply elem_of_elements. vm_compute. repeat constructor.
  - reflexivity.
  - reflexivity.
  - vm_compute. reflexivity.
  - vm_compute. repeat split; reflexivity.
Defined.

(** X20. A transport that is disabled, or whose server was never
    created, is not touched by the callback: its connections and its
    server (the backlog of the buffered transport included) are after
    any number of frames what they were; and [startProtocolServers]
    creates a server for an enabled transport only. *)
Theorem disabled_transport_is_never_touched (schedule : list orders)
        (frames : list (list Z)) (ar : t) (w : world) :
  (tcpEnabled ar = false \/ tcpServer ar = None ->
   tcpServer (relayAll schedule frames ar w).1 = tcpServer ar
   /\ net (relayAll schedule frames ar w).2 = net w)
  /\ (httpEnabled ar = false \/ httpServer ar = None ->
      httpServer (relayAll schedule frames ar w).1 = httpServer ar
      /\ writers (relayAll schedule frames ar w).2 = writers w)
  /\ (forall cfg,
         tcpEnabled ar = false ->
         tcpServer (startProtocolServers cfg ar) = tcpServer ar)
  /\ (forall cfg,
         httpEnabled ar = false ->
         httpServer (startProtocolServers cfg ar) = httpServer ar).
Proof.
  split; [| split; [| split]].
  - revert frames ar w.
    induction schedule as [| o schedule IH]; intros frames ar w Hoff;
      [split; reflexivity |].
    destruct frames as [| audioData frames]; [split; reflexivity |].
    cbn [relayAll].
    assert (Hstep : tcpServer (broadcastAudioData o audioData ar w).1
                    = tcpServer ar
                    /\ tcpEnabled (broadcastAudioData o audioData ar w).1
                       = tcpEnabled ar
                    /\ net (broadcastAudioData o audioData ar w).2 = net w).
    { unfold broadcastAudioData.
      destruct (tcpServer ar) as [ts |] eqn:Hts.
      - destruct Hoff as [Hoff | Hoff]; [| discriminate]. rewrite Hoff.
        destruct (httpServer ar) as [hs |]; [destruct (httpEnabled ar) |];
          try (destruct (HTTPServer.BroadcastAndCleanup _ _ _ _));
          cbn; auto.
      - destruct (httpServer ar) as [hs |]; [destruct (httpEnabled ar) |];
          try (destruct (HTTPServer.BroadcastAndCleanup _ _ _ _));
          cbn; auto. }
    destruct (broadcastAudioData o audioData ar w) as [ar1 w1].
    cbn [fst snd] in Hstep. destruct Hstep as (Hts1 & Hen1 & Hnet1).
    rewrite <- Hts1, <- Hnet1. apply IH.
    rewrite Hts1, Hen1. exact Hoff.
  - revert frames ar w.
    induction schedule as [| o schedule IH]; intros frames ar w Hoff;
      [split; reflexivity |].
    destruct frames as [| audioData frames]; [split; reflexivity |].
    cbn [relayAll].
    assert (Hstep : httpServer (broadcastAudioData o audioData ar w).1
                    = httpServer ar
                    /\ httpEnabled (broadcastAudioData o audioData ar w).1
                       = httpEnabled ar
                    /\ writers (broadcastAudioData o audioData ar w).2
                       = writers w).
    { unfold broadcastAudioData.
      destruct (httpServer ar) as [hs |] eqn:Hhs.
      - destruct Hoff as [Hoff | Hoff]; [| discriminate]. rewrite Hoff.
        destruct (tcpServer ar) as [ts |]; [destruct (tcpEnabled ar) |];
          try (destruct (TCPServer.BroadcastAndCleanup _ _ _ _));
          cbn; auto.
      - destruct (tcpServer ar) as [ts |]; [destruct (tcpEnabled ar) |];
          try (destruct (TCPServer.BroadcastAndCleanup _ _ _ _));
          cbn; auto. }
    destruct (broadcastAudioData o audioData ar w) as [ar1 w1].
    cbn [fst snd] in Hstep. destruct Hstep as (Hhs1 & Hen1 & Hws1).
    rewrite <- Hhs1, <- Hws1. apply IH.
    rewrite Hhs1, Hen1. exact Hoff.
  - intros cfg Hoff. unfold startProtocolServers. rewrite Hoff. reflexivity.
  - intros cfg Hoff. unfold startProtocolServers. rewrite Hoff. reflexivity.
Qed.

Lemma disabled_transport_is_never_touched_witness :
  let ar := mk false true (Some (TCPServer.addClient 1 TCPServer.NewTCPServer))
               None in
  let w := mkWorld (TCPServer.mkWorld 0
                      {[ 1%nat := TCPServer.mkConn (TCPServer.Accepts 5) None
                                                   [] false ]}) ∅ in
  net (relayAll [mkOrders [1%nat] []; mkOrders [1%nat] []] [[1; 0]; [2; 0]]
                ar w).2
  = net w.
Proof.
  intros ar w.
  exact (proj2 (proj1 (disabled_transport_is_never_touched
                         [mkOrders [1%nat] []; mkOrders [1%nat] []]
                         [[1; 0]; [2; 0]] ar w)
                      (or_introl eq_refl))).
Defined.

End Relay.

(** ** The processor of the default configuration *)

Section DefaultProcessor.
Import GoInt GoFloat AudioCapture.

Lemma allFrom_spec (lo : Z) (n : nat) (p : Z -> bool) (z : Z) :
  Reference.allFrom lo n p = true ->
  lo <= z < lo + Z.of_nat n -> p z = true.
Proof.
  unfold Reference.allFrom. intros Hall Hz.
  rewrite forallb_forall in Hall.
  specialize (Hall (Z.to_nat (z - lo))).
  replace (lo + Z.of_nat (Z.to_nat (z - lo))) with z in Hall by lia.
  apply Hall, in_seq. lia.
Qed.

(** X21. With the values of [setDefaults] (volume 1, clip threshold
    28000) the floating-point processor is, on every 16-bit sample, this
    function of integers: the sample itself up to a magnitude of 28000,
    and beyond it 28000 plus three tenths of the excess with the
    fraction dropped, with the sign of the sample. So it never makes a
    sample louder and never leaves the range from -29430 to 29430. *)
Theorem default_processor_in_integers (s : Z) (Hs : is_int16 s) :
  processSample defaultConfig s = Reference.defaultSoftClip s
  /\ Z.abs (processSample defaultConfig s) <= Z.abs s
  /\ Z.abs (processSample defaultConfig s) <= 29430.
Proof.
  assert (Hhigh : Reference.allFrom 28001 (Z.to_nat 4767)
                    (fun z => processSample defaultConfig z
                              =? Reference.defaultSoftClip z) = true)
    by (vm_compute; reflexivity).
  assert (Hlow : Reference.allFrom (-32768) (Z.to_nat 4768)
                   (fun z => processSample defaultConfig z
                             =? Reference.defaultSoftClip z) = true)
    by (vm_compute; reflexivity).
  unfold is_int16, min_int16, max_int16 in Hs.
  assert (Heq : processSample defaultConfig s = Reference.defaultSoftClip s).
  { destruct (Z.lt_ge_cases 28000 s) as [Hgt | Hle];
      [| destruct (Z.lt_ge_cases s (-28000)) as [Hlt | Hge]].
    - apply Z.eqb_eq. apply (allFrom_spec _ _ _ s Hhigh). lia.
    - apply Z.eqb_eq. apply (allFrom_spec _ _ _ s Hlow). lia.
    - unfold Reference.defaultSoftClip.
      destruct (Z.ltb_spec 28000 s); [lia |].
      destruct (Z.ltb_spec s (-28000)); [lia |].
      apply processSample_unit_gain; [reflexivity | | | ];
        unfold is_int16, min_int16, max_int16; cbn; lia. }
  rewrite Heq. split; [reflexivity |].
  unfold Reference.defaultSoftClip.
  destruct (Z.ltb_spec 28000 s); [| destruct (Z.ltb_spec s (-28000))].
  - pose proof (Z.div_pos (3 * (s - 28000)) 10 ltac:(lia) ltac:(lia)).
    assert ((3 * (s - 28000)) / 10 <= s - 28000)
      by (apply Z.div_le_upper_bound; lia).
    assert ((3 * (s - 28000)) / 10 <= 1430)
      by (apply Z.lt_succ_r, Z.div_lt_upper_bound; lia).
    lia.
  - pose proof (Z.div_pos (3 * (- s - 28000)) 10 ltac:(lia) ltac:(lia)).
    assert ((3 * (- s - 28000)) / 10 <= - s - 28000)
      by (apply Z.div_le_upper_bound; lia).
    assert ((3 * (- s - 28000)) / 10 <= 1430)
      by (apply Z.lt_succ_r, Z.div_lt_upper_bound; lia).
    lia.
  - lia.
Qed.

Lemma default_processor_in_integers_witness :
  processSample defaultConfig 32767 = 29430
  /\ processSample defaultConfig (-32768) = -29430.
Proof.
  split.
  - exact (proj1 (default_processor_in_integers 32767
                    ltac:(unfold is_int16, min_int16, max_int16; lia))).
  - exact (proj1 (default_processor_in_integers (-32768)
                    ltac:(unfold is_int16, min_int16, max_int16; lia))).
Defined.

End DefaultProcessor.

(** ** The byte counter *)

Section ByteCounter.
Import GoInt AudioCapture.

Lemma int64_in_range (z : Z) : is_int64 (int64 z).
Proof.
  unfold is_int64, min_int64, max_int64, int64.
  pose proof (wrap_range 64 z ltac:(lia)). simpl in *. lia.
Qed.

(** The byte counter over one iteration. *)
Lemma iteration_bytes (c : cycle) (ac : t) (l : locals) :
  dataCallback ac = true -> is_int64 (bytesSent ac) ->
  exists ctl ac' l' evs,
    iteration c ac l = (ctl, ac', l', evs)
    /\ bytesSent ac'
       = int64 (bytesSent ac + Z.of_nat (length (concat (callbacks evs)))).
Proof.
  intros Hcb Hrange.
  assert (Hsame : bytesSent ac = int64 (bytesSent ac + Z.of_nat 0)).
  { cbn [Z.of_nat]. rewrite Z.add_0_r, int64_small by exact Hrange.
    reflexivity. }
  destruct (read c) as [frame |] eqn:Hread.
  - destruct (SilenceDetection (Processing (config ac))
              && isSilence (config ac) frame) eqn:Hquiet.
    + apply andb_prop in Hquiet. destruct Hquiet as [Hdet Hsil].
      destruct (iteration_silent c ac l frame Hdet Hread Hsil)
        as (ac' & l' & evs & Hit & _ & _ & _ & _ & _ & _ & Hskip & Hnorm).
      exists Continue, ac', l', evs. split; [exact Hit |].
      destruct (Z.le_gt_cases (silenceFrames l') 30) as [Hle | Hgt].
      * destruct (Hnorm Hle) as [Hcbs Hb]. rewrite Hcbs, Hb, Hcb.
        cbn [concat]. rewrite app_nil_r. reflexivity.
      * destruct (Hskip ltac:(lia)) as [Hevs Hb]. rewrite Hevs, Hb.
        exact Hsame.
    + destruct (iteration_audible c ac l frame Hread Hquiet)
        as (ac' & l' & evs & Hit & _ & Hcbs & _ & Hb).
      exists Continue, ac', l', evs. split; [exact Hit |].
      rewrite Hcbs, Hb, Hcb. cbn [concat]. rewrite app_nil_r. reflexivity.
  - unfold iteration. rewrite Hread. cbv zeta.
    destruct (10 <? _); eexists _, _, _, _; (split; [reflexivity |]);
      exact Hsame.
Qed.

Lemma loop_bytes (cycles : list cycle) :
  forall (ac : t) (l : locals),
    dataCallback ac = true -> is_int64 (bytesSent ac) ->
    let o := loop cycles ac l in
    bytesSent (capture o)
    = int64 (bytesSent ac
             + Z.of_nat (length (concat (callbacks (trace o))))).
Proof.
  induction cycles as [| c cycles IH]; intros ac l Hcb Hrange; cbv zeta.
  - cbn [loop]. destruct (isRunning ac); cbn [capture trace callbacks
      flat_map concat length Z.of_nat];
      rewrite Z.add_0_r, int64_small by exact Hrange; reflexivity.
  - cbn [loop]. destruct (isRunning ac).
    2:{ cbn [capture trace callbacks flat_map concat length Z.of_nat].
        rewrite Z.add_0_r, int64_small by exact Hrange. reflexivity. }
    pose proof (iteration_sameSetup c ac l) as Hset.
    destruct (iteration_bytes c ac l Hcb Hrange)
      as (ctl & ac' & l' & evs & Hit & Hbytes).
    rewrite Hit in Hset |- *. cbn [fst snd] in Hset.
    destruct ctl; cbn [capture trace]; [| exact Hbytes].
    destruct Hset as (_ & Hdc & _).
    specialize (IH ac' l' ltac:(congruence)
                   ltac:(rewrite Hbytes; apply int64_in_range)).
    cbv zeta in IH. rewrite IH, Hbytes, int64_add_l.
    rewrite callbacks_app, concat_app, length_app. f_equal. lia.
Qed.

(** X22. With a callback installed, the byte counter that [GetStats]
    reports moves with the callback: after any run of the loop (failed
    reads, throttled silence and an early exit included) it has grown,
    as an [int64], by exactly the number of bytes that were handed to
    the callback. *)
Theorem bytes_sent_counts_the_bytes_dispatched (cycles : list cycle) (ac : t)
        (Hcb : dataCallback ac = true) (Hrange : is_int64 (bytesSent ac)) :
  let o := processAudio cycles ac in
  let '(_, bytes, _) := GetStats (capture o) in
  bytes
  = int64 (bytesSent ac + Z.of_nat (length (concat (callbacks (trace o))))).
Proof. exact (loop_bytes cycles ac initLocals Hcb Hrange). Qed.

Lemma bytes_sent_counts_the_bytes_dispatched_witness :
  let ac := Examples.running defaultConfig in
  let cycles := [Examples.readOk Examples.loudFrame; Examples.readFails;
                 Examples.readOk Examples.silentFrame] in
  let o := processAudio cycles ac in
  let '(_, bytes, _) := GetStats (capture o) in
  bytes = int64 (0 + Z.of_nat (length (concat (callbacks (trace o))))).
Proof.
  intros ac cycles.
  apply (bytes_sent_counts_the_bytes_dispatched cycles ac eq_refl).
  unfold is_int64, min_int64, max_int64. cbn. lia.
Defined.

End ByteCounter.

(** ** Stopping the buffered transport *)

Section StopBuffered.
Import HTTPServer.





End StopBuffered.

(** ** Stopping the capture *)

Section StopCapture.
Import GoInt AudioCapture.

Lemma iteration_isCapturing (c : cycle) (ac : t) (l : locals) :
  isCapturing (iteration c ac l).1.1.2 = isCapturing ac.
Proof.
  unfold iteration, processAndSend.
  destruct (read c) as [frame |]; cbv zeta.
  - destruct (SilenceDetection (Processing (config ac)));
      [destruct (isSilence (config ac) frame); [destruct (30 <? _) |] |];
      try reflexivity;
      destruct (statsDue c); reflexivity.
  - destruct (10 <? _); reflexivity.
Qed.

Lemma loop_isCapturing (cycles : list cycle) :
  forall (ac : t) (l : locals),
    isCapturing (capture (loop cycles ac l)) = isCapturing ac.
Proof.
  induction cycles as [| c cycles IH]; intros ac l.
  - cbn [loop]. destruct (isRunning ac); reflexivity.
  - cbn [loop]. destruct (isRunning ac); [| reflexivity].
    pose proof (iteration_isCapturing c ac l) as Hstep.
    destruct (iteration c ac l) as [[[ctl ac'] l'] evs]. cbn [fst snd] in Hstep.
    destruct ctl; cbn [capture]; [| exact Hstep].
    rewrite IH. exact Hstep.
Qed.

(** X24. After [Stop] the loop of a capture that was started is left
    at its next test, whatever it has done before and whatever the
    device would still deliver: no read, no callback, no change to the
    statistics; the capture reports that it is not capturing, and a
    second [Stop] changes nothing. *)
Theorem nothing_is_dispatched_after_Stop (before after : list cycle) (ac : t) :
  let o1 := processAudio before (Start ac) in
  let stopped := Stop (capture o1) in
  let o2 := loop after stopped (vars o1) in
  exited o2 = true
  /\ trace o2 = []
  /\ GetStats (capture o2) = GetStats (capture o1)
  /\ isCapturing (capture o2) = false
  /\ Stop stopped = stopped.
Proof.
  cbv zeta. unfold processAudio.
  pose proof (loop_isCapturing before (Start ac) initLocals) as Hcap.
  cbn [Start isCapturing] in Hcap.
  set (ac1 := capture (loop before (Start ac) initLocals)) in *.
  unfold Stop at 1 2 3 4. rewrite Hcap.
  destruct after; cbn [loop isRunning exited trace capture GetStats frameCount
                       bytesSent silenceCount isCapturing];
    repeat split; unfold Stop; rewrite Hcap; reflexivity.
Qed.

End StopCapture.

(** ** Devices that can be selected *)

Section SelectableDevices.
Import DeviceManager.

(** X25. Whatever [strings.EqualFold] and [strings.ToLower] do, a
    device that [GetDeviceByName] or [AutoDetectBlackHole] returns after
    a successful [Initialize] is one of the devices of the system and
    has input channels: a device without them is never selected by its
    name or as a BlackHole device. *)
Theorem selected_device_has_input_channels
        (EqualFold : string -> string -> bool) (ToLower : string -> string)
        (all : list DeviceInfo) (dm dm' : t) (name : string) (d : DeviceInfo)
        (Hinit : Initialize (Some all) dm = (dm', None))
        (Hsel : GetDeviceByName EqualFold name dm' = inl d
                \/ AutoDetectBlackHole ToLower dm' = Some d) :
  In d all /\ 0 < MaxInputChannels d.
Proof.
  assert (Hdev : devices dm'
                 = List.filter (fun d => 0 <? MaxInputChannels d) all).
  { unfold Initialize in Hinit.
    destruct (length _ =? 0)%nat; [discriminate |].
    injection Hinit as <-. reflexivity. }
  assert (Hin : In d (devices dm')).
  { destruct Hsel as [Hsel | Hsel].
    - unfold GetDeviceByName in Hsel.
      destruct (List.find _ (devices dm')) as [d0 |] eqn:Hfind;
        [| discriminate].
      injection Hsel as <-. apply List.find_some in Hfind. apply Hfind.
    - unfold AutoDetectBlackHole in Hsel.
      apply List.find_some in Hsel. apply Hsel. }
  rewrite Hdev in Hin. apply List.filter_In in Hin.
  destruct Hin as [Hall Hpos]. split; [exact Hall |]. apply Z.ltb_lt, Hpos.
Qed.

Lemma selected_device_has_input_channels_witness :
  let all := [mkDevice "BlackHole 2ch" 0; mkDevice "Built-in Output" 0;
              mkDevice "blackhole 16CH" 16] in
  0 < MaxInputChannels (mkDevice "blackhole 16CH" 16).
Proof.
  intros all.
  refine (proj2 (selected_device_has_input_channels
                   String.eqb lowerASCII all NewDeviceManager
                   (mk [mkDevice "blackhole 16CH" 16]) "x"
                   (mkDevice "blackhole 16CH" 16) eq_refl
                   (or_intror eq_refl))).
Defined.

End SelectableDevices.
